(** * GigaChat client: conversation session, channel and composer

    A shallow embedding of the chat page logic ([src/js/chat.js]) and of the
    WebSocket wrapper of the API client ([src/js/api.js]), followed by the
    properties of the conversation session that the specification states.

    Conventions of the embedding.
    - A JavaScript string is a [string]; its characters stand for code units,
      so [String.length] is the [.length] of the source.  Code units are
      restricted to the range of [ascii] (U+0000..U+00FF), except in the
      search of the friend list, which lower-cases its strings: there a
      string is a sequence of arbitrary UTF-16 code units ([Utf16.t]).
    - A property that may be [undefined] or [null] is an [option]; the
      source never distinguishes the two (it only tests truthiness).
    - Module-level [let] variables of chat.js are the fields of [Chat.State],
      every function that assigns them is a state transformer.
    - [async] functions are cut at their [await]s: the part up to the first
      [await] runs when the function is called, each continuation runs when
      the awaited promise settles, as an event of the event loop.
    - Built-ins of the browser ([Date], [JSON.parse], locale formatting,
      [crypto.randomUUID]) are the fields of the class [Browser]; the
      tables of the Unicode Character Database that [toLowerCase] reads
      are the fields of the class [Unicode]. *)

From Stdlib Require Import ZArith String Ascii List Bool Lia.
From stdpp Require Import base list strings pretty gmap.
Import ListNotations.
Open Scope string_scope.
Open Scope list_scope.

(* ------------------------------------------------------------------ *)
(** ** JavaScript strings and truthiness *)

Module Js.

(** [!s] is false exactly for the non-empty strings. *)
Definition truthy (s : string) : bool := negb (bool_decide (s = "")).

(** Truthiness of a property that may be missing: [undefined], [null]
    and the empty string are falsy. *)
Definition truthy_opt (o : option string) : bool :=
  match o with
  | Some s => truthy s
  | None => false
  end.

(** [o || d] for a string-valued property. *)
Definition or_else (o : option string) (d : string) : string :=
  match o with
  | Some s => if truthy s then s else d
  | None => d
  end.

(** The characters of a string-valued property, a missing one having
    none. *)
Definition text (o : option string) : string :=
  match o with
  | Some s => s
  | None => ""
  end.

(** WhiteSpace and LineTerminator code units below U+0100:
    TAB, LF, VT, FF, CR, SP and NBSP. *)
Definition isWhiteSpace (c : ascii) : bool :=
  let n := nat_of_ascii c in
  (((9 <=? n) && (n <=? 13)) || (n =? 32) || (n =? 160))%nat.

Fixpoint trimStart (s : string) : string :=
  match s with
  | EmptyString => EmptyString
  | String c r => if isWhiteSpace c then trimStart r else s
  end.

Fixpoint trimEnd (s : string) : string :=
  match s with
  | EmptyString => EmptyString
  | String c r =>
      match trimEnd r with
      | EmptyString => if isWhiteSpace c then EmptyString else String c EmptyString
      | r' => String c r'
      end
  end.

(** [String.prototype.trim]. *)
Definition trim (s : string) : string := trimEnd (trimStart s).

(** [s.includes(needle)]: [needle] occurs in [s] at some position. *)
Fixpoint includes (s needle : string) : bool :=
  String.prefix needle s
  || match s with
     | EmptyString => false
     | String _ r => includes r needle
     end.

End Js.

(* ------------------------------------------------------------------ *)
(** ** Friend directory *)

Module FriendInfo.
Record t := mk {
  friend_id : string;
  username : option string;
  display_name : option string
}.
End FriendInfo.

(* ------------------------------------------------------------------ *)
(** ** Strings of UTF-16 code units

    The search of the friend list lower-cases the names and the query
    with [String.prototype.toLowerCase], whose result depends on code
    units above U+00FF and on the neighbours of a character.  For the
    search a string is therefore the sequence of its UTF-16 code units,
    each a number below 2^16, without the restriction to U+00FF. *)

(** The tables of the Unicode Character Database that [toLowerCase]
    reads: the simple lowercase mapping of a code point and the
    properties Cased and Case_Ignorable. *)
Class Unicode := {
  Lowercase_Mapping : N → N;
  Cased : N → bool;
  Case_Ignorable : N → bool
}.

Module Utf16.

Definition t := list N.

(** [!s] is false exactly for the non-empty strings. *)
Definition truthy (s : t) : bool :=
  match s with
  | [] => false
  | _ :: _ => true
  end.

(** [o || d] for a string-valued property. *)
Definition or_else (o : option t) (d : t) : t :=
  match o with
  | Some s => if truthy s then s else d
  | None => d
  end.

(** The code units of a string-valued property, a missing one having
    none. *)
Definition text (o : option t) : t := default [] o.

Definition leadingSurrogate (u : N) : bool := ((0xD800 <=? u) && (u <=? 0xDBFF))%N.
Definition trailingSurrogate (u : N) : bool := ((0xDC00 <=? u) && (u <=? 0xDFFF))%N.

(** StringToCodePoints: a leading surrogate followed by a trailing one
    is one code point, every other code unit is a code point of its
    own. *)
Fixpoint codePoints (s : t) : list N :=
  match s with
  | [] => []
  | u :: r =>
      match r with
      | v :: r' =>
          if leadingSurrogate u && trailingSurrogate v
          then ((u - 0xD800) * 0x400 + (v - 0xDC00) + 0x10000)%N :: codePoints r'
          else u :: codePoints r
      | [] => [u]
      end
  end.

(** UTF16EncodeCodePoint. *)
Definition codeUnits (cp : N) : t :=
  if (cp <=? 0xFFFF)%N then [cp]
  else [((cp - 0x10000) / 0x400 + 0xD800)%N; ((cp - 0x10000) mod 0x400 + 0xDC00)%N].

(** CodePointsToString. *)
Definition ofCodePoints (text : list N) : t := concat (codeUnits <$> text).

Section Case.
Context `{Unicode}.

(** Going away from a character: some case-ignorable code points, then
    a cased one. *)
Fixpoint reachesCased (text : list N) : bool :=
  match text with
  | [] => false
  | c :: r => Cased c || (Case_Ignorable c && reachesCased r)
  end.

(** The condition Final_Sigma of SpecialCasing.txt on a capital sigma:
    it is preceded by a cased letter and then case-ignorable characters,
    and not followed by case-ignorable characters and then a cased
    letter.  [before] holds the code points in front of the sigma, the
    nearest first, [after] those behind it. *)
Definition Final_Sigma (before after : list N) : bool :=
  reachesCased before && negb (reachesCased after).

(** The lowercase mapping of the default case conversion, without
    tailoring: U+0130 becomes U+0069 U+0307, a capital sigma (U+03A3)
    under Final_Sigma becomes the final small sigma (U+03C2), every
    other code point its simple lowercase mapping. *)
Fixpoint toLowercase (before text : list N) : list N :=
  match text with
  | [] => []
  | c :: r =>
      (if (c =? 0x0130)%N then [0x0069; 0x0307]%N
       else if (c =? 0x03A3)%N && Final_Sigma before r then [0x03C2%N]
       else [Lowercase_Mapping c])
      ++ toLowercase (c :: before) r
  end.

(** [String.prototype.toLowerCase]. *)
Definition toLowerCase (s : t) : t := ofCodePoints (toLowercase [] (codePoints s)).

(** The code units on which lower-casing works one by one: no
    surrogate, not U+0130, not the capital sigma, and a lowercase
    mapping that is one code unit. *)
Definition simple (u : N) : bool :=
  negb (leadingSurrogate u || trailingSurrogate u)
  && negb (u =? 0x0130)%N && negb (u =? 0x03A3)%N
  && (Lowercase_Mapping u <=? 0xFFFF)%N.

End Case.

(** [needle] at the start of [s]. *)
Fixpoint startsWith (s needle : t) {struct needle} : bool :=
  match needle, s with
  | [], _ => true
  | c :: needle', d :: s' => (c =? d)%N && startsWith s' needle'
  | _ :: _, [] => false
  end.

(** [s.includes(needle)]: [needle] occurs in [s] at some position. *)
Fixpoint includes (s needle : t) : bool :=
  startsWith s needle
  || match s with
     | [] => false
     | _ :: r => includes r needle
     end.

(** The code units of a text of the examples. *)
Definition ofString (s : string) : t := N_of_ascii <$> list_ascii_of_string s.

End Utf16.

(* ------------------------------------------------------------------ *)
(** ** Friend directory: the search *)

(** A friend as the search reads it: the two names, over all code
    units. *)
Module FriendNames.
Record t := mk {
  username : option Utf16.t;
  display_name : option Utf16.t
}.
End FriendNames.

Section Search.
Context `{Unicode}.

(** The predicate passed to [friends.filter] in [renderFriendList]. *)
Definition friendMatches (filter : Utf16.t) (f : FriendNames.t) : bool :=
  Utf16.includes (Utf16.toLowerCase (Utf16.or_else (FriendNames.username f) []))
                 (Utf16.toLowerCase filter)
  || Utf16.includes (Utf16.toLowerCase (Utf16.or_else (FriendNames.display_name f) []))
                    (Utf16.toLowerCase filter).

(** The constant [filtered] of [renderFriendList]. *)
Definition filtered (friends : list FriendNames.t) (filter : Utf16.t)
  : list FriendNames.t :=
  if Utf16.truthy filter then List.filter (friendMatches filter) friends
  else friends.

(** What the specification calls a case-insensitive substring: some
    contiguous part of [name] equals [query] up to letter case. *)
Definition ci_substring (query name : Utf16.t) : Prop :=
  ∃ pre mid post : Utf16.t,
    name = pre ++ mid ++ post ∧ Utf16.toLowerCase mid = Utf16.toLowerCase query.

End Search.

(** [needle] is a contiguous part of [s]. *)
Definition occursIn (needle s : Utf16.t) : Prop :=
  ∃ pre post : Utf16.t, s = pre ++ needle ++ post.


(* ------------------------------------------------------------------ *)
(** ** The browser *)

(** A received frame as [onMessage] reads it: the three properties of the
    protocol's inbound frame [{sender_id, content, created_at}]. *)
Module Payload.
Record t := mk {
  sender_id : option string;
  content : option string;
  created_at : option string
}.
End Payload.

(** Outcome of [JSON.parse(event.data)] as the message listener uses it:
    the parser throws, or yields a value.  A value is seen through the
    properties [onMessage] reads; [None] stands for a falsy value
    ([null], [false], [0], the empty string), which [onMessage] rejects
    at [!data]. *)
Inductive Parsed :=
| Throws
| Value (data : option Payload.t).

(** The built-ins the page relies on.  A time value is a number of
    milliseconds since the epoch; [Date_parse] is [new Date(s).getTime()]
    with [None] for [NaN]; [local_day] numbers the local calendar days, so
    that two valid dates have the same [toDateString()] exactly when their
    [local_day]s agree, and [setDate(getDate() - 1)] moves to the previous
    number. *)
Class Browser := {
  Date_parse : string → option Z;
  local_day : Z → Z;
  toLocaleTimeString : Z → string;
  toLocaleDateString : Z → string;
  toISOString : Z → string;
  JSON_parse : string → Parsed;
  randomUUID : option (nat → string);
  typeErrorMessage : string
}.

(** [new Date(s).toDateString()]: the text ["Invalid Date"] for an invalid
    date, otherwise a text that names the local calendar day. *)
Inductive DateString :=
| InvalidDate
| DayText (day : Z).

#[global] Instance DateString_eq_dec : EqDecision DateString.
Proof. solve_decision. Defined.

Section Time.
Context `{Browser}.

Definition toDateString (isoString : string) : DateString :=
  match Date_parse isoString with
  | Some t => DayText (local_day t)
  | None => InvalidDate
  end.

(** [formatTime(isoString)]. *)
Definition formatTime (isoString : option string) : string :=
  if negb (Js.truthy_opt isoString) then ""
  else
    match Date_parse (Js.text isoString) with
    | None => ""
    | Some t => toLocaleTimeString t
    end.

(** [formatDate(isoString)], [now] being the time value of [new Date()]. *)
Definition formatDate (now : Z) (isoString : option string) : string :=
  if negb (Js.truthy_opt isoString) then ""
  else
    match Date_parse (Js.text isoString) with
    | None => ""
    | Some t =>
        if bool_decide (local_day t = local_day now) then "Today"
        else if bool_decide (local_day t = local_day now - 1)%Z then "Yesterday"
        else toLocaleDateString t
    end.

(** [isDifferentDay(iso1, iso2)].  [toDateString] does not throw, the
    [catch] branch of the source is never taken. *)
Definition isDifferentDay (iso1 iso2 : option string) : bool :=
  if negb (Js.truthy_opt iso1) || negb (Js.truthy_opt iso2) then false
  else
    negb (bool_decide (toDateString (Js.text iso1) = toDateString (Js.text iso2))).

End Time.

(* ------------------------------------------------------------------ *)
(** ** Messages and their rendering *)

Module Message.
Record t := mk {
  id : string;
  conversation_id : option string;
  sender_id : option string;
  content : string;
  created_at : option string
}.
End Message.

Record User := { user_id : string; user_name : string }.

Inductive Side := self | other.

(** One element appended to [html] by [renderMessages]: the date separator
    with its label, or a message with the texts placed in it (the markup
    around them and the avatar are left out). *)
Inductive Item :=
| DateSeparator (dateStr : string)
| MessageRow (side : Side) (senderName time content : string).

(** [getFriendName(senderId)]. *)
Definition getFriendName (friends : list FriendInfo.t) (senderId : option string)
  : string :=
  match List.find (λ f, bool_decide (Some (FriendInfo.friend_id f) = senderId)) friends with
  | Some friend =>
      Js.or_else (FriendInfo.display_name friend)
                 (Js.or_else (FriendInfo.username friend) "User")
  | None => "User"
  end.

Section Rendering.
Context `{Browser}.
Variable currentUser : User.
Variable friends : list FriendInfo.t.
Variable now : Z.

(** The body of the [messages.forEach((msg, index) => ...)] callback of
    [renderMessages]: what one message adds to [html].  For [index > 0]
    the element [messages[index - 1]] exists. *)
Definition renderRow (messages : list Message.t) (index : nat) (msg : Message.t)
  : list Item :=
  let isSelf := bool_decide (Message.sender_id msg = Some (user_id currentUser)) in
  let senderName := if isSelf then "You" else getFriendName friends (Message.sender_id msg) in
  let time := formatTime (Message.created_at msg) in
  let side := if isSelf then self else other in
  (if (index =? 0)%nat
      || match messages !! (index - 1)%nat with
         | Some prev => isDifferentDay (Message.created_at prev) (Message.created_at msg)
         | None => false
         end
   then [DateSeparator (formatDate now (Message.created_at msg))]
   else [])
  ++ [MessageRow side senderName time (Message.content msg)].

(** The value of [html] after the loop. *)
Definition renderHtml (messages : list Message.t) : list Item :=
  concat (imap (renderRow messages) messages).

End Rendering.

Definition isSeparator (i : Item) : bool :=
  match i with
  | DateSeparator _ => true
  | MessageRow _ _ _ _ => false
  end.

(** Number of date-boundary markers in a rendering. *)
Definition markers (html : list Item) : nat :=
  length (List.filter isSeparator html).

(** Content of the messages area. *)
Inductive View :=
| Blank
| Spinner
| ConversationStart
| Rows (html : list Item)
| LoadFailed (message : string).

(* ------------------------------------------------------------------ *)
(** ** The API client: conversation sockets *)

Module Api.

Inductive ReadyState := CONNECTING | OPEN | CLOSING | CLOSED.

#[global] Instance ReadyState_eq_dec : EqDecision ReadyState.
Proof. solve_decision. Defined.

(** A [WebSocket] made by [ChatSocket.connect]: the conversation its URL
    and its callbacks are bound to, its state, and the contents it has
    transmitted, an entry [c] standing for the frame
    [JSON.stringify({content: c})]. *)
Record Socket := mkSocket {
  conversationId : option string;
  readyState : ReadyState;
  sent : list string
}.

(** [new WebSocket(wsUrl)] in [ChatSocket.connect]. *)
Definition newSocket (conversationId : option string) : Socket :=
  mkSocket conversationId CONNECTING [].

(** The [send(content)] method of the wrapper. *)
Definition send (content : string) (k : Socket) : Socket :=
  if bool_decide (readyState k = OPEN)
  then mkSocket (conversationId k) (readyState k) (sent k ++ [content])
  else k.

(** The [close()] method of the wrapper, [socket.close()]: a socket that
    is connecting or open starts closing, otherwise nothing happens. *)
Definition close (k : Socket) : Socket :=
  match readyState k with
  | CONNECTING | OPEN => mkSocket (conversationId k) CLOSING (sent k)
  | CLOSING | CLOSED => k
  end.

Definition setReadyState (r : ReadyState) (k : Socket) : Socket :=
  mkSocket (conversationId k) r (sent k).

(** The payload the message listener passes to [callbacks.onMessage]. *)
Definition delivered `{Browser} (eventData : string) : option Payload.t :=
  match JSON_parse eventData with
  | Value data => data
  | Throws => Some (Payload.mk None (Some eventData) None)
  end.

End Api.

(* ------------------------------------------------------------------ *)
(** ** The chat page *)

Module Chat.

Definition MAX_MESSAGE_LENGTH : nat := 500.

(** Argument of [updateConnectionStatus]. *)
Inductive Status := connected | disconnected | reconnecting.

(** The [connection-status] element: the class added to its base class,
    whether [style.display] is ["none"], and which banner its markup
    holds. *)
Record StatusEl := mkStatusEl {
  modifier : option Status;
  display_none : bool;
  banner : option Status
}.

(** Response bodies of the two requests of [openConversation]. *)
Record StartResponse := { start_conversation_id : option string }.
Record HistoryResponse := { history_messages : option (list Message.t) }.

Inductive Request :=
| PostConversations (friendId : string)
| GetMessages (conversationId : string).

(** A call of [openConversation] between its [await]s. *)
Inductive Task :=
| AwaitStart (friendId : string)
| AwaitHistory (conversationId : string)
| Returned.

(** The module state of chat.js, the elements of the page it writes, and
    what the browser holds for it: the clock, the identifiers drawn so
    far, every socket created, the suspended calls and the requests
    issued.  [wsConnection] refers to a socket by its position in
    [sockets]. *)
Record State := mkState {
  currentUser : User;
  friends : list FriendInfo.t;
  activeConversationId : option string;
  activeFriendId : option string;
  wsConnection : option nat;
  messages : list Message.t;
  composerTextarea : option string;
  connectionStatus : option StatusEl;
  messagesArea : option View;
  toasts : list (string * string);
  clock : Z;
  drawn : nat;
  sockets : list Api.Socket;
  tasks : list Task;
  requests : list Request
}.

Definition set_activeConversationId (v : option string) (s : State) : State :=
  mkState (currentUser s) (friends s) v (activeFriendId s) (wsConnection s)
    (messages s) (composerTextarea s) (connectionStatus s) (messagesArea s)
    (toasts s) (clock s) (drawn s) (sockets s) (tasks s) (requests s).

Definition set_activeFriendId (v : option string) (s : State) : State :=
  mkState (currentUser s) (friends s) (activeConversationId s) v (wsConnection s)
    (messages s) (composerTextarea s) (connectionStatus s) (messagesArea s)
    (toasts s) (clock s) (drawn s) (sockets s) (tasks s) (requests s).

Definition set_wsConnection (v : option nat) (s : State) : State :=
  mkState (currentUser s) (friends s) (activeConversationId s) (activeFriendId s) v
    (messages s) (composerTextarea s) (connectionStatus s) (messagesArea s)
    (toasts s) (clock s) (drawn s) (sockets s) (tasks s) (requests s).

Definition set_messages (v : list Message.t) (s : State) : State :=
  mkState (currentUser s) (friends s) (activeConversationId s) (activeFriendId s)
    (wsConnection s) v (composerTextarea s) (connectionStatus s) (messagesArea s)
    (toasts s) (clock s) (drawn s) (sockets s) (tasks s) (requests s).

Definition set_composerTextarea (v : option string) (s : State) : State :=
  mkState (currentUser s) (friends s) (activeConversationId s) (activeFriendId s)
    (wsConnection s) (messages s) v (connectionStatus s) (messagesArea s)
    (toasts s) (clock s) (drawn s) (sockets s) (tasks s) (requests s).

Definition set_connectionStatus (v : option StatusEl) (s : State) : State :=
  mkState (currentUser s) (friends s) (activeConversationId s) (activeFriendId s)
    (wsConnection s) (messages s) (composerTextarea s) v (messagesArea s)
    (toasts s) (clock s) (drawn s) (sockets s) (tasks s) (requests s).

Definition set_messagesArea (v : option View) (s : State) : State :=
  mkState (currentUser s) (friends s) (activeConversationId s) (activeFriendId s)
    (wsConnection s) (messages s) (composerTextarea s) (connectionStatus s) v
    (toasts s) (clock s) (drawn s) (sockets s) (tasks s) (requests s).

Definition set_toasts (v : list (string * string)) (s : State) : State :=
  mkState (currentUser s) (friends s) (activeConversationId s) (activeFriendId s)
    (wsConnection s) (messages s) (composerTextarea s) (connectionStatus s)
    (messagesArea s) v (clock s) (drawn s) (sockets s) (tasks s) (requests s).

Definition set_clock (v : Z) (s : State) : State :=
  mkState (currentUser s) (friends s) (activeConversationId s) (activeFriendId s)
    (wsConnection s) (messages s) (composerTextarea s) (connectionStatus s)
    (messagesArea s) (toasts s) v (drawn s) (sockets s) (tasks s) (requests s).

Definition set_drawn (v : nat) (s : State) : State :=
  mkState (currentUser s) (friends s) (activeConversationId s) (activeFriendId s)
    (wsConnection s) (messages s) (composerTextarea s) (connectionStatus s)
    (messagesArea s) (toasts s) (clock s) v (sockets s) (tasks s) (requests s).

Definition set_sockets (v : list Api.Socket) (s : State) : State :=
  mkState (currentUser s) (friends s) (activeConversationId s) (activeFriendId s)
    (wsConnection s) (messages s) (composerTextarea s) (connectionStatus s)
    (messagesArea s) (toasts s) (clock s) (drawn s) v (tasks s) (requests s).

Definition set_tasks (v : list Task) (s : State) : State :=
  mkState (currentUser s) (friends s) (activeConversationId s) (activeFriendId s)
    (wsConnection s) (messages s) (composerTextarea s) (connectionStatus s)
    (messagesArea s) (toasts s) (clock s) (drawn s) (sockets s) v (requests s).

Definition set_requests (v : list Request) (s : State) : State :=
  mkState (currentUser s) (friends s) (activeConversationId s) (activeFriendId s)
    (wsConnection s) (messages s) (composerTextarea s) (connectionStatus s)
    (messagesArea s) (toasts s) (clock s) (drawn s) (sockets s) (tasks s) v.

(** A method call on the socket behind a wrapper. *)
Definition onSocket (f : Api.Socket → Api.Socket) (handle : nat) (s : State) : State :=
  match sockets s !! handle with
  | Some k => set_sockets (<[handle := f k]> (sockets s)) s
  | None => s
  end.

Section Page.
Context `{Browser}.

(** [updateConnectionStatus(status)]. *)
Definition updateConnectionStatus (status : Status) (s : State) : State :=
  match connectionStatus s with
  | None => s
  | Some el =>
      let el' :=
        match status with
        | connected => mkStatusEl None true (banner el)
        | disconnected => mkStatusEl (Some disconnected) (display_none el) (Some disconnected)
        | reconnecting => mkStatusEl (Some reconnecting) (display_none el) (Some reconnecting)
        end in
      set_connectionStatus (Some el') s
  end.

(** [renderMessages()]. *)
Definition renderMessages (s : State) : State :=
  match messagesArea s with
  | None => s
  | Some _ =>
      if (length (messages s) =? 0)%nat
      then set_messagesArea (Some ConversationStart) s
      else set_messagesArea
             (Some (Rows (renderHtml (currentUser s) (friends s) (clock s) (messages s)))) s
  end.

(** An assignment to [messagesArea.innerHTML] guarded by [if (messagesArea)]. *)
Definition showInMessagesArea (v : View) (s : State) : State :=
  match messagesArea s with
  | None => s
  | Some _ => set_messagesArea (Some v) s
  end.

(** [showToast(message, type)]. *)
Definition showToast (message type : string) (s : State) : State :=
  set_toasts (toasts s ++ [(message, type)]) s.

(** The identifier of a pushed message:
    [crypto.randomUUID ? crypto.randomUUID() : Date.now().toString()]. *)
Definition freshId (s : State) : string * State :=
  match randomUUID with
  | Some uuid => (uuid (drawn s), set_drawn (S (drawn s)) s)
  | None => (pretty (clock s), s)
  end.

(** The [onMessage(data)] callback that [connectWebSocket(conversationId)]
    registers. *)
Definition onMessage (conversationId : option string) (data : option Payload.t)
  (s : State) : State :=
  match data with
  | None => s
  | Some d =>
      if negb (Js.truthy_opt (Payload.content d)) then s
      else
        let '(id, s1) := freshId s in
        let msg :=
          Message.mk id conversationId (Payload.sender_id d)
            (Js.text (Payload.content d))
            (Some (Js.or_else (Payload.created_at d) (toISOString (clock s1)))) in
        renderMessages (set_messages (messages s1 ++ [msg]) s1)
  end.

(** [connectWebSocket(conversationId)]. *)
Definition connectWebSocket (conversationId : option string) (s : State) : State :=
  let s1 :=
    match wsConnection s with
    | Some handle => onSocket Api.close handle s
    | None => s
    end in
  let s2 := updateConnectionStatus reconnecting s1 in
  set_wsConnection (Some (length (sockets s2)))
    (set_sockets (sockets s2 ++ [Api.newSocket conversationId]) s2).

(** The [catch (err)] block of [openConversation]. *)
Definition openFailed (message : string) (s : State) : State :=
  showInMessagesArea (LoadFailed message)
    (showToast ("Failed to open conversation: " +:+ message) "error" s).

(** [openConversation(friendId, friendDisplayName)] up to its first
    [await]; the call is suspended as the last element of [tasks].  The
    highlight in the sidebar and the header of the chat, which only show
    the arguments, are left out. *)
Definition openConversation (friendId friendDisplayName : string) (s : State) : State :=
  let s1 := set_activeFriendId (Some friendId) s in
  let s2 :=
    match wsConnection s1 with
    | Some handle => set_wsConnection None (onSocket Api.close handle s1)
    | None => s1
    end in
  let s3 := renderMessages (set_messages [] s2) in
  let s4 := showInMessagesArea Spinner s3 in
  set_tasks (tasks s4 ++ [AwaitStart friendId])
    (set_requests (requests s4 ++ [PostConversations friendId]) s4).

(** The call [task] resumes with the value of
    [await GigaAPI.Conversations.start(friendId)]; [None] is a [null]
    body, on which reading [conversation_id] throws. *)
Definition afterStart (task : nat) (convData : option StartResponse) (s : State) : State :=
  match convData with
  | None => set_tasks (<[task := Returned]> (tasks s)) (openFailed typeErrorMessage s)
  | Some r =>
      let s1 := set_activeConversationId (start_conversation_id r) s in
      match activeConversationId s1 with
      | Some cid =>
          if Js.truthy cid
          then set_tasks (<[task := AwaitHistory cid]> (tasks s1))
                 (set_requests (requests s1 ++ [GetMessages cid]) s1)
          else set_tasks (<[task := Returned]> (tasks s1))
                 (openFailed "Server did not return a conversation_id" s1)
      | None =>
          set_tasks (<[task := Returned]> (tasks s1))
            (openFailed "Server did not return a conversation_id" s1)
      end
  end.

(** The call [task] resumes with the value of
    [await GigaAPI.Conversations.messages(activeConversationId)]. *)
Definition afterHistory (task : nat) (historyData : option HistoryResponse) (s : State)
  : State :=
  match historyData with
  | None => set_tasks (<[task := Returned]> (tasks s)) (openFailed typeErrorMessage s)
  | Some h =>
      let s1 := set_messages (default [] (history_messages h)) s in
      let s2 := renderMessages s1 in
      set_tasks (<[task := Returned]> (tasks s2))
        (connectWebSocket (activeConversationId s2) s2)
  end.

(** An awaited request of the call [task] is rejected with [message]. *)
Definition afterRejection (task : nat) (message : string) (s : State) : State :=
  set_tasks (<[task := Returned]> (tasks s)) (openFailed message s).

(** [sendMessage()].  The character counter, the height and the focus of
    the composer, which follow from its text, are left out. *)
Definition sendMessage (s : State) : State :=
  match composerTextarea s, wsConnection s with
  | Some value, Some handle =>
      let content := Js.trim value in
      if negb (Js.truthy content) || (MAX_MESSAGE_LENGTH <? String.length content)%nat
      then s
      else set_composerTextarea (Some "") (onSocket (Api.send content) handle s)
  | _, _ => s
  end.

End Page.
End Chat.

(* ------------------------------------------------------------------ *)
(** ** The event loop *)

(** What the page reacts to, one callback at a time: a click on a friend,
    the settling of a request a suspended [openConversation] awaits, an
    event of a socket, typing, submitting, and the passing of time. *)
Inductive Event :=
| Click (friendId friendDisplayName : string)
| StartResolves (task : nat) (convData : option Chat.StartResponse)
| StartRejects (task : nat) (message : string)
| HistoryResolves (task : nat) (historyData : option Chat.HistoryResponse)
| HistoryRejects (task : nat) (message : string)
| SocketOpen (handle : nat)
| SocketMessage (handle : nat) (eventData : string)
| SocketClose (handle : nat)
| SocketError (handle : nat)
| Input (value : string)
| Submit
| Tick (t : Z).

Section Loop.
Context `{Browser}.

(** The listeners [ChatSocket.connect] adds to a socket, with the
    callbacks of [connectWebSocket]; the browser dispatches [open] to a
    connecting socket, [message] to an open one, [close] and [error] to
    one that is not closed yet. *)
Definition socketEvent (handle : nat) (e : Event) (s : Chat.State) : Chat.State :=
  match Chat.sockets s !! handle with
  | None => s
  | Some k =>
      match e, Api.readyState k with
      | SocketOpen _, Api.CONNECTING =>
          Chat.updateConnectionStatus Chat.connected
            (Chat.onSocket (Api.setReadyState Api.OPEN) handle s)
      | SocketMessage _ eventData, Api.OPEN =>
          Chat.onMessage (Api.conversationId k) (Api.delivered eventData) s
      | SocketClose _, (Api.CONNECTING | Api.OPEN | Api.CLOSING) =>
          Chat.updateConnectionStatus Chat.disconnected
            (Chat.onSocket (Api.setReadyState Api.CLOSED) handle s)
      | SocketError _, (Api.CONNECTING | Api.OPEN | Api.CLOSING) =>
          Chat.updateConnectionStatus Chat.disconnected s
      | _, _ => s
      end
  end.

(** One turn of the event loop.  An event that cannot occur in [s] (a
    settlement nobody awaits, an event of a socket that does not exist)
    leaves [s] as it is. *)
Definition step (s : Chat.State) (e : Event) : Chat.State :=
  match e with
  | Click friendId friendDisplayName => Chat.openConversation friendId friendDisplayName s
  | StartResolves task convData =>
      match Chat.tasks s !! task with
      | Some (Chat.AwaitStart _) => Chat.afterStart task convData s
      | _ => s
      end
  | HistoryResolves task historyData =>
      match Chat.tasks s !! task with
      | Some (Chat.AwaitHistory _) => Chat.afterHistory task historyData s
      | _ => s
      end
  | StartRejects task message =>
      match Chat.tasks s !! task with
      | Some (Chat.AwaitStart _) => Chat.afterRejection task message s
      | _ => s
      end
  | HistoryRejects task message =>
      match Chat.tasks s !! task with
      | Some (Chat.AwaitHistory _) => Chat.afterRejection task message s
      | _ => s
      end
  | SocketOpen handle | SocketMessage handle _ | SocketClose handle | SocketError handle =>
      socketEvent handle e s
  | Input value =>
      match Chat.composerTextarea s with
      | Some _ => Chat.set_composerTextarea (Some value) s
      | None => s
      end
  | Submit => Chat.sendMessage s
  | Tick t => Chat.set_clock t s
  end.

Definition run (s : Chat.State) (events : list Event) : Chat.State :=
  fold_left step events s.

End Loop.

(** The page once [init] has run, before any friend is selected. *)
Definition loaded (user : User) (friends : list FriendInfo.t) (now : Z) : Chat.State :=
  Chat.mkState user friends None None None [] (Some "")
    (Some (Chat.mkStatusEl None false None)) (Some Blank) [] now 0 [] [] [].

(* ------------------------------------------------------------------ *)
(** ** A browser for the examples *)

(** [RefBrowser] runs in the UTC time zone, reads the ISO format
    [YYYY-MM-DDTHH:MM:SS[.sss]Z] and takes every other text for an invalid
    date; its JSON parser covers the frames of the protocol: [null], and
    objects whose members are strings without escapes or [null]. *)
Module Ref.

Definition digit (c : ascii) : option Z :=
  let n := nat_of_ascii c in
  if ((48 <=? n) && (n <=? 57))%nat then Some (Z.of_nat (n - 48)) else None.

Fixpoint number (acc : Z) (s : string) : option Z :=
  match s with
  | EmptyString => Some acc
  | String c r => d ← digit c; number (10 * acc + d)%Z r
  end.

Definition field (start len : nat) (s : string) : option Z :=
  number 0 (substring start len s).

Definition at_ (pos : nat) (c : ascii) (s : string) : bool :=
  bool_decide (String.get pos s = Some c).

(** Days from 1970-01-01 to the given day of the proleptic Gregorian
    calendar. *)
Definition daysFromCivil (y m d : Z) : Z :=
  let y' := if (m <=? 2)%Z then (y - 1)%Z else y in
  let era := (y' / 400)%Z in
  let yoe := (y' - era * 400)%Z in
  let mp := if (2 <? m)%Z then (m - 3)%Z else (m + 9)%Z in
  let doy := ((153 * mp + 2) / 5 + d - 1)%Z in
  let doe := (yoe * 365 + yoe / 4 - yoe / 100 + doy)%Z in
  (era * 146097 + doe - 719468)%Z.

Definition isoTime (s : string) : option Z :=
  let n := String.length s in
  if ((n =? 20) || (n =? 24))%nat
     && at_ 4 "-" s && at_ 7 "-" s && at_ 10 "T" s && at_ 13 ":" s && at_ 16 ":" s
     && at_ (n - 1) "Z" s && ((n =? 20)%nat || at_ 19 "." s)
  then
    y ← field 0 4 s; m ← field 5 2 s; d ← field 8 2 s;
    h ← field 11 2 s; mi ← field 14 2 s; sec ← field 17 2 s;
    ms ← (if (n =? 24)%nat then field 20 3 s else Some 0%Z);
    if ((1 <=? m) && (m <=? 12) && (1 <=? d) && (d <=? 31)
        && (h <=? 23) && (mi <=? 59) && (sec <=? 59))%Z
    then Some ((((daysFromCivil y m d * 24 + h) * 60 + mi) * 60 + sec) * 1000 + ms)%Z
    else None
  else None.

Definition utcDay (t : Z) : Z := (t / 86400000)%Z.

(** Decimal text of [n], padded with zeros to [width] characters. *)
Definition padded (width : nat) (n : Z) : string :=
  let text := pretty n in
  String.concat "" (repeat "0" (width - String.length text)) +:+ text.

Definition clockText (t : Z) : string :=
  padded 2 ((t / 3600000) mod 24)%Z +:+ ":" +:+ padded 2 ((t / 60000) mod 60)%Z.

(** The day of the calendar [days] days after 1970-01-01. *)
Definition civilFromDays (days : Z) : Z * Z * Z :=
  let z := (days + 719468)%Z in
  let era := (z / 146097)%Z in
  let doe := (z - era * 146097)%Z in
  let yoe := ((doe - doe / 1460 + doe / 36524 - doe / 146096) / 365)%Z in
  let doy := (doe - (365 * yoe + yoe / 4 - yoe / 100))%Z in
  let mp := ((5 * doy + 2) / 153)%Z in
  let d := (doy - (153 * mp + 2) / 5 + 1)%Z in
  let m := if (mp <? 10)%Z then (mp + 3)%Z else (mp - 9)%Z in
  let y := (yoe + era * 400 + (if (m <=? 2)%Z then 1 else 0))%Z in
  (y, m, d).

Definition dayText (t : Z) : string :=
  let '(y, m, d) := civilFromDays (utcDay t) in
  padded 4 y +:+ "-" +:+ padded 2 m +:+ "-" +:+ padded 2 d.

Definition isoText (t : Z) : string :=
  dayText t +:+ "T" +:+ clockText t +:+ ":" +:+ padded 2 ((t / 1000) mod 60)%Z
  +:+ "." +:+ padded 3 (t mod 1000)%Z +:+ "Z".

Definition quote : ascii := ascii_of_nat 34.
Definition backslash : ascii := ascii_of_nat 92.

Definition isJsonSpace (c : ascii) : bool :=
  let n := nat_of_ascii c in
  ((n =? 32) || (n =? 9) || (n =? 10) || (n =? 13))%nat.

Fixpoint skipSpace (s : string) : string :=
  match s with
  | EmptyString => EmptyString
  | String c r => if isJsonSpace c then skipSpace r else s
  end.

(** The characters of a string literal after its opening quote, and the
    text after its closing quote. *)
Fixpoint stringBody (s : string) : option (string * string) :=
  match s with
  | EmptyString => None
  | String c r =>
      if Ascii.eqb c quote then Some (EmptyString, r)
      else if Ascii.eqb c backslash || (nat_of_ascii c <? 32)%nat then None
      else '(body, rest) ← stringBody r; Some (String c body, rest)
  end.

(** A member value: a string literal or [null]. *)
Definition memberValue (s : string) : option (option string * string) :=
  match s with
  | String c r =>
      if Ascii.eqb c quote then '(body, rest) ← stringBody r; Some (Some body, rest)
      else if String.prefix "null" s then Some (None, substring 4 (String.length s - 4) s)
      else None
  | EmptyString => None
  end.

(** The members of an object after its opening brace, up to and including
    its closing brace. *)
Fixpoint members (fuel : nat) (s : string) (acc : list (string * option string))
  : option (list (string * option string) * string) :=
  match fuel with
  | O => None
  | S fuel' =>
      match skipSpace s with
      | String q r =>
          if Ascii.eqb q quote then
            '(key, r1) ← stringBody r;
            match skipSpace r1 with
            | String colon r2 =>
                if Ascii.eqb colon ":" then
                  '(v, r3) ← memberValue (skipSpace r2);
                  match skipSpace r3 with
                  | String c r4 =>
                      if Ascii.eqb c "," then members fuel' r4 (acc ++ [(key, v)])%list
                      else if Ascii.eqb c "}" then Some ((acc ++ [(key, v)])%list, r4)
                      else None
                  | EmptyString => None
                  end
                else None
            | EmptyString => None
            end
          else None
      | EmptyString => None
      end
  end.

(** The property [key] of the parsed object: the last member of that
    name, [None] when it is absent or [null]. *)
Definition property (key : string) (obj : list (string * option string)) : option string :=
  fold_left (λ found kv, if bool_decide (kv.1 = key) then kv.2 else found) obj None.

Definition payloadOf (obj : list (string * option string)) : Payload.t :=
  Payload.mk (property "sender_id" obj) (property "content" obj) (property "created_at" obj).

Definition parseFrame (text : string) : Parsed :=
  match skipSpace text with
  | String c r =>
      if Ascii.eqb c "{" then
        match skipSpace r with
        | String c' r' =>
            if Ascii.eqb c' "}" then
              if bool_decide (skipSpace r' = "") then Value (Some (payloadOf [])) else Throws
            else
              match members (String.length r) r [] with
              | Some (obj, rest) =>
                  if bool_decide (skipSpace rest = "") then Value (Some (payloadOf obj))
                  else Throws
              | None => Throws
              end
        | EmptyString => Throws
        end
      else if String.prefix "null" (String c r)
              && bool_decide (skipSpace (substring 4 (String.length r - 3) (String c r)) = "")
      then Value None
      else Throws
  | EmptyString => Throws
  end.

Definition uuid (n : nat) : string := "local-" +:+ pretty n.

End Ref.

#[global] Instance RefBrowser : Browser := {|
  Date_parse := Ref.isoTime;
  local_day := Ref.utcDay;
  toLocaleTimeString := Ref.clockText;
  toLocaleDateString := Ref.dayText;
  toISOString := Ref.isoText;
  JSON_parse := Ref.parseFrame;
  randomUUID := Some Ref.uuid;
  typeErrorMessage := "Cannot read properties of null"
|}.

(* ------------------------------------------------------------------ *)
(** ** Notions the properties are stated with *)

Section Notions.
Context `{Browser}.

(** Whether [onMessage] gets past its guard [!data || !data.content]. *)
Definition hasContent (data : option Payload.t) : bool :=
  match data with
  | Some d => Js.truthy_opt (Payload.content d)
  | None => false
  end.

(** The payloads with content among those the listener delivers for the
    given frames, in the order of the frames. *)
Definition accepted (frames : list string) : list Payload.t :=
  omap (λ eventData,
          match Api.delivered eventData with
          | Some d => if Js.truthy_opt (Payload.content d) then Some d else None
          | None => None
          end) frames.

(** The identifier [freshId] yields after [i] more identifiers have been
    drawn in [s]. *)
Definition localId (s : Chat.State) (i : nat) : string :=
  match randomUUID with
  | Some uuid => uuid (Chat.drawn s + i)
  | None => pretty (Chat.clock s)
  end.

(** The message appended for the [i]-th accepted payload received in
    [s] on a channel that was opened for [conversationId]. *)
Definition pushed (conversationId : option string) (s : Chat.State) (i : nat)
  (d : Payload.t) : Message.t :=
  Message.mk (localId s i) conversationId (Payload.sender_id d)
    (Js.text (Payload.content d))
    (Some (Js.or_else (Payload.created_at d) (toISOString (Chat.clock s)))).

(** The time value of a message, when its [created_at] is present and
    parses as a date. *)
Definition timeOf (msg : Message.t) : option Z :=
  if Js.truthy_opt (Message.created_at msg)
  then Date_parse (Js.text (Message.created_at msg))
  else None.

(** The local calendar day of a message. *)
Definition dayOf (msg : Message.t) : option Z := local_day <$> timeOf msg.

Definition dated (messages : list Message.t) : Prop :=
  Forall (λ msg, is_Some (timeOf msg)) messages.

Definition days (messages : list Message.t) : list Z := omap dayOf messages.

(** Number of distinct local calendar days among the messages. *)
Definition distinctDays (messages : list Message.t) : nat :=
  length (remove_dups (days messages)).

(** Whether [renderMessages] puts a date separator in front of the
    message at [index]. *)
Definition separatorBefore (currentUser : User) (friends : list FriendInfo.t) (now : Z)
  (messages : list Message.t) (index : nat) : bool :=
  match messages !! index with
  | Some msg => existsb isSeparator (renderRow currentUser friends now messages index msg)
  | None => false
  end.

(** The test [index === 0 || isDifferentDay(messages[index - 1].created_at,
    msg.created_at)] of [renderMessages], [prev] being the message in
    front of [msg], if there is one. *)
Definition startsDay (prev : option Message.t) (msg : Message.t) : bool :=
  match prev with
  | None => true
  | Some p => isDifferentDay (Message.created_at p) (Message.created_at msg)
  end.

(** Number of messages of the sequence that pass the test, the first
    one having [prev] in front of it. *)
Fixpoint separatorsFrom (prev : option Message.t) (messages : list Message.t) : nat :=
  match messages with
  | [] => 0
  | msg :: rest => (if startsDay prev msg then 1 else 0) + separatorsFrom (Some msg) rest
  end.

(** The text of the error [openConversation] catches when the response
    of the lookup has no usable identifier. *)
Definition lookupError (convData : option Chat.StartResponse) : string :=
  match convData with
  | None => typeErrorMessage
  | Some _ => "Server did not return a conversation_id"
  end.

End Notions.

(** The days never decrease along the sequence. *)
Fixpoint nondecreasing (ds : list Z) : bool :=
  match ds with
  | d :: (d' :: _) as rest => (d <=? d')%Z && nondecreasing rest
  | _ => true
  end.

(** Number of days of the sequence that differ from the day in front of
    them, the first one having [prev] in front of it. *)
Fixpoint runsFrom (prev : option Z) (ds : list Z) : nat :=
  match ds with
  | [] => 0
  | d :: rest => (if bool_decide (prev = Some d) then 0 else 1) + runsFrom (Some d) rest
  end.

(** Number of maximal runs of equal consecutive days. *)
Definition runs (ds : list Z) : nat := runsFrom None ds.

(** Switching to friend B while the call for friend A is suspended. *)
Module Switch.

(** What happens after the click on A: its two requests settle, B is
    clicked and B's two requests settle. *)
Inductive Step := startA | historyA | clickB | startB | historyB.

#[global] Instance Step_eq_dec : EqDecision Step.
Proof. solve_decision. Defined.

(** [l] interleaves [l1] and [l2], keeping the order of each. *)
Inductive Interleaved {A : Type} : list A → list A → list A → Prop :=
| interleaved_nil : Interleaved [] [] []
| interleaved_left x l1 l2 l : Interleaved l1 l2 l → Interleaved (x :: l1) l2 (x :: l)
| interleaved_right x l1 l2 l : Interleaved l1 l2 l → Interleaved l1 (x :: l2) (x :: l).

Fixpoint position (x : Step) (l : list Step) : option nat :=
  match l with
  | [] => None
  | y :: rest => if bool_decide (x = y) then Some 0 else S <$> position x rest
  end.

(** [x] occurs in [l], and [y] occurs later. *)
Definition before (x y : Step) (l : list Step) : bool :=
  match position x l, position y l with
  | Some i, Some j => (i <? j)%nat
  | _, _ => false
  end.

(** The orders in which the page can see the steps when B is clicked
    while a request of the call for A is pending. *)
Definition pendingSwitch (schedule : list Step) : Prop :=
  Interleaved [startA; historyA] [clickB; startB; historyB] schedule
  ∧ before clickB historyA schedule = true.

Section Scenario.
Variables (friendA nameA friendB nameB convA convB : string).
Variables (histA histB : list Message.t).

(** The call for A is suspended as call number [first] of the page, the
    call for B as the next one; every request succeeds. *)
Definition event (first : nat) (x : Step) : Event :=
  match x with
  | startA => StartResolves first (Some (Chat.Build_StartResponse (Some convA)))
  | historyA => HistoryResolves first (Some (Chat.Build_HistoryResponse (Some histA)))
  | clickB => Click friendB nameB
  | startB => StartResolves (S first) (Some (Chat.Build_StartResponse (Some convB)))
  | historyB => HistoryResolves (S first) (Some (Chat.Build_HistoryResponse (Some histB)))
  end.

(** The page after A is clicked in the state [s] and the steps of
    [schedule] have taken place. *)
Definition outcome `{Browser} (s : Chat.State) (schedule : list Step) : Chat.State :=
  run (step s (Click friendA nameA)) (event (length (Chat.tasks s)) <$> schedule).

End Scenario.

(** What a state holds of the session: the selected friend, the
    conversation identifier, the messages and the suspended calls. *)
Definition holds (s : Chat.State) (friend conversation : option string)
  (messages : list Message.t) (tasks : list Chat.Task) : Prop :=
  Chat.activeFriendId s = friend
  ∧ Chat.activeConversationId s = conversation
  ∧ Chat.messages s = messages
  ∧ Chat.tasks s = tasks.

End Switch.

(* ------------------------------------------------------------------ *)
(** ** Tables for the examples *)

(** [RefUnicode] knows the letters of Basic Latin, of Latin-1 and of
    the Greek alphabet (U+0391..U+03A9 and U+03B1..U+03C9), and as
    case-ignorable characters those of these ranges and the combining
    marks U+0300..U+036F; every other code point is taken as uncased,
    with itself as lowercase mapping. *)
Module RefTables.

Definition within (lo hi c : N) : bool := ((lo <=? c) && (c <=? hi))%N.

Definition capital (c : N) : bool :=
  within 0x41 0x5A c
  || (within 0xC0 0xDE c && negb (c =? 0xD7)%N)
  || (within 0x391 0x3A9 c && negb (c =? 0x3A2)%N).

Definition lowercase (c : N) : N := if capital c then (c + 0x20)%N else c.

Definition cased (c : N) : bool :=
  capital c
  || within 0x61 0x7A c
  || (c =? 0xAA)%N || (c =? 0xB5)%N || (c =? 0xBA)%N
  || (within 0xDF 0xFF c && negb (c =? 0xF7)%N)
  || within 0x3B1 0x3C9 c.

Definition caseIgnorable (c : N) : bool :=
  (c =? 0x27)%N || (c =? 0x2E)%N || (c =? 0x3A)%N || (c =? 0x5E)%N || (c =? 0x60)%N
  || (c =? 0xA8)%N || (c =? 0xAD)%N || (c =? 0xAF)%N || (c =? 0xB4)%N
  || (c =? 0xB7)%N || (c =? 0xB8)%N
  || within 0x300 0x36F c.

End RefTables.

#[global] Instance RefUnicode : Unicode := {|
  Lowercase_Mapping := RefTables.lowercase;
  Cased := RefTables.cased;
  Case_Ignorable := RefTables.caseIgnorable
|}.

(* ------------------------------------------------------------------ *)
(** ** Example data *)

Module Example.

Definition me : User := {| user_id := "u-me"; user_name := "me" |}.

Definition alice : FriendInfo.t := FriendInfo.mk "f-alice" (Some "alice") (Some "Alice Liddell").
Definition bob : FriendInfo.t := FriendInfo.mk "f-bob" (Some "bob") None.

Definition noon : Z := 1704110400000.

(** The names of a friend of the page as the search reads them. *)
Definition names (f : FriendInfo.t) : FriendNames.t :=
  FriendNames.mk (Utf16.ofString <$> FriendInfo.username f)
    (Utf16.ofString <$> FriendInfo.display_name f).

(** A friend named [U+039F U+0394 U+039F U+03A3], the Greek word for
    street in capitals, which ends with a capital sigma. *)
Definition odos : FriendNames.t :=
  FriendNames.mk (Some [0x39F; 0x394; 0x39F; 0x3A3]%N) None.

Definition page : Chat.State := loaded me [alice; bob] noon.

Definition hi : Message.t :=
  Message.mk "m1" (Some "conv-alice") (Some "f-alice") "hi" (Some "2024-01-01T10:00:00Z").

Definition later : Message.t :=
  Message.mk "m2" (Some "conv-alice") (Some "u-me") "later" (Some "2024-01-02T09:00:00Z").

Definition again : Message.t :=
  Message.mk "m3" (Some "conv-alice") (Some "f-alice") "again" (Some "2024-01-01T23:30:00Z").

Definition undated : Message.t :=
  Message.mk "m4" (Some "conv-alice") (Some "f-alice") "when?" (Some "not-a-date").

Definition hello : Message.t :=
  Message.mk "m5" (Some "conv-bob") (Some "f-bob") "hello" (Some "2024-01-01T08:00:00Z").

Definition startOk (conversationId : string) : option Chat.StartResponse :=
  Some (Chat.Build_StartResponse (Some conversationId)).

Definition historyOk (messages : list Message.t) : option Chat.HistoryResponse :=
  Some (Chat.Build_HistoryResponse (Some messages)).

(** The conversation with alice opened and its channel connected. *)
Definition chatting : Chat.State :=
  run page [Click "f-alice" "Alice Liddell"; StartResolves 0 (startOk "conv-alice");
            HistoryResolves 0 (historyOk [hi]); SocketOpen 0].

(** A text of [n] letters. *)
Definition letters (n : nat) : string := String.concat "" (repeat "a" n).

End Example.

(* ------------------------------------------------------------------ *)
(** ** Invariants of the page *)

(** A socket that is connecting or open. *)
Definition live (k : Api.Socket) : bool :=
  match Api.readyState k with
  | Api.CONNECTING | Api.OPEN => true
  | Api.CLOSING | Api.CLOSED => false
  end.

(** [wsConnection] refers to a socket of the page, and no other socket
    is connecting or open. *)
Definition oneChannel (s : Chat.State) : Prop :=
  (∀ handle, Chat.wsConnection s = Some handle → (handle < length (Chat.sockets s))%nat)
  ∧ ∀ handle k,
      Chat.sockets s !! handle = Some k → live k = true → Chat.wsConnection s = Some handle.

(** A content the composer lets through. *)
Definition sendable (content : string) : Prop :=
  content ≠ ""
  ∧ (String.length content ≤ Chat.MAX_MESSAGE_LENGTH)%nat
  ∧ Js.trim content = content.

(** Every content transmitted on a socket of the page is sendable. *)
Definition framesSendable (s : Chat.State) : Prop :=
  ∀ handle k, Chat.sockets s !! handle = Some k → Forall sendable (Api.sent k).

(** The events that reset or replace the messages. *)
Definition opensConversation (e : Event) : bool :=
  match e with
  | Click _ _ | HistoryResolves _ _ => true
  | _ => false
  end.

Definition isSocketMessage (e : Event) : bool :=
  match e with
  | SocketMessage _ _ => true
  | _ => false
  end.

(** The connection notice is hidden: the element is there and its
    [style.display] is ["none"]. *)
Definition noticeHidden (s : Chat.State) : Prop :=
  ∃ el, Chat.connectionStatus s = Some el ∧ Chat.display_none el = true.

(** The messages of a rendering: side and content of each message row,
    in the order of the markup. *)
Definition messageRows (html : list Item) : list (Side * string) :=
  omap (λ i, match i with
             | MessageRow side _ _ content => Some (side, content)
             | DateSeparator _ => None
             end) html.

(** The markup is a sequence of message rows, each with at most one date
    separator in front of it. *)
Fixpoint grouped (html : list Item) : bool :=
  match html with
  | [] => true
  | MessageRow _ _ _ _ :: rest => grouped rest
  | DateSeparator _ :: rest =>
      match rest with
      | MessageRow _ _ _ _ :: rest' => grouped rest'
      | _ => false
      end
  end.

(** The sender names of a rendering. *)
Definition senderNames (html : list Item) : list string :=
  omap (λ i, match i with
             | MessageRow _ senderName _ _ => Some senderName
             | DateSeparator _ => None
             end) html.

(* ------------------------------------------------------------------ *)
(** ** More of the string built-ins *)

Module Str.

(** [s.startsWith(p)]. *)
Definition startsWith (s p : string) : bool := String.prefix p s.

(** [s.endsWith(p)]: [p] is [s] or the end of what follows its first
    character. *)
Fixpoint endsWith (s p : string) : bool :=
  bool_decide (s = p)
  || match s with
     | EmptyString => false
     | String _ r => endsWith r p
     end.

(** [s.indexOf(c)] for a one-character [c], [None] standing for [-1]. *)
Fixpoint indexOf (c : ascii) (s : string) : option nat :=
  match s with
  | EmptyString => None
  | String c' r => if Ascii.eqb c' c then Some 0%nat else S <$> indexOf c r
  end.

(** [s.slice(from)]. *)
Definition sliceFrom (from : nat) (s : string) : string :=
  substring from (String.length s - from) s.

(** [s.slice(0, to)]. *)
Definition sliceTo (to : nat) (s : string) : string := substring 0 to s.

(** [s.slice(1, -1)]. *)
Definition sliceInner (s : string) : string := substring 1 (String.length s - 2) s.

Definition newline : ascii := ascii_of_nat 10.

(** [s.split("\n")]. *)
Fixpoint splitLines (s : string) : list string :=
  match s with
  | EmptyString => [EmptyString]
  | String c r =>
      if Ascii.eqb c newline then EmptyString :: splitLines r
      else match splitLines r with
           | line :: lines => String c line :: lines
           | [] => [String c EmptyString]
           end
  end.

(** [s.replace(/\/+$/, "")]: the slashes at the end of [s] are removed. *)
Fixpoint stripTrailingSlashes (s : string) : string :=
  match s with
  | EmptyString => EmptyString
  | String c r =>
      match stripTrailingSlashes r with
      | EmptyString => if Ascii.eqb c "/" then EmptyString else String c EmptyString
      | r' => String c r'
      end
  end.

(** A text made of [n] slashes. *)
Fixpoint slashes (n : nat) : string :=
  match n with
  | O => EmptyString
  | S n' => String "/" (slashes n')
  end.

End Str.

(** No white space at either end. *)
Definition bare (s : string) : Prop := Js.trimStart s = s ∧ Js.trimEnd s = s.

(* ------------------------------------------------------------------ *)
(** ** The API client: configuration and requests *)

Module Client.

Definition doubleQuote : string := String (ascii_of_nat 34) EmptyString.
Definition singleQuote : string := "'".

(** The body of the loop of [loadEnv] for one line: the key and the
    value it assigns, if any. *)
Definition assignment (line : string) : option (string * string) :=
  let trimmed := Js.trim line in
  if negb (Js.truthy trimmed) || Str.startsWith trimmed "#" then None
  else
    match Str.indexOf "=" trimmed with
    | None => None
    | Some idx =>
        let key := Js.trim (Str.sliceTo idx trimmed) in
        let value := Js.trim (Str.sliceFrom (idx + 1) trimmed) in
        let value :=
          if (Str.startsWith value doubleQuote && Str.endsWith value doubleQuote)
             || (Str.startsWith value singleQuote && Str.endsWith value singleQuote)
          then Str.sliceInner value
          else value in
        Some (key, value)
    end.

(** [env[key] = value] on the object literal [{}]: an assignment to
    ["__proto__"] of a string goes to the setter of the prototype, which
    ignores it; any other key becomes a property. *)
Definition assign (env : gmap string string) (key value : string) : gmap string string :=
  if bool_decide (key = "__proto__") then env else <[key := value]> env.

(** One turn of the loop of [loadEnv]. *)
Definition readLine (env : gmap string string) (line : string) : gmap string string :=
  match assignment line with
  | Some (key, value) => assign env key value
  | None => env
  end.

(** The object [env] after the loop over the lines of [text]. *)
Definition parseEnv (text : string) : gmap string string :=
  fold_left readLine (Str.splitLines text) ∅.

(** What [fetch("/.env")] and [res.text()] give: a rejection, or a
    response with its [ok] flag and its text. *)
Inductive EnvFetch :=
| EnvUnreachable
| EnvResponse (ok : bool) (text : string).

(** [loadEnv()]. *)
Definition loadEnv (fetched : EnvFetch) : gmap string string :=
  match fetched with
  | EnvResponse true text => parseEnv text
  | EnvResponse false _ => ∅
  | EnvUnreachable => ∅
  end.

(** [initAPI()]: the value of [API_BASE] afterwards. *)
Definition initAPI (API_BASE : string) (fetched : EnvFetch) : string :=
  match loadEnv fetched !! "BACKEND_URL" with
  | Some url => if Js.truthy url then Str.stripTrailingSlashes url else API_BASE
  | None => API_BASE
  end.

(** A JSON body as [request] and its callers read it: the [error]
    property and the rest. *)
Record JsonBody (A : Type) := mkJsonBody {
  error : option string;
  payload : A
}.
Arguments mkJsonBody {A} _ _.
Arguments error {A} _.
Arguments payload {A} _.

(** The response [fetch] resolves with: [json] is what [res.json()]
    resolves with, [None] when it rejects or gives [null]. *)
Record Response (A : Type) := mkResponse {
  ok : bool;
  status : nat;
  contentType : option string;
  json : option (JsonBody A)
}.
Arguments mkResponse {A} _ _ _ _.
Arguments ok {A} _.
Arguments status {A} _.
Arguments contentType {A} _.
Arguments json {A} _.

Inductive Fetched (A : Type) :=
| NetworkError
| Responds (res : Response A).
Arguments NetworkError {A}.
Arguments Responds {A} _.

(** How a call of [request] ends: it returns [data], or throws an error
    with its [message], [status] and [data]. *)
Inductive Outcome (A : Type) :=
| Returns (data : option (JsonBody A))
| Throws (message : string) (status : option nat) (data : option (JsonBody A)).
Arguments Returns {A} _.
Arguments Throws {A} _ _ _.

(** [request(method, path, body)] once [fetch] has settled.  The dash of
    the first message is U+2013, written here in UTF-8. *)
Definition request {A : Type} (fetched : Fetched A) : Outcome A :=
  match fetched with
  | NetworkError => Throws "Network error – is the backend running?" None None
  | Responds res =>
      let contentType := Js.or_else (contentType res) "" in
      let data :=
        if Js.includes contentType "application/json" then json res else None in
      if negb (ok res)
      then Throws (Js.or_else (data ≫= error)
                     ("Request failed with status " +:+ pretty (status res)))
             (Some (status res)) data
      else Returns data
  end.

(** The event with which the call [task] of [openConversation] resumes
    when its lookup request ends with [outcome]. *)
Definition startSettles (task : nat) (outcome : Outcome Chat.StartResponse) : Event :=
  match outcome with
  | Returns data => StartResolves task (payload <$> data)
  | Throws message _ _ => StartRejects task message
  end.

(** The same for its history request. *)
Definition historySettles (task : nat) (outcome : Outcome Chat.HistoryResponse) : Event :=
  match outcome with
  | Returns data => HistoryResolves task (payload <$> data)
  | Throws message _ _ => HistoryRejects task message
  end.

End Client.

(* ------------------------------------------------------------------ *)
(** ** The configuration endpoint *)

Module Config.

Inductive Body :=
| ErrorBody (error : string)
| ConfigBody (BACKEND_URL : string).

Record Response := mkResponse {
  status : nat;
  headers : list (string * string);
  body : Body
}.

(** [handler(req, res)], given [req.method] and the value of the
    environment variable [BACKEND_URL], if it is set. *)
Definition handler (method : string) (BACKEND_URL : option string) : Response :=
  if negb (bool_decide (method = "GET"))
  then mkResponse 405 [("Allow", "GET")] (ErrorBody "Method not allowed")
  else
    mkResponse 200
      [("Cache-Control", "public, max-age=300, s-maxage=300, stale-while-revalidate=60");
       ("Content-Type", "application/json")]
      (ConfigBody (Str.stripTrailingSlashes (Js.or_else BACKEND_URL ""))).

End Config.

(** Only white space. *)
Fixpoint blank (s : string) : bool :=
  match s with
  | EmptyString => true
  | String c r => Js.isWhiteSpace c && blank r
  end.

(** A value that [loadEnv] takes as quoted. *)
Definition quoted (value : string) : bool :=
  (Str.startsWith value Client.doubleQuote && Str.endsWith value Client.doubleQuote)
  || (Str.startsWith value Client.singleQuote && Str.endsWith value Client.singleQuote).

(* ------------------------------------------------------------------ *)
(** ** Avatar colours *)

Definition AVATAR_COLORS : list string :=
  ["#2A8A8A"; "#6B2D5B"; "#1E6B8A"; "#2D3561"; "#4FA89B"; "#8A3D76"].

(** [ToInt32] of an integral number: its value modulo 2^32, read as a
    signed 32-bit integer. *)
Definition toInt32 (x : Z) : Z := ((x + 2 ^ 31) mod 2 ^ 32 - 2 ^ 31)%Z.

(** [x << n]: both operands are converted, the shifted bits are again
    read as a signed 32-bit integer. *)
Definition shiftLeft (x : Z) (n : Z) : Z := toInt32 (Z.shiftl (toInt32 x) (n mod 32)).

(** The body of the loop of [getAvatarColor]:
    [hash = str.charCodeAt(i) + ((hash << 5) - hash)].  Only the shift
    works on 32 bits; the subtraction and the sum are those of numbers,
    exact as long as they stay below 2^53. *)
Definition hashStep (hash : Z) (c : ascii) : Z :=
  (Z.of_nat (nat_of_ascii c) + (shiftLeft hash 5 - hash))%Z.

Fixpoint hashFrom (hash : Z) (str : string) : Z :=
  match str with
  | EmptyString => hash
  | String c r => hashFrom (hashStep hash c) r
  end.

(** [getAvatarColor(id)]; the result is [None] where the index is
    outside of the palette. *)
Definition getAvatarColor (id : option string) : option string :=
  if negb (Js.truthy_opt id) then AVATAR_COLORS !! 0%nat
  else
    let hash := hashFrom 0 (Js.text id) in
    AVATAR_COLORS !! Z.to_nat (Z.abs hash mod Z.of_nat (length AVATAR_COLORS)).

(** Numbers up to this bound are represented exactly. *)
Definition MAX_SAFE_INTEGER : Z := (2 ^ 53 - 1)%Z.

(* ------------------------------------------------------------------ *)
(** ** Character classes of the regular expressions *)

Module Re.

Definition between (lo hi : nat) (c : ascii) : bool :=
  let n := nat_of_ascii c in ((lo <=? n) && (n <=? hi))%nat.

(** [\d] and [0-9]. *)
Definition digit : ascii → bool := between 48 57.
(** [A-Z]. *)
Definition upper : ascii → bool := between 65 90.
(** [a-z]. *)
Definition lower : ascii → bool := between 97 122.
(** [A-Za-z0-9]. *)
Definition alnum (c : ascii) : bool := upper c || lower c || digit c.
(** [0-9a-f] under the flag [i]. *)
Definition hex (c : ascii) : bool := digit c || between 97 102 c || between 65 70 c.
(** [a-zA-Z0-9_.-]. *)
Definition nameChar (c : ascii) : bool :=
  alnum c || bool_decide (c = "_"%char) || bool_decide (c = "."%char)
  || bool_decide (c = "-"%char).

(** [/[class]/.test(s)]: some character of [s] is in the class. *)
Fixpoint some (class : ascii → bool) (s : string) : bool :=
  match s with
  | EmptyString => false
  | String c r => class c || some class r
  end.

(** [class{n}] at the start of [s]: what follows the match. *)
Fixpoint times (class : ascii → bool) (n : nat) (s : string) : option string :=
  match n with
  | O => Some s
  | S n' =>
      match s with
      | String c r => if class c then times class n' r else None
      | EmptyString => None
      end
  end.

(** A literal character at the start of [s]. *)
Definition literal (c : ascii) (s : string) : option string :=
  match s with
  | String c' r => if bool_decide (c' = c) then Some r else None
  | EmptyString => None
  end.

(** The parts of a pattern one after the other. *)
Definition sequence (parts : list (string → option string)) (s : string)
  : option string :=
  foldl (λ rest part, rest ≫= part) (Some s) parts.

(** [$]: nothing is left. *)
Definition atEnd (s : option string) : bool :=
  match s with
  | Some EmptyString => true
  | _ => false
  end.

(** Every character of [s] is in the class. *)
Fixpoint every (class : ascii → bool) (s : string) : bool :=
  match s with
  | EmptyString => true
  | String c r => class c && every class r
  end.

End Re.

(* ------------------------------------------------------------------ *)
(** ** Adding a friend *)

Module AddFriend.

(** [uuidRegex.test(s)] for
    [/^[0-9a-f]{8}-[0-9a-f]{4}-[0-9a-f]{4}-[0-9a-f]{4}-[0-9a-f]{12}$/i]. *)
Definition uuidRegex (s : string) : bool :=
  Re.atEnd
    (Re.sequence
       [Re.times Re.hex 8; Re.literal "-"; Re.times Re.hex 4; Re.literal "-";
        Re.times Re.hex 4; Re.literal "-"; Re.times Re.hex 4; Re.literal "-";
        Re.times Re.hex 12] s).

(** How [handleAddFriend] reaches its first [await], or returns before:
    without the input element it does nothing, a rejected input shows a
    message in the dialog, an accepted one is requested. *)
Inductive Submitted :=
| Nothing
| ModalMessage (text type : string)
| Add (friendId : string).

Definition handleAddFriend (input : option string) (user_id : string) : Submitted :=
  match input with
  | None => Nothing
  | Some value =>
      let friendId := Js.trim value in
      if negb (Js.truthy friendId)
      then ModalMessage "Please enter a User ID." "error"
      else if negb (uuidRegex friendId)
      then ModalMessage
             "Invalid User ID format. It should be a UUID like xxxxxxxx-xxxx-xxxx-xxxx-xxxxxxxxxxxx"
             "error"
      else if bool_decide (friendId = user_id)
      then ModalMessage "You cannot add yourself as a friend!" "error"
      else Add friendId
  end.

End AddFriend.

(** A string of [n] hexadecimal digits. *)
Definition hexadecimal (n : nat) (s : string) : Prop :=
  String.length s = n ∧ Re.every Re.hex s = true.

(** The textual form of a UUID: groups of 8, 4, 4, 4 and 12 hexadecimal
    digits, separated by hyphens. *)
Definition uuid (s : string) : Prop :=
  ∃ a b c d e,
    s = a +:+ "-" +:+ b +:+ "-" +:+ c +:+ "-" +:+ d +:+ "-" +:+ e
    ∧ hexadecimal 8 a ∧ hexadecimal 4 b ∧ hexadecimal 4 c ∧ hexadecimal 4 d
    ∧ hexadecimal 12 e.

(* ------------------------------------------------------------------ *)
(** ** Editing the profile *)

Module EditProfile.

(** The object [fields]: a property that was not assigned is [None]. *)
Record Fields := mkFields {
  display_name : option string;
  bio : option string;
  avatar_url : option string
}.

(** [Object.keys(fields).length]. *)
Definition keys (fields : Fields) : nat :=
  length (omap id [display_name fields; bio fields; avatar_url fields]).

Definition whenFilled (input : option string) : option string :=
  match input with
  | Some value => if Js.truthy (Js.trim value) then Some (Js.trim value) else None
  | None => None
  end.

Inductive Submitted :=
| Toast (message type : string)
| Update (fields : Fields).

(** [handleEditProfile] up to its [await]; an argument is the value of
    an input of the dialog, [None] when the element is missing. *)
Definition handleEditProfile (displayNameInput bioInput avatarInput : option string)
  : Submitted :=
  let fields :=
    mkFields (whenFilled displayNameInput) (Js.trim <$> bioInput) (whenFilled avatarInput) in
  if (keys fields =? 0)%nat then Toast "No changes to save." "info" else Update fields.

End EditProfile.

(* ------------------------------------------------------------------ *)
(** ** The sign-in page *)

Module Auth.

(** *** Password strength *)

Inductive Level := weak | medium | strong.

Definition point (b : bool) : nat := if b then 1 else 0.

(** The variable [score] of [updatePasswordStrength]. *)
Definition score (password : string) : nat :=
  point (6 <=? String.length password)%nat
  + point (10 <=? String.length password)%nat
  + point (Re.some Re.upper password && Re.some Re.lower password)
  + point (Re.some Re.digit password)
  + point (Re.some (λ c, negb (Re.alnum c)) password).

Definition level (score : nat) : Level :=
  if (score <=? 1)%nat then weak else if (score <=? 3)%nat then medium else strong.

Definition label (l : Level) : string :=
  match l with
  | weak => "Weak"
  | medium => "Fair"
  | strong => "Strong"
  end.

Definition fillCount (l : Level) : nat :=
  match l with
  | weak => 1
  | medium => 2
  | strong => 3
  end.

(** The strength meter: for each bar the level its class names, and the
    text of the label, [None] when there is no label element. *)
Record Meter := mkMeter {
  strengthBars : list (option Level);
  strengthLabel : option string
}.

(** The loop that fills the first bars. *)
Definition fill (l : Level) (bars : list (option Level)) : list (option Level) :=
  imap (λ i bar, if (i <? fillCount l)%nat then Some l else bar) bars.

Definition updatePasswordStrength (password : string) (m : Meter) : Meter :=
  let bars := (λ _, None) <$> strengthBars m in
  match strengthLabel m with
  | None => mkMeter bars None
  | Some _ =>
      if (String.length password =? 0)%nat then mkMeter bars (Some "")
      else
        let l := level (score password) in
        mkMeter (fill l bars) (Some (label l))
  end.

(** *** The forms *)

Inductive Field := Username | Password | Confirm.

(** How a submit handler reaches its request, or returns before with a
    message and the focus on a field. *)
Inductive Submitted (Request : Type) :=
| Rejected (message : string) (focus : Field)
| Requested (request : Request).
Arguments Rejected {Request} _ _.
Arguments Requested {Request} _.

Record Login := mkLogin {
  login_username : string;
  login_password : string
}.

(** The validation of the login form. *)
Definition login (loginUsername loginPassword : string) : Submitted Login :=
  let username := Js.trim loginUsername in
  let password := loginPassword in
  if negb (Js.truthy username) then Rejected "Please enter your username." Username
  else if negb (Js.truthy password) then Rejected "Please enter your password." Password
  else Requested (mkLogin username password).

Record Register := mkRegister {
  reg_username : string;
  reg_password : string;
  reg_display_name : option string
}.

(** The validation of the register form; [regDisplayName] is [None]
    when the form has no such input. *)
Definition register (regUsername : string) (regDisplayName : option string)
  (regPassword regConfirm : string) : Submitted Register :=
  let username := Js.trim regUsername in
  let displayName := Js.text (Js.trim <$> regDisplayName) in
  let password := regPassword in
  let confirm := regConfirm in
  if negb (Js.truthy username) then Rejected "Please choose a username." Username
  else if (String.length username <? 3)%nat
  then Rejected "Username must be at least 3 characters." Username
  else if Re.some (λ c, negb (Re.nameChar c)) username
  then Rejected
         "Username can only contain letters, numbers, dots, hyphens, and underscores."
         Username
  else if negb (Js.truthy password) then Rejected "Please choose a password." Password
  else if (String.length password <? 6)%nat
  then Rejected "Password must be at least 6 characters." Password
  else if negb (bool_decide (password = confirm))
  then Rejected "Passwords do not match." Confirm
  else Requested
         (mkRegister username password
            (if Js.truthy displayName then Some displayName else None)).

(** The message a failed login shows: [err.status] and [err.message] of
    the error [request] threw. *)
Definition loginError (status : option nat) (message : string) : string :=
  if bool_decide (status = Some 401%nat) then "Invalid username or password."
  else Js.or_else (Some message) "Login failed. Please try again.".

(** The same for a failed registration. *)
Definition registerError (message : string) : string :=
  Js.or_else (Some message) "Registration failed. Please try again.".

(** *** The submit buttons *)

Record Button := mkButton {
  disabled : bool;
  innerHTML : string;
  _originalText : option string
}.

(** The text of the spinner; its last character, U+2026, is written in
    UTF-8. *)
Definition pleaseWait : string :=
  "<span class=" +:+ Client.doubleQuote +:+ "spinner" +:+ Client.doubleQuote
  +:+ "></span> Please wait…".

(** [setLoading(btn, isLoading)] on a button that exists. *)
Definition setLoading (isLoading : bool) (btn : Button) : Button :=
  if isLoading
  then mkButton true pleaseWait (Some (innerHTML btn))
  else mkButton false
         (if Js.truthy_opt (_originalText btn) then Js.text (_originalText btn)
          else innerHTML btn)
         (_originalText btn).

End Auth.

(* ------------------------------------------------------------------ *)
(** ** Start of the chat page *)

Module Init.

(** The values an id takes where the source compares ids with [===]:
    a string, [null], or a property that is missing. *)
Inductive Id := Missing | Null | Text (s : string).

Definition strictEq (a b : Id) : bool :=
  match a, b with
  | Missing, Missing | Null, Null => true
  | Text s, Text t => bool_decide (s = t)
  | _, _ => false
  end.

(** The object [currentUser]. *)
Record CurrentUser := mkCurrentUser {
  user_id : Id;
  username : option string
}.

(** The bodies of the three requests of [init]. *)
Record MeData := { me_user_id : Id }.
Record Profile := mkProfile {
  profile_username : option string;
  profile_display_name : option string
}.
Record FriendsData := { data_friends : option (list FriendInfo.t) }.

(** What [init] leaves behind: the variables of the page, the requests
    it made, the value it wrote to the item [gigachat_user] of the local
    storage, the page it sent the browser to, the name in the workspace
    header and whether the event listeners are bound. *)
Record Page := mkPage {
  currentUser : option CurrentUser;
  currentProfile : option Profile;
  friends : list FriendInfo.t;
  requests : list (string * string);
  gigachat_user : option CurrentUser;
  location : option string;
  workspaceName : option string;
  bound : bool
}.

(** The name [updateWorkspaceHeader] shows. *)
Definition headerName (currentUser : CurrentUser) (currentProfile : option Profile)
  : string :=
  Js.or_else (currentProfile ≫= profile_display_name)
    (Js.or_else (username currentUser) "User").

(** The variable [friends] after [loadFriends]. *)
Definition loadFriends (outcome : Client.Outcome FriendsData) : list FriendInfo.t :=
  match outcome with
  | Client.Returns (Some body) => default [] (data_friends (Client.payload body))
  | Client.Returns None => []
  | Client.Throws _ _ _ => []
  end.

(** [init()], given the value [JSON.parse] made of the stored user
    ([None] when there is none, when it does not parse, or when it is
    [null]) and the outcomes of the requests; a request that is not
    reached is not made, its outcome is not looked at. *)
Definition init (stored : option CurrentUser)
  (me : Client.Outcome MeData) (profile : Client.Outcome Profile)
  (friendList : Client.Outcome FriendsData) : Page :=
  match me with
  | Client.Returns (Some body) =>
      let meData := Client.payload body in
      let verified :=
        match stored with
        | Some user =>
            if negb (strictEq (user_id user) (me_user_id meData))
            then mkCurrentUser (me_user_id meData) (Some "User")
            else user
        | None => mkCurrentUser (me_user_id meData) (Some "User")
        end in
      let '(user, currentProfile, saved) :=
        match profile with
        | Client.Returns (Some p) =>
            let user :=
              mkCurrentUser (user_id verified) (profile_username (Client.payload p)) in
            (user, Some (Client.payload p), Some user)
        | Client.Returns None => (verified, None, None)
        | Client.Throws _ _ _ => (verified, None, None)
        end in
      mkPage (Some user) currentProfile (loadFriends friendList)
        [("GET", "/me"); ("GET", "/profile/me"); ("GET", "/friends")]
        saved None (Some (headerName user currentProfile)) true
  | Client.Returns None =>
      mkPage stored None [] [("GET", "/me")] None (Some "index.html") None false
  | Client.Throws _ _ _ =>
      mkPage stored None [] [("GET", "/me")] None (Some "index.html") None false
  end.

(** [checkExistingSession()] of the sign-in page: where it sends the
    browser. *)
Definition checkExistingSession (me : Client.Outcome MeData) : option string :=
  match me with
  | Client.Returns (Some body) =>
      match me_user_id (Client.payload body) with
      | Text s => if Js.truthy s then Some "chat.html" else None
      | _ => None
      end
  | _ => None
  end.

End Init.
(* ------------------------------------------------------------------ *)
(** ** Friend directory: the search filter *)

Lemma append_nil (b : string) : "" +:+ b = b.
Proof. reflexivity. Qed.

Lemma append_cons (c : ascii) (a b : string) : String c a +:+ b = String c (a +:+ b).
Proof. reflexivity. Qed.

Lemma truthy_true_iff (s : string) : Js.truthy s = true ↔ s ≠ "".
Proof. unfold Js.truthy. case_bool_decide; naive_solver. Qed.

Lemma truthy_false_iff (s : string) : Js.truthy s = false ↔ s = "".
Proof. unfold Js.truthy. case_bool_decide; naive_solver. Qed.

Lemma or_else_empty (o : option string) : Js.or_else o "" = Js.text o.
Proof.
  destruct o as [s|]; simpl; [|done].
  destruct (Js.truthy s) eqn:E; [done|]. by apply truthy_false_iff in E.
Qed.

Lemma startsWith_true_iff (s needle : Utf16.t) :
  Utf16.startsWith s needle = true ↔ ∃ post, s = needle ++ post.
Proof.
  revert s. induction needle as [|c needle IH]; intros s; simpl.
  - split; [intros _; by exists s | done].
  - destruct s as [|d s].
    + split; [done | by intros [post Hpost]].
    + rewrite andb_true_iff, N.eqb_eq, IH. split.
      * intros [-> [post ->]]. by exists post.
      * intros [post [= -> ->]]. split; [done|]. by exists post.
Qed.

Lemma includes_true_iff (s needle : Utf16.t) :
  Utf16.includes s needle = true ↔ occursIn needle s.
Proof.
  unfold occursIn. induction s as [|d s IH]; simpl.
  - rewrite orb_false_r, startsWith_true_iff. split.
    + intros [post Hpost]. by exists [], post.
    + intros (pre & post & Hs). destruct pre; [by exists post | done].
  - rewrite orb_true_iff, startsWith_true_iff, IH. split.
    + intros [[post Hpost] | (pre & post & ->)].
      * by exists [], post.
      * by exists (d :: pre), post.
    + intros (pre & post & Hs). destruct pre as [|d' pre].
      * left. by exists post.
      * right. injection Hs as _ Hs. by exists pre, post.
Qed.

Lemma wide_or_else_empty (o : option Utf16.t) : Utf16.or_else o [] = Utf16.text o.
Proof. by destruct o as [[|u s]|]. Qed.

Section LowerCase.
Context `{Unicode}.

Lemma simple_cons (u : N) (s : Utf16.t) :
  forallb Utf16.simple (u :: s) = true
  ↔ Utf16.simple u = true ∧ forallb Utf16.simple s = true.
Proof. simpl. by rewrite andb_true_iff. Qed.

Lemma simple_unfold (u : N) :
  Utf16.simple u = true →
  Utf16.leadingSurrogate u = false ∧ (u =? 0x0130)%N = false
  ∧ (u =? 0x03A3)%N = false ∧ (Lowercase_Mapping u <=? 0xFFFF)%N = true.
Proof.
  unfold Utf16.simple.
  rewrite !andb_true_iff, !negb_true_iff, orb_false_iff. tauto.
Qed.

Lemma codePoints_cons (u : N) (s : Utf16.t) :
  Utf16.leadingSurrogate u = false →
  Utf16.codePoints (u :: s) = u :: Utf16.codePoints s.
Proof. intros Hu. simpl. rewrite Hu. by destruct s. Qed.

Lemma codePoints_simple (s : Utf16.t) :
  forallb Utf16.simple s = true → Utf16.codePoints s = s.
Proof.
  induction s as [|u s IH]; [done|].
  intros [Hu Hs]%simple_cons. apply simple_unfold in Hu as (Hl & _).
  by rewrite codePoints_cons, IH.
Qed.

Lemma toLowercase_simple (before s : list N) :
  forallb Utf16.simple s = true →
  Utf16.toLowercase before s = Lowercase_Mapping <$> s.
Proof.
  revert before. induction s as [|u s IH]; intros before; [done|].
  intros [Hu Hs]%simple_cons. apply simple_unfold in Hu as (_ & Hi & Hsigma & _).
  simpl. by rewrite Hi, Hsigma, IH.
Qed.

Lemma ofCodePoints_simple (s : list N) :
  forallb Utf16.simple s = true →
  Utf16.ofCodePoints (Lowercase_Mapping <$> s) = Lowercase_Mapping <$> s.
Proof.
  unfold Utf16.ofCodePoints. induction s as [|u s IH]; [done|].
  intros [Hu Hs]%simple_cons. apply simple_unfold in Hu as (_ & _ & _ & Hu).
  rewrite !fmap_cons. cbn [concat]. unfold Utf16.codeUnits at 1. rewrite Hu.
  cbn [app]. by rewrite IH.
Qed.

(** On simple code units [toLowerCase] maps the units one by one. *)
Lemma toLowerCase_simple (s : Utf16.t) :
  forallb Utf16.simple s = true →
  Utf16.toLowerCase s = Lowercase_Mapping <$> s.
Proof.
  intros Hs. unfold Utf16.toLowerCase.
  by rewrite codePoints_simple, toLowercase_simple, ofCodePoints_simple.
Qed.

Lemma includes_ci_substring (name query : Utf16.t) :
  forallb Utf16.simple name = true →
  forallb Utf16.simple query = true →
  Utf16.includes (Utf16.toLowerCase name) (Utf16.toLowerCase query) = true
  ↔ ci_substring query name.
Proof.
  intros Hname Hquery.
  rewrite includes_true_iff, (toLowerCase_simple name), (toLowerCase_simple query)
    by done.
  unfold occursIn, ci_substring. split.
  - intros (pre & post & Hs).
    apply fmap_app_inv in Hs as (a & b & -> & Hb & ->).
    symmetry in Hb. apply fmap_app_inv in Hb as (mid & c & Hmid & -> & ->).
    exists a, mid, c. split; [done|].
    rewrite !forallb_app, !andb_true_iff in Hname. destruct Hname as (_ & Hm & _).
    by rewrite !toLowerCase_simple.
  - intros (pre & mid & post & -> & Hmid).
    rewrite !forallb_app, !andb_true_iff in Hname. destruct Hname as (_ & Hm & _).
    rewrite !toLowerCase_simple in Hmid by done.
    exists (Lowercase_Mapping <$> pre), (Lowercase_Mapping <$> post).
    by rewrite !fmap_app, Hmid.
Qed.

(** C9 (amended). The friend filter returns the whole list, in its
    order, for the empty query; for any other query it keeps, in their
    original relative order, exactly the friends whose lower-cased
    username or display name contains the lower-cased query.  For a
    query and names of simple code units (no capital sigma, no U+0130,
    no surrogates) these are exactly the friends whose username or
    display name contains the query as a case-insensitive substring. *)
Theorem filter_case_insensitive (friends : list FriendNames.t) (query : Utf16.t) :
  filtered friends [] = friends
  ∧ (query ≠ [] → filtered friends query = List.filter (friendMatches query) friends)
  ∧ (∀ f, friendMatches query f = true
          ↔ occursIn (Utf16.toLowerCase query)
              (Utf16.toLowerCase (Utf16.text (FriendNames.username f)))
            ∨ occursIn (Utf16.toLowerCase query)
                (Utf16.toLowerCase (Utf16.text (FriendNames.display_name f))))
  ∧ (forallb Utf16.simple query = true →
     ∀ f, forallb Utf16.simple (Utf16.text (FriendNames.username f)) = true →
          forallb Utf16.simple (Utf16.text (FriendNames.display_name f)) = true →
          friendMatches query f = true
          ↔ ci_substring query (Utf16.text (FriendNames.username f))
            ∨ ci_substring query (Utf16.text (FriendNames.display_name f))).
Proof.
  split; [done|]. split; [|split].
  - intros Hq. unfold filtered. by destruct query.
  - intros f. unfold friendMatches.
    by rewrite orb_true_iff, !wide_or_else_empty, !includes_true_iff.
  - intros Hquery f Hu Hd. unfold friendMatches.
    by rewrite orb_true_iff, !wide_or_else_empty, !includes_ci_substring.
Qed.

End LowerCase.

Lemma filter_case_insensitive_witness :
  Utf16.ofString "LIC" ≠ []
  ∧ filtered [Example.names Example.alice; Example.names Example.bob] (Utf16.ofString "LIC")
    = [Example.names Example.alice]
  ∧ (friendMatches (Utf16.ofString "LIC") (Example.names Example.alice) = true
     ↔ ci_substring (Utf16.ofString "LIC") (Utf16.ofString "alice")
       ∨ ci_substring (Utf16.ofString "LIC") (Utf16.ofString "Alice Liddell")).
Proof.
  assert (Hq : Utf16.ofString "LIC" ≠ []) by discriminate.
  split; [exact Hq|]. split.
  - exact (proj1 (proj2 (filter_case_insensitive (H := RefUnicode)
                           [Example.names Example.alice; Example.names Example.bob]
                           (Utf16.ofString "LIC")))
             Hq).
  - exact (proj2 (proj2 (proj2 (filter_case_insensitive (H := RefUnicode) []
                                  (Utf16.ofString "LIC"))))
             eq_refl (Example.names Example.alice) eq_refl eq_refl).
Defined.

(** C9 as stated fails where lower-casing depends on the position of a
    character.  The capital sigma is a case-insensitive substring of a
    name that ends with it, but the search for it does not find the
    name: [toLowerCase] turns the sigma at the end of the name into the
    final small sigma (U+03C2) and the sigma of the query into the small
    sigma (U+03C3). *)
Lemma search_misses_final_sigma :
  let name := [0x39F; 0x394; 0x39F; 0x3A3]%N in
  let query := [0x3A3]%N in
  FriendNames.username Example.odos = Some name
  ∧ Utf16.toLowerCase name = [0x3BF; 0x3B4; 0x3BF; 0x3C2]%N
  ∧ Utf16.toLowerCase query = [0x3C3]%N
  ∧ ci_substring query name
  ∧ friendMatches query Example.odos = false
  ∧ filtered [Example.odos] query = [].
Proof.
  split; [reflexivity|]. split; [reflexivity|]. split; [reflexivity|].
  split; [|split; reflexivity].
  by exists [0x39F; 0x394; 0x39F]%N, [0x3A3]%N, [].
Qed.

(* ------------------------------------------------------------------ *)
(** ** Composer *)

Lemma onSocket_sockets (f : Api.Socket → Api.Socket) (handle : nat) (s : Chat.State)
  (k : Api.Socket) :
  Chat.sockets s !! handle = Some k →
  Chat.sockets (Chat.onSocket f handle s) !! handle = Some (f k).
Proof.
  intros Hk. unfold Chat.onSocket. rewrite Hk. simpl.
  apply list_lookup_insert_eq. by eapply lookup_lt_Some.
Qed.

Lemma onSocket_messages (f : Api.Socket → Api.Socket) (handle : nat) (s : Chat.State) :
  Chat.messages (Chat.onSocket f handle s) = Chat.messages s.
Proof. unfold Chat.onSocket. by destruct (Chat.sockets s !! handle). Qed.

Lemma send_open (content : string) (k : Api.Socket) :
  Api.readyState k = Api.OPEN →
  Api.send content k
  = Api.mkSocket (Api.conversationId k) Api.OPEN (Api.sent k ++ [content]).
Proof. intros Hk. unfold Api.send. by rewrite Hk. Qed.

Lemma sendMessage_valid (s : Chat.State) (value : string) (handle : nat) :
  Chat.composerTextarea s = Some value →
  Chat.wsConnection s = Some handle →
  Js.trim value ≠ "" →
  (String.length (Js.trim value) ≤ 500)%nat →
  Chat.sendMessage s
  = Chat.set_composerTextarea (Some "")
      (Chat.onSocket (Api.send (Js.trim value)) handle s).
Proof.
  intros Hvalue Hws Hne Hlen. unfold Chat.sendMessage. rewrite Hvalue, Hws.
  apply truthy_true_iff in Hne as ->. simpl.
  unfold Chat.MAX_MESSAGE_LENGTH.
  by destruct (Nat.ltb_spec 500 (String.length (Js.trim value))); [lia|].
Qed.

Lemma sendMessage_blocked (s : Chat.State) (value : string) :
  Chat.composerTextarea s = Some value →
  Js.trim value = "" ∨ (500 < String.length (Js.trim value))%nat
  ∨ Chat.wsConnection s = None →
  Chat.sendMessage s = s.
Proof.
  intros Hvalue Hgate. unfold Chat.sendMessage. rewrite Hvalue.
  destruct (Chat.wsConnection s) as [handle|]; [|done].
  destruct Hgate as [Hempty | [Hlong | ?]]; [| |done].
  - by rewrite Hempty.
  - unfold Chat.MAX_MESSAGE_LENGTH.
    destruct (Nat.ltb_spec 500 (String.length (Js.trim value))); [|lia].
    by rewrite orb_true_r.
Qed.

(** C4 (amended). Submitting trims the text of the composer and does
    nothing (the state, hence every socket, is left as it was) when the
    trimmed text is empty, is longer than 500 characters or the page
    holds no channel ([wsConnection] is null); so it does nothing for a
    trimmed text of 501 characters, while one of exactly 500 characters
    is transmitted when the socket of the channel is open. *)
Theorem composer_gate (s : Chat.State) (value : string) (handle : nat) (k : Api.Socket) :
  Chat.composerTextarea s = Some value →
  (Js.trim value = "" ∨ (500 < String.length (Js.trim value))%nat
   ∨ Chat.wsConnection s = None → Chat.sendMessage s = s)
  ∧ (String.length (Js.trim value) = 501 → Chat.sendMessage s = s)
  ∧ (String.length (Js.trim value) = 500 →
     Chat.wsConnection s = Some handle →
     Chat.sockets s !! handle = Some k →
     Api.readyState k = Api.OPEN →
     Chat.sockets (Chat.sendMessage s) !! handle
     = Some (Api.mkSocket (Api.conversationId k) Api.OPEN (Api.sent k ++ [Js.trim value]))).
Proof.
  intros Hvalue. split; [|split].
  - by apply sendMessage_blocked.
  - intros Hlen. apply (sendMessage_blocked s value Hvalue). right. left. lia.
  - intros Hlen Hws Hk Hopen.
    rewrite (sendMessage_valid s value handle Hvalue Hws).
    + simpl. rewrite (onSocket_sockets _ _ _ k Hk). by rewrite send_open.
    + intros Hempty. by rewrite Hempty in Hlen.
    + lia.
Qed.

Lemma composer_gate_witness :
  let draft n := step Example.chatting (Input ("  " +:+ Example.letters n +:+ " ")) in
  Chat.sendMessage (draft 501) = draft 501
  ∧ Chat.sockets (Chat.sendMessage (draft 500)) !! 0
    = Some (Api.mkSocket (Some "conv-alice") Api.OPEN [Example.letters 500]).
Proof.
  split.
  - apply (proj1 (proj2 (composer_gate
             (step Example.chatting (Input ("  " +:+ Example.letters 501 +:+ " ")))
             ("  " +:+ Example.letters 501 +:+ " ") 0
             (Api.mkSocket (Some "conv-alice") Api.OPEN []) eq_refl))).
    vm_compute. reflexivity.
  - apply (proj2 (proj2 (composer_gate
             (step Example.chatting (Input ("  " +:+ Example.letters 500 +:+ " ")))
             ("  " +:+ Example.letters 500 +:+ " ") 0
             (Api.mkSocket (Some "conv-alice") Api.OPEN []) eq_refl)));
      vm_compute; reflexivity.
Defined.

(** C4 as stated fails: once the socket of the channel has closed no
    channel is open, yet [wsConnection] still holds the wrapper; a valid
    submission then transmits nothing and empties the composer. *)
Lemma submit_on_closed_channel_clears_draft :
  let s := run Example.chatting [SocketClose 0; Input "hello"] in
  Chat.wsConnection s = Some 0%nat
  ∧ Chat.sockets s = [Api.mkSocket (Some "conv-alice") Api.CLOSED []]
  ∧ Chat.composerTextarea s = Some "hello"
  ∧ Js.trim "hello" = "hello"
  ∧ Chat.sockets (Chat.sendMessage s) = Chat.sockets s
  ∧ Chat.composerTextarea (Chat.sendMessage s) = Some ""
  ∧ Chat.sendMessage s ≠ s.
Proof.
  repeat (split; [vm_compute; reflexivity|]).
  intros E. apply (f_equal Chat.composerTextarea) in E.
  vm_compute in E. discriminate E.
Qed.

(** C7. Submitting never changes the messages, whatever the state; a
    valid submission transmits the trimmed text as the content of one
    frame and empties the composer, and the text joins the messages only
    when a frame carrying it arrives on the channel. *)
Theorem submit_keeps_messages `{Browser} (s : Chat.State) :
  Chat.messages (Chat.sendMessage s) = Chat.messages s
  ∧ Chat.messagesArea (Chat.sendMessage s) = Chat.messagesArea s
  ∧ ∀ (value : string) (handle : nat) (k : Api.Socket),
      Chat.composerTextarea s = Some value →
      Chat.wsConnection s = Some handle →
      Chat.sockets s !! handle = Some k →
      Api.readyState k = Api.OPEN →
      Js.trim value ≠ "" →
      (String.length (Js.trim value) ≤ 500)%nat →
      Chat.sockets (Chat.sendMessage s) !! handle
      = Some (Api.mkSocket (Api.conversationId k) Api.OPEN (Api.sent k ++ [Js.trim value]))
      ∧ Chat.composerTextarea (Chat.sendMessage s) = Some ""
      ∧ ∀ (eventData : string) (echo : Payload.t),
          Api.delivered eventData = Some echo →
          Payload.content echo = Some (Js.trim value) →
          ∃ msg,
            Chat.messages (step (Chat.sendMessage s) (SocketMessage handle eventData))
            = Chat.messages s ++ [msg]
            ∧ Message.content msg = Js.trim value.
Proof.
  split; [|split].
  - unfold Chat.sendMessage.
    destruct (Chat.composerTextarea s), (Chat.wsConnection s); try done.
    destruct (_ || _); [done|]. simpl. apply onSocket_messages.
  - unfold Chat.sendMessage.
    destruct (Chat.composerTextarea s), (Chat.wsConnection s); try done.
    destruct (_ || _); [done|]. simpl. unfold Chat.onSocket.
    by destruct (Chat.sockets s !! _).
  - intros value handle k Hvalue Hws Hk Hopen Hne Hlen.
    rewrite (sendMessage_valid s value handle Hvalue Hws Hne Hlen).
    assert (Hk' : Chat.sockets (Chat.set_composerTextarea (Some "")
                     (Chat.onSocket (Api.send (Js.trim value)) handle s)) !! handle
                  = Some (Api.mkSocket (Api.conversationId k) Api.OPEN
                            (Api.sent k ++ [Js.trim value]))).
    { simpl. rewrite (onSocket_sockets _ _ _ k Hk). by rewrite send_open. }
    split; [done|]. split; [done|].
    intros eventData echo Hecho Hcontent.
    unfold step, socketEvent. rewrite Hk'. simpl. rewrite Hecho.
    unfold Chat.onMessage. rewrite Hcontent. simpl.
    apply truthy_true_iff in Hne as ->. simpl.
    destruct (Chat.freshId _) as [id s1] eqn:Hfresh.
    eexists. split.
    + unfold Chat.renderMessages. simpl.
      assert (Chat.messages s1 = Chat.messages s) as Hm.
      { unfold Chat.freshId in Hfresh.
        destruct randomUUID; injection Hfresh as _ <-; simpl; apply onSocket_messages. }
      destruct (Chat.messagesArea _); simpl; [destruct (_ =? _)%nat|]; simpl;
        by rewrite Hm.
    + done.
Qed.

Lemma submit_keeps_messages_witness :
  let s := step Example.chatting (Input " see you ") in
  Chat.messages (Chat.sendMessage s) = [Example.hi]
  ∧ Chat.sockets (Chat.sendMessage s) !! 0
    = Some (Api.mkSocket (Some "conv-alice") Api.OPEN ["see you"])
  ∧ Chat.composerTextarea (Chat.sendMessage s) = Some "".
Proof.
  pose (s := step Example.chatting (Input " see you ")).
  destruct (submit_keeps_messages (H := RefBrowser) s) as (Hm & _ & Hsend).
  destruct (Hsend " see you " 0 (Api.mkSocket (Some "conv-alice") Api.OPEN [])
              eq_refl eq_refl eq_refl eq_refl) as (Hsocket & Hdraft & _).
  - discriminate.
  - vm_compute. lia.
  - split; [exact Hm|]. split; [exact Hsocket | exact Hdraft].
Defined.

(* ------------------------------------------------------------------ *)
(** ** Inbound frames *)

Section Inbound.
Context `{Browser}.

Lemma renderMessages_unfold (s : Chat.State) :
  Chat.renderMessages s = s
  ∨ ∃ v, Chat.renderMessages s = Chat.set_messagesArea (Some v) s.
Proof.
  unfold Chat.renderMessages. destruct (Chat.messagesArea s); [|by left].
  right. destruct (_ =? _)%nat; eauto.
Qed.

Lemma onMessage_rejected (conversationId : option string) (data : option Payload.t)
  (s : Chat.State) :
  hasContent data = false → Chat.onMessage conversationId data s = s.
Proof.
  intros Hdata. unfold Chat.onMessage. destruct data as [d|]; [|done].
  simpl in Hdata. by rewrite Hdata.
Qed.

(** What [onMessage] does with a payload that has content. *)
Lemma onMessage_accepted (conversationId : option string) (d : Payload.t) (s : Chat.State) :
  Js.truthy_opt (Payload.content d) = true →
  let s' := Chat.onMessage conversationId (Some d) s in
  Chat.messages s'
  = Chat.messages s
    ++ [Message.mk (localId s 0) conversationId (Payload.sender_id d)
          (Js.text (Payload.content d))
          (Some (Js.or_else (Payload.created_at d) (toISOString (Chat.clock s))))]
  ∧ Chat.sockets s' = Chat.sockets s
  ∧ Chat.activeConversationId s' = Chat.activeConversationId s
  ∧ Chat.clock s' = Chat.clock s
  ∧ Chat.drawn s' = match randomUUID with
                    | Some _ => S (Chat.drawn s)
                    | None => Chat.drawn s
                    end.
Proof.
  intros Hd. unfold Chat.onMessage. rewrite Hd. simpl.
  unfold Chat.freshId, localId. rewrite Nat.add_0_r.
  destruct randomUUID as [uuid|]; simpl;
    match goal with
    | |- context [Chat.renderMessages ?t] =>
        destruct (renderMessages_unfold t) as [-> | [v ->]]
    end; done.
Qed.

(** The message listener hands [onMessage] what [Api.delivered] computes. *)
Lemma message_event (s : Chat.State) (handle : nat) (k : Api.Socket) (eventData : string) :
  Chat.sockets s !! handle = Some k →
  Api.readyState k = Api.OPEN →
  step s (SocketMessage handle eventData)
  = Chat.onMessage (Api.conversationId k) (Api.delivered eventData) s.
Proof. intros Hk Hopen. unfold step, socketEvent. by rewrite Hk, Hopen. Qed.

(** C5. A frame whose text is not JSON is not dropped by the channel:
    the message handler receives a payload whose content is the text of
    the frame and whose sender and timestamp are null; when the text is
    not empty the page appends a message with that content and no
    sender. *)
Theorem malformed_frame_forwarded (s : Chat.State) (handle : nat) (k : Api.Socket)
  (eventData : string) :
  JSON_parse eventData = Throws →
  Chat.sockets s !! handle = Some k →
  Api.readyState k = Api.OPEN →
  Api.delivered eventData = Some (Payload.mk None (Some eventData) None)
  ∧ step s (SocketMessage handle eventData)
    = Chat.onMessage (Api.conversationId k) (Some (Payload.mk None (Some eventData) None)) s
  ∧ (eventData ≠ "" →
     ∃ msg, Chat.messages (step s (SocketMessage handle eventData)) = Chat.messages s ++ [msg]
            ∧ Message.content msg = eventData
            ∧ Message.sender_id msg = None).
Proof.
  intros Hparse Hk Hopen.
  assert (Hdelivered : Api.delivered eventData = Some (Payload.mk None (Some eventData) None)).
  { unfold Api.delivered. by rewrite Hparse. }
  split; [done|]. rewrite (message_event s handle k eventData Hk Hopen), Hdelivered.
  split; [done|]. intros Hne.
  destruct (onMessage_accepted (Api.conversationId k)
              (Payload.mk None (Some eventData) None) s) as [Hm _].
  { simpl. by apply truthy_true_iff. }
  eexists. split; [exact Hm | done].
Qed.

End Inbound.

Lemma malformed_frame_forwarded_witness :
  Api.delivered "oops" = Some (Payload.mk None (Some "oops") None)
  ∧ ∃ msg, Chat.messages (step Example.chatting (SocketMessage 0 "oops"))
           = Chat.messages Example.chatting ++ [msg]
           ∧ Message.content msg = "oops"
           ∧ Message.sender_id msg = None.
Proof.
  destruct (malformed_frame_forwarded (H := RefBrowser) Example.chatting 0
              (Api.mkSocket (Some "conv-alice") Api.OPEN []) "oops"
              eq_refl eq_refl eq_refl) as (Hd & _ & Hm).
  split; [exact Hd|]. apply Hm. discriminate.
Defined.

(* ------------------------------------------------------------------ *)
(** ** Losing the channel *)

Section ChannelLoss.
Context `{Browser}.

Lemma updateConnectionStatus_unfold (status : Chat.Status) (s : Chat.State) :
  Chat.updateConnectionStatus status s = s
  ∨ ∃ el, Chat.updateConnectionStatus status s = Chat.set_connectionStatus (Some el) s.
Proof.
  unfold Chat.updateConnectionStatus. destruct (Chat.connectionStatus s); eauto.
Qed.

Lemma onSocket_unfold (f : Api.Socket → Api.Socket) (handle : nat) (s : Chat.State) :
  Chat.onSocket f handle s = s
  ∨ ∃ sockets, Chat.onSocket f handle s = Chat.set_sockets sockets s.
Proof. unfold Chat.onSocket. destruct (Chat.sockets s !! handle); eauto. Qed.

(** C8. When the channel of an open session closes or fails, only the
    connection status changes (it shows the disconnected notice): the
    messages, the conversation identifier and the rest of the session
    are kept, and a message handled afterwards is appended to the same
    messages. *)
Theorem channel_loss_keeps_session (s : Chat.State) (handle : nat) (k : Api.Socket)
  (e : Event) :
  Chat.sockets s !! handle = Some k →
  Api.readyState k = Api.OPEN →
  e = SocketClose handle ∨ e = SocketError handle →
  let s' := step s e in
  Chat.messages s' = Chat.messages s
  ∧ Chat.activeConversationId s' = Chat.activeConversationId s
  ∧ Chat.activeFriendId s' = Chat.activeFriendId s
  ∧ Chat.wsConnection s' = Chat.wsConnection s
  ∧ Chat.messagesArea s' = Chat.messagesArea s
  ∧ Chat.composerTextarea s' = Chat.composerTextarea s
  ∧ (∀ el, Chat.connectionStatus s = Some el →
           Chat.connectionStatus s'
           = Some (Chat.mkStatusEl (Some Chat.disconnected) (Chat.display_none el)
                     (Some Chat.disconnected)))
  ∧ (∀ conversationId d,
       Js.truthy_opt (Payload.content d) = true →
       ∃ msg, Chat.messages (Chat.onMessage conversationId (Some d) s')
              = Chat.messages s ++ [msg]
              ∧ Message.content msg = Js.text (Payload.content d)).
Proof.
  intros Hk Hopen He s'.
  assert (Hframe : Chat.messages s' = Chat.messages s
                   ∧ Chat.activeConversationId s' = Chat.activeConversationId s
                   ∧ Chat.activeFriendId s' = Chat.activeFriendId s
                   ∧ Chat.wsConnection s' = Chat.wsConnection s
                   ∧ Chat.messagesArea s' = Chat.messagesArea s
                   ∧ Chat.composerTextarea s' = Chat.composerTextarea s).
  { subst s'. destruct He as [-> | ->]; unfold step, socketEvent; rewrite Hk, Hopen.
    - destruct (onSocket_unfold (Api.setReadyState Api.CLOSED) handle s) as [-> | [l ->]];
        match goal with
        | |- context [Chat.updateConnectionStatus ?st ?t] =>
            destruct (updateConnectionStatus_unfold st t) as [-> | [el ->]]
        end; done.
    - destruct (updateConnectionStatus_unfold Chat.disconnected s) as [-> | [el ->]]; done. }
  destruct Hframe as (Hm & Hc & Hf & Hw & Hv & Hd).
  repeat (split; [done|]). split.
  - intros el Hel. subst s'.
    destruct He as [-> | ->]; unfold step, socketEvent; rewrite Hk, Hopen;
      unfold Chat.updateConnectionStatus, Chat.onSocket; rewrite ?Hk; simpl;
      by rewrite Hel.
  - intros conversationId d Hcontent.
    destruct (onMessage_accepted conversationId d s' Hcontent) as [Hpush _].
    eexists. split; [rewrite Hpush, Hm; reflexivity | done].
Qed.

End ChannelLoss.

Lemma channel_loss_keeps_session_witness :
  let s' := step Example.chatting (SocketClose 0) in
  Chat.messages s' = [Example.hi]
  ∧ Chat.activeConversationId s' = Some "conv-alice"
  ∧ Chat.connectionStatus s'
    = Some (Chat.mkStatusEl (Some Chat.disconnected) true (Some Chat.disconnected)).
Proof.
  destruct (channel_loss_keeps_session (H := RefBrowser) Example.chatting 0
              (Api.mkSocket (Some "conv-alice") Api.OPEN []) (SocketClose 0)
              eq_refl eq_refl (or_introl eq_refl))
    as (Hm & Hc & _ & _ & _ & _ & Hs & _).
  split; [exact Hm|]. split; [exact Hc|].
  exact (Hs (Chat.mkStatusEl None true (Some Chat.reconnecting)) eq_refl).
Defined.

Section InboundRun.
Context `{Browser}.

Lemma accepted_cons (eventData : string) (frames : list string) :
  accepted (eventData :: frames)
  = (if hasContent (Api.delivered eventData)
     then default [] (d ← Api.delivered eventData; Some [d])
     else [])
    ++ accepted frames.
Proof.
  unfold accepted, hasContent. simpl.
  destruct (Api.delivered eventData) as [d|]; [|done].
  by destruct (Js.truthy_opt (Payload.content d)).
Qed.

Lemma accepted_length (frames : list string) :
  length (accepted frames) = length (List.filter hasContent (Api.delivered <$> frames)).
Proof.
  induction frames as [|eventData frames IH]; [done|].
  rewrite accepted_cons, length_app, IH. simpl.
  destruct (hasContent (Api.delivered eventData)) eqn:E; [|done].
  destruct (Api.delivered eventData); [done | discriminate].
Qed.

Lemma pushed_shift (conversationId : option string) (s s' : Chat.State) (i : nat)
  (d : Payload.t) :
  Chat.clock s' = Chat.clock s →
  Chat.drawn s' = match randomUUID with
                  | Some _ => S (Chat.drawn s)
                  | None => Chat.drawn s
                  end →
  pushed conversationId s' i d = pushed conversationId s (S i) d.
Proof.
  intros Ht Hn. unfold pushed, localId. rewrite Ht.
  destruct randomUUID as [uuid|]; [|done].
  rewrite Hn. by replace (S (Chat.drawn s) + i)%nat with (Chat.drawn s + S i)%nat by lia.
Qed.

Lemma run_cons (s : Chat.State) (e : Event) (events : list Event) :
  run s (e :: events) = run (step s e) events.
Proof. reflexivity. Qed.

(** The frames received on an open channel are handled one after the
    other: each payload with content is appended at the end of the
    messages, with an identifier made on the page, the conversation
    identifier the channel was opened for, and the time of the page as
    timestamp when the payload has none; a payload without content
    changes nothing.  So the messages grow by the number of payloads
    with content. *)
Lemma inbound_events_appended (s : Chat.State) (handle : nat) (k : Api.Socket)
  (frames : list string) :
  Chat.sockets s !! handle = Some k →
  Api.readyState k = Api.OPEN →
  let s' := run s (SocketMessage handle <$> frames) in
  Chat.messages s'
  = Chat.messages s ++ imap (pushed (Api.conversationId k) s) (accepted frames)
  ∧ length (Chat.messages s')
    = (length (Chat.messages s)
       + length (List.filter hasContent (Api.delivered <$> frames)))%nat
  ∧ Chat.activeConversationId s' = Chat.activeConversationId s
  ∧ Chat.sockets s' = Chat.sockets s.
Proof.
  intros Hk Hopen s'.
  assert (Hrun : Chat.messages s'
                 = Chat.messages s
                   ++ imap (pushed (Api.conversationId k) s) (accepted frames)
                 ∧ Chat.activeConversationId s' = Chat.activeConversationId s
                 ∧ Chat.sockets s' = Chat.sockets s).
  { subst s'. revert s Hk.
    induction frames as [|eventData frames IH]; intros s Hk.
    - simpl. by rewrite app_nil_r.
    - rewrite fmap_cons, run_cons, accepted_cons.
      rewrite (message_event s handle k eventData Hk Hopen).
      destruct (hasContent (Api.delivered eventData)) eqn:Hdata.
      + destruct (Api.delivered eventData) as [d|]; [|discriminate].
        destruct (onMessage_accepted (Api.conversationId k) d s Hdata)
          as (Hm & Hs & Hc & Ht & Hn).
        destruct (IH (Chat.onMessage (Api.conversationId k) (Some d) s))
          as (IHm & IHc & IHs).
        { by rewrite Hs. }
        rewrite IHm, IHc, IHs, Hm, Hc, Hs. split; [|done].
        rewrite <- app_assoc. f_equal. simpl. f_equal.
        apply imap_ext. intros i d' _. simpl. by apply pushed_shift.
      + rewrite onMessage_rejected by done. simpl. by apply IH. }
  destruct Hrun as (Hm & Hc & Hs). repeat split; try done.
  by rewrite Hm, length_app, length_imap, accepted_length.
Qed.

End InboundRun.

Lemma inbound_events_appended_witness :
  let s' := run Example.chatting (SocketMessage 0 <$> ["oops"; ""; "null"; "again"]) in
  Chat.messages s'
  = [Example.hi;
     Message.mk "local-0" (Some "conv-alice") None "oops" (Some "2024-01-01T12:00:00.000Z");
     Message.mk "local-1" (Some "conv-alice") None "again" (Some "2024-01-01T12:00:00.000Z")]
  ∧ length (Chat.messages s') = 3.
Proof.
  destruct (inbound_events_appended (H := RefBrowser) Example.chatting 0
              (Api.mkSocket (Some "conv-alice") Api.OPEN [])
              ["oops"; ""; "null"; "again"] eq_refl eq_refl)
    as (Hm & Hl & _).
  split; [exact Hm | exact Hl].
Defined.


(* ------------------------------------------------------------------ *)
(** ** Opening a conversation *)

Section Opening.
Context `{Browser}.

Lemma showInMessagesArea_unfold (v : View) (s : Chat.State) :
  Chat.showInMessagesArea v s = s
  ∨ (Chat.messagesArea s ≠ None
     ∧ Chat.showInMessagesArea v s = Chat.set_messagesArea (Some v) s).
Proof. unfold Chat.showInMessagesArea. destruct (Chat.messagesArea s); eauto. Qed.

Lemma showInMessagesArea_present (v : View) (s : Chat.State) :
  Chat.messagesArea s ≠ None →
  Chat.messagesArea (Chat.showInMessagesArea v s) = Some v.
Proof.
  unfold Chat.showInMessagesArea. intros Hs.
  by destruct (Chat.messagesArea s) eqn:E.
Qed.

Lemma renderMessages_present (s : Chat.State) :
  Chat.messagesArea (Chat.renderMessages s) = None ↔ Chat.messagesArea s = None.
Proof.
  unfold Chat.renderMessages. destruct (Chat.messagesArea s) eqn:E.
  - by destruct (_ =? _)%nat.
  - by rewrite E.
Qed.

(** The state [openConversation] leaves when it suspends. *)
Lemma openConversation_suspended (friendId name : string) (s : Chat.State) :
  let s1 := Chat.openConversation friendId name s in
  Chat.tasks s1 = Chat.tasks s ++ [Chat.AwaitStart friendId]
  ∧ Chat.requests s1 = Chat.requests s ++ [Chat.PostConversations friendId]
  ∧ Chat.wsConnection s1 = None
  ∧ length (Chat.sockets s1) = length (Chat.sockets s)
  ∧ Chat.messages s1 = []
  ∧ Chat.toasts s1 = Chat.toasts s
  ∧ Chat.activeFriendId s1 = Some friendId
  ∧ (Chat.messagesArea s1 = None ↔ Chat.messagesArea s = None).
Proof.
  unfold Chat.openConversation, Chat.showInMessagesArea, Chat.renderMessages,
    Chat.onSocket.
  simpl.
  destruct (Chat.wsConnection s) as [handle|] eqn:Ew; simpl;
    [destruct (Chat.sockets s !! handle) eqn:Ek; simpl|];
    destruct (Chat.messagesArea s) eqn:Ev; simpl;
    rewrite ?Ev; simpl; rewrite ?length_insert; naive_solver.
Qed.

(** The [catch] block: a toast and the failure notice, nothing else. *)
Lemma openFailed_effect (message : string) (s : Chat.State) :
  let s' := Chat.openFailed message s in
  Chat.toasts s' = Chat.toasts s ++ [("Failed to open conversation: " +:+ message, "error")]
  ∧ (Chat.messagesArea s ≠ None → Chat.messagesArea s' = Some (LoadFailed message))
  ∧ Chat.wsConnection s' = Chat.wsConnection s
  ∧ Chat.sockets s' = Chat.sockets s
  ∧ Chat.requests s' = Chat.requests s
  ∧ Chat.tasks s' = Chat.tasks s
  ∧ Chat.messages s' = Chat.messages s.
Proof.
  unfold Chat.openFailed, Chat.showToast, Chat.showInMessagesArea. simpl.
  destruct (Chat.messagesArea s); simpl; naive_solver.
Qed.

(** C6. When the response to the conversation lookup carries no
    conversation identifier, [openConversation] ends in its error
    handler: the failure notice replaces the messages and a toast
    reports the error; no history is requested and no socket is
    created, the page has no channel. *)
Theorem missing_identifier_fails (s : Chat.State) (friendId name : string)
  (convData : option Chat.StartResponse) :
  (∀ r, convData = Some r → Js.truthy_opt (Chat.start_conversation_id r) = false) →
  let task := length (Chat.tasks s) in
  let s1 := step s (Click friendId name) in
  let s2 := step s1 (StartResolves task convData) in
  Chat.tasks s1 !! task = Some (Chat.AwaitStart friendId)
  ∧ Chat.tasks s2 !! task = Some Chat.Returned
  ∧ Chat.wsConnection s2 = None
  ∧ Chat.sockets s2 = Chat.sockets s1
  ∧ length (Chat.sockets s2) = length (Chat.sockets s)
  ∧ Chat.requests s2 = Chat.requests s ++ [Chat.PostConversations friendId]
  ∧ Chat.toasts s2
    = Chat.toasts s ++ [("Failed to open conversation: " +:+ lookupError convData, "error")]
  ∧ (Chat.messagesArea s ≠ None
     → Chat.messagesArea s2 = Some (LoadFailed (lookupError convData)))
  ∧ Chat.messages s2 = []
  ∧ ∀ historyData, step s2 (HistoryResolves task historyData) = s2.
Proof.
  intros Hmissing task s1 s2.
  destruct (openConversation_suspended friendId name s)
    as (Ht & Hr & Hw & Hl & Hm & Hto & _ & Hv).
  change (Chat.openConversation friendId name s) with s1 in Ht, Hr, Hw, Hl, Hm, Hto, Hv.
  assert (Htask : Chat.tasks s1 !! task = Some (Chat.AwaitStart friendId)).
  { rewrite Ht. subst task. by rewrite lookup_app_r, Nat.sub_diag. }
  assert (Hs2 : s2 = Chat.set_tasks (<[task := Chat.Returned]> (Chat.tasks s1))
                       (Chat.openFailed (lookupError convData)
                          (match convData with
                           | Some r => Chat.set_activeConversationId
                                         (Chat.start_conversation_id r) s1
                           | None => s1
                           end))).
  { subst s2. unfold step at 1. rewrite Htask. unfold Chat.afterStart.
    destruct convData as [r|]; [|done].
    specialize (Hmissing r eq_refl). simpl.
    destruct (Chat.start_conversation_id r) as [cid|]; [|done].
    simpl in Hmissing. by rewrite Hmissing. }
  assert (Hreturned : Chat.tasks s2 !! task = Some Chat.Returned).
  { rewrite Hs2. simpl. apply list_lookup_insert_eq. by eapply lookup_lt_Some. }
  split; [done|]. split; [done|].
  assert (Hlate : ∀ historyData, step s2 (HistoryResolves task historyData) = s2).
  { intros historyData. unfold step. by rewrite Hreturned. }
  clearbody s2. clear Hreturned.
  match type of Hs2 with
  | _ = Chat.set_tasks _ (Chat.openFailed ?m ?t) =>
      destruct (openFailed_effect m t) as (Et & Ev & Ew & Es & Er & _ & Em)
  end.
  assert (Hfields :
            Chat.wsConnection s2 = None
            ∧ Chat.sockets s2 = Chat.sockets s1
            ∧ Chat.requests s2 = Chat.requests s1
            ∧ Chat.toasts s2
              = Chat.toasts s1
                ++ [("Failed to open conversation: " +:+ lookupError convData, "error")]
            ∧ (Chat.messagesArea s1 ≠ None
               → Chat.messagesArea s2 = Some (LoadFailed (lookupError convData)))
            ∧ Chat.messages s2 = []).
  { rewrite Hs2. simpl. rewrite Et, Ew, Es, Er, Em.
    destruct convData as [r|]; simpl in *; by rewrite ?Hw, ?Hm. }
  destruct Hfields as (Fw & Fs & Fr & Ft & Fv & Fm).
  rewrite Fs, Fr, Ft, Hr, Hto, Hl.
  repeat (split; [done|]). split; [|done].
  intros Hs. apply Fv. by rewrite Hv.
Qed.

End Opening.

Lemma missing_identifier_fails_witness :
  let s2 := run Example.page [Click "f-bob" "bob";
                              StartResolves 0 (Some (Chat.Build_StartResponse None))] in
  Chat.wsConnection s2 = None
  ∧ Chat.requests s2 = [Chat.PostConversations "f-bob"]
  ∧ Chat.messagesArea s2 = Some (LoadFailed "Server did not return a conversation_id").
Proof.
  destruct (missing_identifier_fails (H := RefBrowser) Example.page "f-bob" "bob"
              (Some (Chat.Build_StartResponse None)))
    as (_ & _ & Hw & _ & _ & Hr & _ & Hv & _).
  - intros r Hr. injection Hr as <-. reflexivity.
  - split; [exact Hw|]. split; [exact Hr|]. apply Hv. discriminate.
Defined.

(* ------------------------------------------------------------------ *)
(** ** Date separators *)

Lemma nondecreasing_head (d : Z) (ds : list Z) :
  nondecreasing (d :: ds) = true → ∀ x, x ∈ ds → (d ≤ x)%Z.
Proof.
  revert d. induction ds as [|d' ds IH]; intros d Hsorted x Hx.
  - by apply elem_of_nil in Hx.
  - simpl in Hsorted. apply andb_true_iff in Hsorted as [Hle Hrest].
    apply Z.leb_le in Hle.
    apply elem_of_cons in Hx as [-> | Hx]; [done|].
    specialize (IH d' Hrest x Hx). lia.
Qed.

Lemma nondecreasing_tail (d : Z) (ds : list Z) :
  nondecreasing (d :: ds) = true → nondecreasing ds = true.
Proof.
  destruct ds as [|d' ds]; [done|]. simpl.
  intros Hsorted. by apply andb_true_iff in Hsorted as [_ ?].
Qed.

Lemma runsFrom_sorted (p : Z) (ds : list Z) :
  nondecreasing (p :: ds) = true →
  (runsFrom (Some p) ds + 1)%nat = length (remove_dups (p :: ds)).
Proof.
  revert p. induction ds as [|d ds IH]; intros p Hsorted; [done|].
  pose proof (nondecreasing_head p (d :: ds) Hsorted) as Hle.
  pose proof (nondecreasing_tail p (d :: ds) Hsorted) as Htail.
  specialize (IH d Htail).
  change (runsFrom (Some p) (d :: ds))
    with ((if bool_decide (Some p = Some d) then 0 else 1) + runsFrom (Some d) ds)%nat.
  change (remove_dups (p :: d :: ds))
    with (if decide_rel elem_of p (d :: ds) then remove_dups (d :: ds)
          else p :: remove_dups (d :: ds)).
  case_bool_decide as Hpd.
  - injection Hpd as ->.
    destruct (decide_rel elem_of d (d :: ds)) as [_ | Hnot]; [lia|].
    exfalso. apply Hnot. by left.
  - destruct (decide_rel elem_of p (d :: ds)) as [Hin | _]; [|simpl in *; lia].
    exfalso. apply Hpd. f_equal.
    pose proof (Hle d ltac:(by left)).
    apply elem_of_cons in Hin as [-> | Hin]; [done|].
    pose proof (nondecreasing_head d ds Htail p Hin). lia.
Qed.

Lemma runs_sorted (ds : list Z) :
  nondecreasing ds = true → runs ds = length (remove_dups ds).
Proof.
  destruct ds as [|d ds]; [done|]. intros Hsorted.
  rewrite <- (runsFrom_sorted d ds Hsorted). unfold runs. simpl. lia.
Qed.

Section Separators.
Context `{Browser}.
Variable currentUser : User.
Variable friends : list FriendInfo.t.
Variable now : Z.

Lemma markers_app (a b : list Item) : markers (a ++ b) = (markers a + markers b)%nat.
Proof. unfold markers. by rewrite List.filter_app, length_app. Qed.

(** The test of [renderRow] at the position after [pre]. *)
Lemma renderRow_markers (pre rest : list Message.t) (msg : Message.t) :
  markers (renderRow currentUser friends now (pre ++ msg :: rest) (length pre) msg)
  = if startsDay (last pre) msg then 1%nat else 0%nat.
Proof.
  unfold renderRow. rewrite markers_app.
  destruct pre as [|p pre _] using rev_ind.
  - done.
  - rewrite last_snoc, length_app. simpl.
    replace (length pre + 1 =? 0)%nat with false by (symmetry; apply Nat.eqb_neq; lia).
    replace (length pre + 1 - 1)%nat with (length pre) by lia.
    rewrite <- app_assoc. rewrite lookup_app_r by lia.
    rewrite Nat.sub_diag. simpl.
    by destruct (isDifferentDay _ _).
Qed.

Lemma markers_from (pre messages : list Message.t) :
  markers (concat (imap (λ i, renderRow currentUser friends now (pre ++ messages)
                                (length pre + i)) messages))
  = separatorsFrom (last pre) messages.
Proof.
  revert pre. induction messages as [|msg rest IH]; intros pre; [done|].
  rewrite imap_cons. simpl concat. rewrite markers_app, Nat.add_0_r.
  rewrite renderRow_markers. simpl. f_equal.
  specialize (IH (pre ++ [msg])). rewrite last_snoc in IH. rewrite <- IH.
  f_equal. f_equal. apply imap_ext. intros i m _. simpl.
  rewrite <- app_assoc, length_app. simpl. f_equal. lia.
Qed.

Lemma markers_renderHtml (messages : list Message.t) :
  markers (renderHtml currentUser friends now messages) = separatorsFrom None messages.
Proof. apply (markers_from [] messages). Qed.

Lemma dated_day (msg : Message.t) :
  is_Some (timeOf msg) →
  ∃ t, Js.truthy_opt (Message.created_at msg) = true
       ∧ Date_parse (Js.text (Message.created_at msg)) = Some t
       ∧ dayOf msg = Some (local_day t).
Proof.
  unfold dayOf, timeOf. intros [t Ht].
  destruct (Js.truthy_opt (Message.created_at msg)); [|discriminate].
  exists t. by rewrite Ht.
Qed.

(** Between two messages with valid timestamps the test compares the
    local calendar days. *)
Lemma isDifferentDay_dated (prev msg : Message.t) :
  is_Some (timeOf prev) → is_Some (timeOf msg) →
  isDifferentDay (Message.created_at prev) (Message.created_at msg)
  = negb (bool_decide (dayOf prev = dayOf msg)).
Proof.
  intros Hp Hm.
  destruct (dated_day prev Hp) as (tp & Hp1 & Hp2 & Hp3).
  destruct (dated_day msg Hm) as (tm & Hm1 & Hm2 & Hm3).
  unfold isDifferentDay, toDateString. rewrite Hp1, Hm1, Hp2, Hm2, Hp3, Hm3. simpl.
  f_equal. apply bool_decide_ext. split; intros E; injection E as E; by rewrite E.
Qed.

Lemma separatorsFrom_dated (prev : option Message.t) (messages : list Message.t) :
  dated messages →
  (∀ p, prev = Some p → is_Some (timeOf p)) →
  separatorsFrom prev messages = runsFrom (prev ≫= dayOf) (days messages).
Proof.
  intros Hdated. revert prev.
  induction Hdated as [|msg rest Hmsg Hrest IH]; intros prev Hprev; [done|].
  destruct (dated_day msg Hmsg) as (t & _ & _ & Hday).
  unfold days. simpl. rewrite Hday. simpl. fold (days rest).
  rewrite (IH (Some msg)) by naive_solver. simpl. rewrite Hday. f_equal.
  destruct prev as [p|]; simpl; [|done].
  rewrite isDifferentDay_dated by naive_solver. rewrite Hday.
  by destruct (bool_decide (dayOf p = Some (local_day t))).
Qed.

Lemma separatorBefore_test (messages : list Message.t) (index : nat) (msg : Message.t) :
  messages !! index = Some msg →
  separatorBefore currentUser friends now messages index
  = (index =? 0)%nat
    || match messages !! (index - 1)%nat with
       | Some prev => isDifferentDay (Message.created_at prev) (Message.created_at msg)
       | None => false
       end.
Proof.
  intros Hmsg. unfold separatorBefore, renderRow. rewrite Hmsg.
  rewrite existsb_app. simpl. rewrite orb_false_r.
  by destruct (_ || _).
Qed.

(** C3 (amended). For messages whose timestamps are valid dates, the
    rendering puts a date separator in front of the first message and in
    front of exactly those messages whose local calendar day differs
    from the day of the message before; the number of separators is the
    number of runs of consecutive messages of one day, which is the
    number of distinct days when the days never decrease along the
    sequence. *)
Theorem date_separators (messages : list Message.t) :
  dated messages →
  (∀ index msg,
     messages !! index = Some msg →
     separatorBefore currentUser friends now messages index = true
     ↔ index = 0%nat
       ∨ ∃ prev, messages !! (index - 1)%nat = Some prev ∧ dayOf prev ≠ dayOf msg)
  ∧ markers (renderHtml currentUser friends now messages) = runs (days messages)
  ∧ (nondecreasing (days messages) = true →
     markers (renderHtml currentUser friends now messages) = distinctDays messages).
Proof.
  intros Hdated.
  assert (Hruns : markers (renderHtml currentUser friends now messages)
                  = runs (days messages)).
  { rewrite markers_renderHtml. by rewrite separatorsFrom_dated. }
  split; [|split; [done|]].
  - intros index msg Hmsg. rewrite (separatorBefore_test messages index msg Hmsg).
    rewrite orb_true_iff, Nat.eqb_eq.
    pose proof (proj1 (Forall_lookup _ _) Hdated) as Hvalid.
    destruct (decide (index = 0%nat)) as [-> | Hpos]; [split; intros _; by left|].
    destruct (messages !! (index - 1)%nat) as [prev|] eqn:Hprev.
    + rewrite (isDifferentDay_dated prev msg) by eauto.
      rewrite negb_true_iff, bool_decide_eq_false. split.
      * intros [? | Hdiff]; [done|]. right. by exists prev.
      * intros [? | (prev' & Hprev' & Hdiff)]; [done|]. right. congruence.
    + split.
      * intros [? | ?]; done.
      * intros [? | (prev' & Hprev' & _)]; done.
  - intros Hsorted. rewrite Hruns. by apply runs_sorted.
Qed.

End Separators.

Lemma date_separators_witness :
  separatorBefore Example.me [Example.alice] Example.noon
    [Example.hi; Example.again; Example.later] 2 = true
  ∧ markers (renderHtml Example.me [Example.alice] Example.noon
               [Example.hi; Example.again; Example.later])
    = distinctDays [Example.hi; Example.again; Example.later].
Proof.
  pose (messages := [Example.hi; Example.again; Example.later]).
  assert (Hdated : dated (H := RefBrowser) messages).
  { repeat constructor; by eexists. }
  destruct (date_separators (H := RefBrowser) Example.me [Example.alice] Example.noon
              messages Hdated) as (Hpos & _ & Hcount).
  split.
  - apply (Hpos 2%nat Example.later eq_refl). right.
    exists Example.again. split; [reflexivity | discriminate].
  - apply Hcount. reflexivity.
Defined.

(** C3 as stated fails: when a message of an earlier day follows a
    message of a later day, that day gets a second separator. *)
Lemma separators_exceed_distinct_days :
  dated [Example.hi; Example.later; Example.again]
  ∧ markers (renderHtml Example.me [Example.alice] Example.noon
               [Example.hi; Example.later; Example.again]) = 3%nat
  ∧ distinctDays [Example.hi; Example.later; Example.again] = 2%nat.
Proof.
  split; [|split]; [|reflexivity|reflexivity].
  repeat constructor; by eexists.
Qed.

(* ------------------------------------------------------------------ *)
(** ** Timestamps that are missing or not dates *)

Section Timestamps.
Context `{Browser}.

(** A missing timestamp never starts a day, and is shown as no text. *)
Lemma missing_timestamp (now : Z) (iso other : option string) :
  Js.truthy_opt iso = false →
  formatTime iso = "" ∧ formatDate now iso = ""
  ∧ isDifferentDay other iso = false ∧ isDifferentDay iso other = false.
Proof.
  intros Hiso. unfold formatTime, formatDate, isDifferentDay. rewrite Hiso. simpl.
  by rewrite orb_true_r.
Qed.

(** A timestamp that is not a date is shown as no text. *)
Lemma invalid_timestamp_text (now : Z) (iso : string) :
  Date_parse iso = None →
  formatTime (Some iso) = "" ∧ formatDate now (Some iso) = "".
Proof.
  intros Hiso. unfold formatTime, formatDate. simpl. rewrite Hiso.
  by destruct (negb (Js.truthy iso)).
Qed.

(** The text ["Invalid Date"] differs from the name of every day. *)
Lemma invalid_timestamp_differs (iso1 iso2 : string) (t : Z) :
  iso1 ≠ "" → iso2 ≠ "" →
  Date_parse iso1 = Some t → Date_parse iso2 = None →
  isDifferentDay (Some iso1) (Some iso2) = true
  ∧ isDifferentDay (Some iso2) (Some iso1) = true.
Proof.
  intros H1 H2 Hvalid Hinvalid. unfold isDifferentDay, toDateString. simpl.
  apply truthy_true_iff in H1 as ->. apply truthy_true_iff in H2 as ->.
  by rewrite Hvalid, Hinvalid.
Qed.

End Timestamps.

(** C10. The code at the failing input: the timestamp of the second
    message is not a date, [formatTime] and [formatDate] give no text for
    it, but [isDifferentDay] answers true against the valid timestamp of
    the first message, and the rendering starts a date separator, with
    an empty label, in front of the second message. *)
Lemma invalid_timestamp_starts_separator :
  Date_parse "not-a-date" = None
  ∧ formatTime (Some "not-a-date") = ""
  ∧ formatDate Example.noon (Some "not-a-date") = ""
  ∧ isDifferentDay (Message.created_at Example.hi) (Message.created_at Example.undated)
    = true
  ∧ renderHtml Example.me [Example.alice] Example.noon [Example.hi; Example.undated]
    = [DateSeparator "Today"; MessageRow other "Alice Liddell" "10:00" "hi";
       DateSeparator ""; MessageRow other "Alice Liddell" "" "when?"].
Proof. repeat split; reflexivity. Qed.

(* ------------------------------------------------------------------ *)
(** ** Switching conversations while a call is suspended *)

Section Switching.
Context `{Browser}.

Lemma connectWebSocket_session (conversationId : option string) (s : Chat.State) :
  let s' := Chat.connectWebSocket conversationId s in
  Chat.activeFriendId s' = Chat.activeFriendId s
  ∧ Chat.activeConversationId s' = Chat.activeConversationId s
  ∧ Chat.messages s' = Chat.messages s
  ∧ Chat.tasks s' = Chat.tasks s.
Proof.
  unfold Chat.connectWebSocket, Chat.updateConnectionStatus, Chat.onSocket.
  destruct (Chat.wsConnection s) as [handle|]; simpl;
    [destruct (Chat.sockets s !! handle); simpl|];
    by destruct (Chat.connectionStatus s).
Qed.

Lemma openConversation_conversation (friendId name : string) (s : Chat.State) :
  Chat.activeConversationId (Chat.openConversation friendId name s)
  = Chat.activeConversationId s.
Proof.
  unfold Chat.openConversation, Chat.showInMessagesArea, Chat.renderMessages,
    Chat.onSocket.
  simpl.
  destruct (Chat.wsConnection s) as [handle|] eqn:Ew; simpl;
    [destruct (Chat.sockets s !! handle) eqn:Ek; simpl|];
    destruct (Chat.messagesArea s) eqn:Ev; simpl;
    rewrite ?Ev; simpl; done.
Qed.

(** The three kinds of steps, on a page whose first [length calls]
    suspended calls are left alone. *)
Lemma holds_click (s : Chat.State) (friendId name : string)
  (friend conversation : option string) (messages : list Message.t)
  (calls tasks : list Chat.Task) :
  Switch.holds s friend conversation messages (calls ++ tasks) →
  Switch.holds (step s (Click friendId name)) (Some friendId) conversation []
    (calls ++ (tasks ++ [Chat.AwaitStart friendId])).
Proof.
  intros (_ & Hc & _ & Ht).
  destruct (openConversation_suspended friendId name s)
    as (Et & _ & _ & _ & Em & _ & Ef & _).
  unfold Switch.holds.
  change (step s (Click friendId name)) with (Chat.openConversation friendId name s).
  by rewrite Et, Em, Ef, Ht, openConversation_conversation, app_assoc.
Qed.

Lemma holds_start (i : nat) (s : Chat.State) (task : nat)
  (conversationId friendId : string) (friend conversation : option string)
  (messages : list Message.t) (calls tasks : list Chat.Task) :
  Switch.holds s friend conversation messages (calls ++ tasks) →
  task = (length calls + i)%nat →
  tasks !! i = Some (Chat.AwaitStart friendId) →
  Js.truthy conversationId = true →
  Switch.holds
    (step s (StartResolves task (Some (Chat.Build_StartResponse (Some conversationId)))))
    friend (Some conversationId) messages
    (calls ++ <[i := Chat.AwaitHistory conversationId]> tasks).
Proof.
  intros (Hf & _ & Hm & Ht) -> Htask Hid. unfold step.
  rewrite Ht, lookup_app_r by lia.
  replace (length calls + i - length calls)%nat with i by lia. rewrite Htask.
  unfold Chat.afterStart. simpl. rewrite Hid.
  unfold Switch.holds. simpl. by rewrite Ht, insert_app_r.
Qed.

Lemma holds_history (i : nat) (s : Chat.State) (task : nat) (conversationId : string)
  (history : list Message.t) (friend conversation : option string)
  (messages : list Message.t) (calls tasks : list Chat.Task) :
  Switch.holds s friend conversation messages (calls ++ tasks) →
  task = (length calls + i)%nat →
  tasks !! i = Some (Chat.AwaitHistory conversationId) →
  Switch.holds
    (step s (HistoryResolves task (Some (Chat.Build_HistoryResponse (Some history)))))
    friend conversation history (calls ++ <[i := Chat.Returned]> tasks).
Proof.
  intros (Hf & Hc & _ & Ht) -> Htask. unfold step.
  rewrite Ht, lookup_app_r by lia.
  replace (length calls + i - length calls)%nat with i by lia. rewrite Htask.
  unfold Chat.afterHistory. simpl.
  destruct (renderMessages_unfold (Chat.set_messages history s)) as [-> | [v ->]];
    match goal with
    | |- context [Chat.connectWebSocket ?c ?t] =>
        destruct (connectWebSocket_session c t) as (Ef & Ec & Em & Et)
    end;
    unfold Switch.holds;
    cbn [Chat.activeFriendId Chat.activeConversationId Chat.messages Chat.tasks
         Chat.set_tasks];
    rewrite Ef, Ec, Em; simpl; by rewrite Ht, insert_app_r.
Qed.

Lemma holds_initially (s : Chat.State) :
  Switch.holds s (Chat.activeFriendId s) (Chat.activeConversationId s)
    (Chat.messages s) (Chat.tasks s ++ []).
Proof. unfold Switch.holds. by rewrite app_nil_r. Qed.

End Switching.

(** Follows the steps of a concrete schedule from the state in which A
    is clicked. *)
Ltac follow :=
  lazymatch goal with
  | |- Switch.holds (step _ (Click _ _)) _ _ _ _ => eapply holds_click; follow
  | |- Switch.holds (step _ (StartResolves (S _) _)) _ _ _ _ =>
      eapply (holds_start 1); [follow | lia | reflexivity | assumption]
  | |- Switch.holds (step _ (StartResolves _ _)) _ _ _ _ =>
      eapply (holds_start 0); [follow | lia | reflexivity | assumption]
  | |- Switch.holds (step _ (HistoryResolves (S _) _)) _ _ _ _ =>
      eapply (holds_history 1); [follow | lia | reflexivity]
  | |- Switch.holds (step _ (HistoryResolves _ _)) _ _ _ _ =>
      eapply (holds_history 0); [follow | lia | reflexivity]
  | |- Switch.holds _ _ _ _ _ => apply holds_initially
  end.

Section SwitchOutcome.
Context `{Browser}.
Variables (friendA nameA friendB nameB convA convB : string).
Variables (histA histB : list Message.t).

Lemma outcome_holds (s : Chat.State) (schedule : list Switch.Step) :
  Js.truthy convA = true → Js.truthy convB = true →
  Switch.pendingSwitch schedule →
  ∃ tasks,
    Switch.holds
      (Switch.outcome friendA nameA friendB nameB convA convB histA histB s schedule)
      (Some friendB)
      (Some (if Switch.before Switch.startA Switch.startB schedule then convB else convA))
      (if Switch.before Switch.historyA Switch.historyB schedule then histB else histA)
      tasks.
Proof.
  intros HA HB [Hi Hb].
  repeat match goal with
         | H : Switch.Interleaved _ _ _ |- _ => inversion H; clear H; subst
         end.
  all: vm_compute in Hb; try discriminate Hb.
  all: eexists; unfold Switch.outcome, run;
    cbn [fold_left fmap list_fmap Switch.event Switch.before Switch.position
         bool_decide decide decide_rel Switch.Step_eq_dec];
    follow.
Qed.

(** When the history of A arrives, B is selected and the messages
    become those of A. *)
Lemma history_applied_after_switch (s : Chat.State) (schedule : list Switch.Step)
  (i : nat) :
  Js.truthy convA = true → Js.truthy convB = true →
  Switch.pendingSwitch schedule →
  Switch.position Switch.historyA schedule = Some i →
  ∃ conversation tasks,
    Switch.holds
      (Switch.outcome friendA nameA friendB nameB convA convB histA histB s
         (take (S i) schedule))
      (Some friendB) conversation histA tasks.
Proof.
  intros HA HB [Hi Hb] Hpos.
  repeat match goal with
         | H : Switch.Interleaved _ _ _ |- _ => inversion H; clear H; subst
         end.
  all: vm_compute in Hb; try discriminate Hb.
  all: vm_compute in Hpos; injection Hpos as <-.
  all: do 2 eexists; unfold Switch.outcome, run;
    cbn [take fold_left fmap list_fmap Switch.event]; follow.
Qed.

(** What the page does with the replies when B is clicked while a
    request of the call for A is pending: each reply is applied when it
    arrives.  Whatever the state in which A was clicked, the page ends
    with B selected, with the conversation identifier of the lookup that
    resolved last and with the history that resolved last as messages;
    so it ends with the identifier and the history of B when the replies
    for B arrive after those for A, and at the moment the history of A
    arrives, B being selected, the messages are those of A. *)
Theorem switch_applies_replies_in_order (s : Chat.State) (schedule : list Switch.Step) :
  convA ≠ "" → convB ≠ "" →
  Switch.pendingSwitch schedule →
  let outcome := Switch.outcome friendA nameA friendB nameB convA convB histA histB s in
  Chat.activeFriendId (outcome schedule) = Some friendB
  ∧ Chat.activeConversationId (outcome schedule)
    = Some (if Switch.before Switch.startA Switch.startB schedule then convB else convA)
  ∧ Chat.messages (outcome schedule)
    = (if Switch.before Switch.historyA Switch.historyB schedule then histB else histA)
  ∧ (Switch.before Switch.startA Switch.startB schedule = true →
     Switch.before Switch.historyA Switch.historyB schedule = true →
     Chat.activeConversationId (outcome schedule) = Some convB
     ∧ Chat.messages (outcome schedule) = histB)
  ∧ (∀ i, Switch.position Switch.historyA schedule = Some i →
          Chat.activeFriendId (outcome (take (S i) schedule)) = Some friendB
          ∧ Chat.messages (outcome (take (S i) schedule)) = histA).
Proof.
  intros HA HB Hpending outcome. subst outcome.
  apply truthy_true_iff in HA, HB.
  destruct (outcome_holds s schedule HA HB Hpending) as (tasks & Hf & Hc & Hm & _).
  repeat (split; [done|]). split.
  - intros Hstart Hhistory. by rewrite Hc, Hm, Hstart, Hhistory.
  - intros i Hpos.
    by destruct (history_applied_after_switch s schedule i HA HB Hpending Hpos)
      as (conversation & tasks' & Hf' & _ & Hm' & _).
Qed.

End SwitchOutcome.

Lemma switch_applies_replies_in_order_witness :
  let schedule := [Switch.startA; Switch.clickB; Switch.historyA; Switch.startB;
                   Switch.historyB] in
  let outcome := Switch.outcome "f-alice" "Alice Liddell" "f-bob" "bob"
                   "conv-alice" "conv-bob" [Example.hi] [Example.hello] Example.page in
  Chat.activeConversationId (outcome schedule) = Some "conv-bob"
  ∧ Chat.messages (outcome schedule) = [Example.hello]
  ∧ Chat.messages (outcome (take 3 schedule)) = [Example.hi].
Proof.
  assert (Hpending : Switch.pendingSwitch
                       [Switch.startA; Switch.clickB; Switch.historyA; Switch.startB;
                        Switch.historyB]).
  { split; [|reflexivity]. repeat constructor. }
  destruct (switch_applies_replies_in_order (H := RefBrowser)
              "f-alice" "Alice Liddell" "f-bob" "bob" "conv-alice" "conv-bob"
              [Example.hi] [Example.hello] Example.page _
              ltac:(discriminate) ltac:(discriminate) Hpending)
    as (_ & Hc & Hm & _ & Hmid).
  split; [exact Hc|]. split; [exact Hm|].
  exact (proj2 (Hmid 2%nat eq_refl)).
Defined.

(** C1. The code breaks the claim: the late replies for A are applied,
    not discarded.  When A is clicked, then B while the lookup for A is
    pending, and the replies for A arrive after those for B, the page
    ends with B selected but with the conversation identifier and the
    messages of A, and its channel is one of conversation A. *)
Lemma stale_replies_are_applied :
  let schedule := [Switch.clickB; Switch.startB; Switch.historyB; Switch.startA;
                   Switch.historyA] in
  let final := Switch.outcome "f-alice" "Alice Liddell" "f-bob" "bob"
                 "conv-alice" "conv-bob" [Example.hi] [Example.hello]
                 Example.page schedule in
  Switch.pendingSwitch schedule
  ∧ Chat.activeFriendId final = Some "f-bob"
  ∧ Chat.activeConversationId final = Some "conv-alice"
  ∧ Chat.activeConversationId final ≠ Some "conv-bob"
  ∧ Chat.messages final = [Example.hi]
  ∧ Message.conversation_id Example.hi = Some "conv-alice"
  ∧ Chat.wsConnection final = Some 1%nat
  ∧ Chat.sockets final !! 1%nat
    = Some (Api.mkSocket (Some "conv-alice") Api.CONNECTING []).
Proof.
  split; [split; [repeat constructor | reflexivity]|].
  repeat (split; [vm_compute; try reflexivity; try discriminate|]).
  vm_compute. reflexivity.
Qed.

(** On the page these replies leave behind, a text written to B goes to
    A: once the channel has opened, the text submitted while B is
    selected is transmitted on the socket of conversation A. *)
Lemma text_for_B_sent_to_A :
  let schedule := [Switch.clickB; Switch.startB; Switch.historyB; Switch.startA;
                   Switch.historyA] in
  let final := Switch.outcome "f-alice" "Alice Liddell" "f-bob" "bob"
                 "conv-alice" "conv-bob" [Example.hi] [Example.hello]
                 Example.page schedule in
  let sent := run (H := RefBrowser) final [SocketOpen 1; Input "hello bob"; Submit] in
  Chat.activeFriendId sent = Some "f-bob"
  ∧ Chat.sockets sent !! 1%nat
    = Some (Api.mkSocket (Some "conv-alice") Api.OPEN ["hello bob"])
  ∧ Chat.sockets sent !! 0%nat
    = Some (Api.mkSocket (Some "conv-bob") Api.CLOSING []).
Proof.
  repeat (split; [vm_compute; reflexivity|]).
  vm_compute. reflexivity.
Qed.

(* ------------------------------------------------------------------ *)
(** ** Invariants of the page *)

Section ChannelFrame.
Context `{Browser}.

(** What an operation does to the sockets and to [wsConnection] is all
    that matters for the channel invariants. *)
Lemma renderMessages_channel (s : Chat.State) :
  Chat.sockets (Chat.renderMessages s) = Chat.sockets s
  ∧ Chat.wsConnection (Chat.renderMessages s) = Chat.wsConnection s.
Proof. by destruct (renderMessages_unfold s) as [-> | [v ->]]. Qed.

Lemma updateConnectionStatus_channel (status : Chat.Status) (s : Chat.State) :
  Chat.sockets (Chat.updateConnectionStatus status s) = Chat.sockets s
  ∧ Chat.wsConnection (Chat.updateConnectionStatus status s) = Chat.wsConnection s.
Proof. by destruct (updateConnectionStatus_unfold status s) as [-> | [el ->]]. Qed.

Lemma openFailed_channel (message : string) (s : Chat.State) :
  Chat.sockets (Chat.openFailed message s) = Chat.sockets s
  ∧ Chat.wsConnection (Chat.openFailed message s) = Chat.wsConnection s.
Proof. by destruct (openFailed_effect message s) as (_ & _ & -> & -> & _). Qed.

Lemma onSocket_channel (f : Api.Socket → Api.Socket) (handle : nat) (s : Chat.State) :
  Chat.wsConnection (Chat.onSocket f handle s) = Chat.wsConnection s
  ∧ Chat.sockets (Chat.onSocket f handle s)
    = match Chat.sockets s !! handle with
      | Some k => <[handle := f k]> (Chat.sockets s)
      | None => Chat.sockets s
      end.
Proof. unfold Chat.onSocket. by destruct (Chat.sockets s !! handle). Qed.

Lemma onMessage_channel (conversationId : option string) (data : option Payload.t)
  (s : Chat.State) :
  Chat.sockets (Chat.onMessage conversationId data s) = Chat.sockets s
  ∧ Chat.wsConnection (Chat.onMessage conversationId data s) = Chat.wsConnection s.
Proof.
  unfold Chat.onMessage. destruct data as [d|]; [|done].
  destruct (negb _); [done|]. unfold Chat.freshId.
  destruct randomUUID; simpl;
    match goal with
    | |- context [Chat.renderMessages ?t] =>
        destruct (renderMessages_channel t) as [-> ->]
    end; done.
Qed.

End ChannelFrame.

(** Strips the operations that leave the sockets and [wsConnection]
    alone. *)
Ltac same_channel :=
  simpl;
  repeat match goal with
         | |- context [Chat.openFailed ?m ?t] =>
             let E1 := fresh in let E2 := fresh in
             destruct (openFailed_channel m t) as [E1 E2]; progress (rewrite ?E1, ?E2); clear E1 E2
         | |- context [Chat.renderMessages ?t] =>
             let E1 := fresh in let E2 := fresh in
             destruct (renderMessages_channel t) as [E1 E2]; progress (rewrite ?E1, ?E2); clear E1 E2
         | |- context [Chat.updateConnectionStatus ?st ?t] =>
             let E1 := fresh in let E2 := fresh in
             destruct (updateConnectionStatus_channel st t) as [E1 E2];
             progress (rewrite ?E1, ?E2); clear E1 E2
         | |- context [Chat.onMessage ?c ?d ?t] =>
             let E1 := fresh in let E2 := fresh in
             destruct (onMessage_channel c d t) as [E1 E2]; progress (rewrite ?E1, ?E2); clear E1 E2
         end;
  simpl; try done.

Section Channels.
Context `{Browser}.

(** Replacing one socket by a socket that is live only if the old one
    was keeps the invariant. *)
Lemma oneChannel_update (s s' : Chat.State) (handle : nat) (k k' : Api.Socket) :
  oneChannel s →
  Chat.sockets s !! handle = Some k →
  (live k' = true → live k = true) →
  Chat.sockets s' = <[handle := k']> (Chat.sockets s) →
  Chat.wsConnection s' = Chat.wsConnection s →
  oneChannel s'.
Proof.
  intros [Hvalid Hlive] Hk Hkeep Hsockets Hws. split.
  - intros h Hh. rewrite Hsockets, length_insert. apply Hvalid. by rewrite <- Hws.
  - intros h j Hj Hjlive. rewrite Hws. rewrite Hsockets in Hj.
    destruct (decide (handle = h)) as [-> | Hne].
    + rewrite list_lookup_insert_eq in Hj by (by eapply lookup_lt_Some).
      injection Hj as <-. eauto.
    + rewrite list_lookup_insert_ne in Hj by done. eauto.
Qed.

Lemma oneChannel_same (s s' : Chat.State) :
  oneChannel s →
  Chat.sockets s' = Chat.sockets s →
  Chat.wsConnection s' = Chat.wsConnection s →
  oneChannel s'.
Proof. unfold oneChannel. intros Hs -> ->. done. Qed.

Lemma oneChannel_onSocket (f : Api.Socket → Api.Socket) (handle : nat) (s : Chat.State) :
  oneChannel s →
  (∀ k, Chat.sockets s !! handle = Some k → live (f k) = true → live k = true) →
  oneChannel (Chat.onSocket f handle s).
Proof.
  intros Hs Hf. destruct (onSocket_channel f handle s) as [Hws Hsockets].
  destruct (Chat.sockets s !! handle) as [k|] eqn:Hk.
  - apply (oneChannel_update s _ handle k (f k)); auto.
  - by eapply oneChannel_same.
Qed.

Lemma live_close (k : Api.Socket) : live (Api.close k) = false.
Proof.
  unfold live, Api.close. destruct (Api.readyState k) eqn:E; simpl; by rewrite ?E.
Qed.

Lemma live_send (content : string) (k : Api.Socket) : live (Api.send content k) = live k.
Proof. unfold live, Api.send. case_bool_decide as E; [simpl; by rewrite E | done]. Qed.

(** Once the socket of [wsConnection] is closed no socket is live. *)
Lemma closed_channel_none_live (s : Chat.State) :
  oneChannel s →
  let s1 := match Chat.wsConnection s with
            | Some handle => Chat.onSocket Api.close handle s
            | None => s
            end in
  length (Chat.sockets s1) = length (Chat.sockets s)
  ∧ ∀ handle k, Chat.sockets s1 !! handle = Some k → live k = false.
Proof.
  intros [Hvalid Hlive]. destruct (Chat.wsConnection s) as [h|] eqn:Hws; simpl.
  - destruct (onSocket_channel Api.close h s) as [_ ->].
    destruct (lookup_lt_is_Some_2 (Chat.sockets s) h (Hvalid h eq_refl)) as [k Hk].
    rewrite Hk, length_insert. split; [done|].
    intros j kj Hj. destruct (decide (h = j)) as [-> | Hne].
    + rewrite list_lookup_insert_eq in Hj by (by eapply lookup_lt_Some).
      injection Hj as <-. apply live_close.
    + rewrite list_lookup_insert_ne in Hj by done.
      destruct (live kj) eqn:Hkj; [|done].
      specialize (Hlive j kj Hj Hkj). congruence.
  - split; [done|]. intros j kj Hj.
    destruct (live kj) eqn:Hkj; [|done].
    specialize (Hlive j kj Hj Hkj). congruence.
Qed.

Lemma oneChannel_openConversation (friendId name : string) (s : Chat.State) :
  oneChannel s → oneChannel (Chat.openConversation friendId name s).
Proof.
  intros Hs. destruct (closed_channel_none_live s Hs) as [_ Hnone].
  destruct (openConversation_suspended friendId name s) as (_ & _ & Hws & _).
  split; [intros h Hh; congruence|].
  intros h k Hk Hlive. exfalso.
  assert (Hsockets : Chat.sockets (Chat.openConversation friendId name s)
                     = Chat.sockets match Chat.wsConnection s with
                                    | Some handle => Chat.onSocket Api.close handle s
                                    | None => s
                                    end).
  { unfold Chat.openConversation, Chat.showInMessagesArea, Chat.renderMessages,
      Chat.onSocket.
    simpl.
    destruct (Chat.wsConnection s) as [handle|] eqn:Ew; simpl;
      [destruct (Chat.sockets s !! handle) eqn:Ek; simpl|];
      destruct (Chat.messagesArea s) eqn:Ev; simpl;
      rewrite ?Ev; simpl; rewrite ?Ek; done. }
  rewrite Hsockets in Hk. specialize (Hnone h k Hk). congruence.
Qed.

Lemma oneChannel_connectWebSocket (conversationId : option string) (s : Chat.State) :
  oneChannel s → oneChannel (Chat.connectWebSocket conversationId s).
Proof.
  intros Hs. destruct (closed_channel_none_live s Hs) as [Hlen Hnone].
  unfold Chat.connectWebSocket.
  match goal with
  | |- context [Chat.updateConnectionStatus ?st ?t] =>
      destruct (updateConnectionStatus_channel st t) as [Hsockets _];
      set (s2 := Chat.updateConnectionStatus st t) in *
  end.
  split; simpl.
  - intros h Hh. injection Hh as <-. rewrite length_app. simpl. lia.
  - intros h k Hk Hlive. f_equal.
    destruct (decide (h < length (Chat.sockets s2))%nat) as [Hlt | Hge].
    + rewrite lookup_app_l in Hk by done. rewrite Hsockets in Hk.
      specialize (Hnone h k Hk). congruence.
    + apply lookup_lt_Some in Hk. rewrite length_app in Hk. simpl in Hk. lia.
Qed.

Lemma oneChannel_step (s : Chat.State) (e : Event) :
  oneChannel s → oneChannel (step s e).
Proof.
  intros Hs. destruct e as [f n | t d | t m | t d | t m | h | h x | h | h | v | | t]; simpl.
  - by apply oneChannel_openConversation.
  - destruct (Chat.tasks s !! t) as [[| |]|]; try done.
    unfold Chat.afterStart. destruct d as [r|]; simpl;
      [destruct (Chat.start_conversation_id r) as [cid|]; [destruct (Js.truthy cid)|]|];
      (eapply oneChannel_same; [exact Hs | same_channel | same_channel]).
  - destruct (Chat.tasks s !! t) as [[| |]|]; try done.
    eapply oneChannel_same; [exact Hs | same_channel | same_channel].
  - destruct (Chat.tasks s !! t) as [[| |]|]; try done.
    unfold Chat.afterHistory. destruct d as [r|].
    + match goal with
      | |- context [Chat.connectWebSocket ?c ?u] =>
          assert (Hc : oneChannel (Chat.connectWebSocket c u))
      end.
      { apply oneChannel_connectWebSocket.
        eapply oneChannel_same; [exact Hs | same_channel | same_channel]. }
      eapply oneChannel_same; [exact Hc | done | done].
    + eapply oneChannel_same; [exact Hs | same_channel | same_channel].
  - destruct (Chat.tasks s !! t) as [[| |]|]; try done.
    eapply oneChannel_same; [exact Hs | same_channel | same_channel].
  - unfold socketEvent. destruct (Chat.sockets s !! h) as [k|] eqn:Hk; [|done].
    destruct (Api.readyState k) eqn:Hr; try done.
    eapply oneChannel_same;
      [apply (oneChannel_onSocket (Api.setReadyState Api.OPEN) h s Hs)
      | same_channel | same_channel].
    intros k' Hk' _. rewrite Hk in Hk'. injection Hk' as <-. unfold live. by rewrite Hr.
  - unfold socketEvent. destruct (Chat.sockets s !! h) as [k|] eqn:Hk; [|done].
    destruct (Api.readyState k) eqn:Hr; try done.
    eapply oneChannel_same; [exact Hs | same_channel | same_channel].
  - unfold socketEvent. destruct (Chat.sockets s !! h) as [k|] eqn:Hk; [|done].
    destruct (Api.readyState k) eqn:Hr; try done;
      (eapply oneChannel_same;
       [apply (oneChannel_onSocket (Api.setReadyState Api.CLOSED) h s Hs); by intros
       | same_channel | same_channel]).
  - unfold socketEvent. destruct (Chat.sockets s !! h) as [k|] eqn:Hk; [|done].
    destruct (Api.readyState k) eqn:Hr; try done;
      (eapply oneChannel_same; [exact Hs | same_channel | same_channel]).
  - by destruct (Chat.composerTextarea s).
  - unfold Chat.sendMessage.
    destruct (Chat.composerTextarea s) as [value|]; [|done].
    destruct (Chat.wsConnection s) as [handle|] eqn:Hws; [|done].
    destruct (_ || _); [done|].
    eapply oneChannel_same;
      [apply (oneChannel_onSocket (Api.send (Js.trim value)) handle s Hs) | done | done].
    intros k _. by rewrite live_send.
  - done.
Qed.

(** X1. At most one channel is active: whatever events the page handles
    (also replies that arrive out of order), [wsConnection] always refers
    to a socket of the page and every socket that is connecting or open
    is the one [wsConnection] refers to; so two different sockets are
    never live together. *)
Theorem one_live_channel (s : Chat.State) (events : list Event) :
  oneChannel s →
  oneChannel (run s events)
  ∧ ∀ h1 h2 k1 k2,
      Chat.sockets (run s events) !! h1 = Some k1 →
      Chat.sockets (run s events) !! h2 = Some k2 →
      live k1 = true → live k2 = true → h1 = h2.
Proof.
  intros Hs.
  assert (Hrun : oneChannel (run s events)).
  { revert s Hs. induction events as [|e events IH]; intros s Hs; [done|].
    rewrite run_cons. apply IH. by apply oneChannel_step. }
  split; [done|]. intros h1 h2 k1 k2 H1 H2 L1 L2.
  destruct Hrun as [_ Hlive].
  pose proof (Hlive h1 k1 H1 L1) as E1. pose proof (Hlive h2 k2 H2 L2) as E2.
  congruence.
Qed.

End Channels.

Lemma oneChannel_loaded (user : User) (friends : list FriendInfo.t) (now : Z) :
  oneChannel (loaded user friends now).
Proof. split; [discriminate|]. intros h k Hk. by destruct h. Qed.

Lemma one_live_channel_witness :
  oneChannel
    (run Example.page
       [Click "f-alice" "Alice Liddell"; Click "f-bob" "bob";
        StartResolves 1 (Example.startOk "conv-bob");
        HistoryResolves 1 (Example.historyOk [Example.hello]); SocketOpen 0;
        StartResolves 0 (Example.startOk "conv-alice");
        HistoryResolves 0 (Example.historyOk [Example.hi])]).
Proof.
  apply (one_live_channel (H := RefBrowser)).
  apply oneChannel_loaded.
Defined.

(* ------------------------------------------------------------------ *)
(** ** What the page transmits *)

Lemma trimStart_head (s : string) :
  Js.trimStart s = ""
  ∨ ∃ c r, Js.trimStart s = String c r ∧ Js.isWhiteSpace c = false.
Proof.
  induction s as [|c r IH]; [by left|]. simpl.
  destruct (Js.isWhiteSpace c) eqn:E; [done|]. right. by exists c, r.
Qed.

Lemma trimEnd_idempotent (s : string) : Js.trimEnd (Js.trimEnd s) = Js.trimEnd s.
Proof.
  induction s as [|c r IH]; [done|]. simpl.
  destruct (Js.trimEnd r) as [|c' r'] eqn:E.
  - destruct (Js.isWhiteSpace c) eqn:Ec; [done|]. simpl. by rewrite Ec.
  - change (Js.trimEnd (String c (String c' r')))
      with (match Js.trimEnd (String c' r') with
            | EmptyString => if Js.isWhiteSpace c then EmptyString else String c EmptyString
            | r'' => String c r''
            end).
    by rewrite IH.
Qed.

Lemma trimEnd_head (c : ascii) (r : string) :
  Js.isWhiteSpace c = false → ∃ r', Js.trimEnd (String c r) = String c r'.
Proof.
  intros Ec. simpl. destruct (Js.trimEnd r) as [|c' r'].
  - rewrite Ec. by exists "".
  - by exists (String c' r').
Qed.

(** Trimming twice is trimming once. *)
Lemma trim_idempotent (s : string) : Js.trim (Js.trim s) = Js.trim s.
Proof.
  unfold Js.trim. destruct (trimStart_head s) as [-> | (c & r & -> & Ec)]; [done|].
  destruct (trimEnd_head c r Ec) as [r' Hr']. rewrite Hr'. simpl Js.trimStart.
  rewrite Ec, <- Hr'. apply trimEnd_idempotent.
Qed.

Section Frames.
Context `{Browser}.

Lemma framesSendable_same (s s' : Chat.State) :
  framesSendable s → Chat.sockets s' = Chat.sockets s → framesSendable s'.
Proof. unfold framesSendable. by intros Hs ->. Qed.

Lemma framesSendable_onSocket (f : Api.Socket → Api.Socket) (handle : nat)
  (s : Chat.State) :
  framesSendable s →
  (∀ k, Forall sendable (Api.sent k) → Forall sendable (Api.sent (f k))) →
  framesSendable (Chat.onSocket f handle s).
Proof.
  intros Hs Hf h k. destruct (onSocket_channel f handle s) as [_ ->].
  destruct (Chat.sockets s !! handle) as [k0|] eqn:Hk0; [|apply Hs].
  destruct (decide (handle = h)) as [-> | Hne].
  - rewrite list_lookup_insert_eq by (by eapply lookup_lt_Some).
    intros E. injection E as <-. eauto.
  - rewrite list_lookup_insert_ne by done. apply Hs.
Qed.

Lemma sent_close (k : Api.Socket) : Api.sent (Api.close k) = Api.sent k.
Proof. unfold Api.close. by destruct (Api.readyState k). Qed.

Lemma openConversation_sockets (friendId name : string) (s : Chat.State) :
  Chat.sockets (Chat.openConversation friendId name s)
  = Chat.sockets match Chat.wsConnection s with
                 | Some handle => Chat.onSocket Api.close handle s
                 | None => s
                 end.
Proof.
  unfold Chat.openConversation, Chat.showInMessagesArea, Chat.renderMessages,
    Chat.onSocket.
  simpl.
  destruct (Chat.wsConnection s) as [handle|] eqn:Ew; simpl;
    [destruct (Chat.sockets s !! handle) eqn:Ek; simpl|];
    destruct (Chat.messagesArea s) eqn:Ev; simpl;
    rewrite ?Ev; simpl; rewrite ?Ek; done.
Qed.

Lemma framesSendable_closeCurrent (s : Chat.State) :
  framesSendable s →
  framesSendable match Chat.wsConnection s with
                 | Some handle => Chat.onSocket Api.close handle s
                 | None => s
                 end.
Proof.
  intros Hs. destruct (Chat.wsConnection s) as [handle|]; [|done].
  apply framesSendable_onSocket; [done|]. intros k. by rewrite sent_close.
Qed.

Lemma framesSendable_connectWebSocket (conversationId : option string) (s : Chat.State) :
  framesSendable s → framesSendable (Chat.connectWebSocket conversationId s).
Proof.
  intros Hs. pose proof (framesSendable_closeCurrent s Hs) as Hclosed.
  unfold Chat.connectWebSocket.
  match goal with
  | |- context [Chat.updateConnectionStatus ?st ?t] =>
      destruct (updateConnectionStatus_channel st t) as [Hsockets _];
      set (s2 := Chat.updateConnectionStatus st t) in *
  end.
  intros h k. simpl. intros Hk.
  destruct (decide (h < length (Chat.sockets s2))%nat) as [Hlt | Hge].
  - rewrite lookup_app_l in Hk by done. rewrite Hsockets in Hk. by eapply Hclosed.
  - rewrite lookup_app_r in Hk by lia.
    destruct (h - length (Chat.sockets s2))%nat; simpl in Hk; [|done].
    injection Hk as <-. constructor.
Qed.

Lemma framesSendable_step (s : Chat.State) (e : Event) :
  framesSendable s → framesSendable (step s e).
Proof.
  intros Hs. destruct e as [f n | t d | t m | t d | t m | h | h x | h | h | v | | t]; simpl.
  - eapply framesSendable_same; [apply framesSendable_closeCurrent, Hs|].
    apply openConversation_sockets.
  - destruct (Chat.tasks s !! t) as [[| |]|]; try done.
    unfold Chat.afterStart. destruct d as [r|]; simpl;
      [destruct (Chat.start_conversation_id r) as [cid|]; [destruct (Js.truthy cid)|]|];
      (eapply framesSendable_same; [exact Hs | same_channel]).
  - destruct (Chat.tasks s !! t) as [[| |]|]; try done.
    eapply framesSendable_same; [exact Hs | same_channel].
  - destruct (Chat.tasks s !! t) as [[| |]|]; try done.
    unfold Chat.afterHistory. destruct d as [r|].
    + match goal with
      | |- context [Chat.connectWebSocket ?c ?u] =>
          assert (Hc : framesSendable (Chat.connectWebSocket c u))
      end.
      { apply framesSendable_connectWebSocket.
        eapply framesSendable_same; [exact Hs | same_channel]. }
      eapply framesSendable_same; [exact Hc | done].
    + eapply framesSendable_same; [exact Hs | same_channel].
  - destruct (Chat.tasks s !! t) as [[| |]|]; try done.
    eapply framesSendable_same; [exact Hs | same_channel].
  - unfold socketEvent. destruct (Chat.sockets s !! h) as [k|] eqn:Hk; [|done].
    destruct (Api.readyState k) eqn:Hr; try done.
    eapply framesSendable_same;
      [apply (framesSendable_onSocket (Api.setReadyState Api.OPEN) h s Hs); by intros
      | same_channel].
  - unfold socketEvent. destruct (Chat.sockets s !! h) as [k|] eqn:Hk; [|done].
    destruct (Api.readyState k) eqn:Hr; try done.
    eapply framesSendable_same; [exact Hs | same_channel].
  - unfold socketEvent. destruct (Chat.sockets s !! h) as [k|] eqn:Hk; [|done].
    destruct (Api.readyState k) eqn:Hr; try done;
      (eapply framesSendable_same;
       [apply (framesSendable_onSocket (Api.setReadyState Api.CLOSED) h s Hs); by intros
       | same_channel]).
  - unfold socketEvent. destruct (Chat.sockets s !! h) as [k|] eqn:Hk; [|done].
    destruct (Api.readyState k) eqn:Hr; try done;
      (eapply framesSendable_same; [exact Hs | same_channel]).
  - by destruct (Chat.composerTextarea s).
  - unfold Chat.sendMessage.
    destruct (Chat.composerTextarea s) as [value|]; [|done].
    destruct (Chat.wsConnection s) as [handle|] eqn:Hws; [|done].
    destruct (negb (Js.truthy (Js.trim value))) eqn:Hempty; [done|].
    destruct (Chat.MAX_MESSAGE_LENGTH <? String.length (Js.trim value))%nat eqn:Hlong;
      [done|].
    simpl.
    eapply framesSendable_same;
      [apply (framesSendable_onSocket (Api.send (Js.trim value)) handle s Hs) | done].
    intros k Hk. unfold Api.send. case_bool_decide; [|done]. simpl.
    apply Forall_app. split; [done|]. constructor; [|constructor].
    split; [|split].
    + apply truthy_true_iff. by apply negb_false_iff.
    + by apply Nat.ltb_ge.
    + apply trim_idempotent.
  - done.
Qed.

(** X2. Whatever events the page handles, every content it has
    transmitted on any of its sockets is non-empty, at most 500
    characters long and free of leading and trailing white space. *)
Theorem transmitted_frames_sendable (s : Chat.State) (events : list Event) :
  framesSendable s →
  ∀ handle k content,
    Chat.sockets (run s events) !! handle = Some k →
    content ∈ Api.sent k →
    content ≠ "" ∧ (String.length content ≤ 500)%nat ∧ Js.trim content = content.
Proof.
  intros Hs.
  assert (Hrun : framesSendable (run s events)).
  { revert s Hs. induction events as [|e events IH]; intros s Hs; [done|].
    rewrite run_cons. apply IH. by apply framesSendable_step. }
  intros handle k content Hk Hin.
  by apply (proj1 (Forall_forall _ _) (Hrun handle k Hk) content).
Qed.

End Frames.

Lemma transmitted_frames_sendable_witness :
  let s := run Example.chatting [Input "  see you  "; Submit; Input "   "; Submit] in
  Chat.sockets s !! 0%nat = Some (Api.mkSocket (Some "conv-alice") Api.OPEN ["see you"])
  ∧ "see you" ≠ "" ∧ (String.length "see you" ≤ 500)%nat ∧ Js.trim "see you" = "see you".
Proof.
  split; [reflexivity|].
  apply (transmitted_frames_sendable (H := RefBrowser) Example.page
           [Click "f-alice" "Alice Liddell"; StartResolves 0 (Example.startOk "conv-alice");
            HistoryResolves 0 (Example.historyOk [Example.hi]); SocketOpen 0;
            Input "  see you  "; Submit; Input "   "; Submit]
           ltac:(by intros [|h] k Hk) 0%nat
           (Api.mkSocket (Some "conv-alice") Api.OPEN ["see you"]) "see you").
  - reflexivity.
  - by left.
Defined.

(* ------------------------------------------------------------------ *)
(** ** What the events leave alone *)

(** Unfolds one turn of the event loop down to the assignments. *)
Ltac unfold_turn :=
  unfold step, socketEvent, Chat.afterStart, Chat.afterHistory, Chat.afterRejection,
    Chat.openFailed, Chat.showToast, Chat.showInMessagesArea, Chat.connectWebSocket,
    Chat.openConversation, Chat.sendMessage, Chat.onMessage, Chat.freshId,
    Chat.renderMessages, Chat.updateConnectionStatus, Chat.onSocket in *.

(** Splits a turn into the cases of its tests. *)
Ltac split_turn :=
  repeat (progress (unfold_turn; repeat case_match; simpl in *; simplify_eq)).

Section Untouched.
Context `{Browser}.

Lemma noticeHidden_step (s : Chat.State) (e : Event) :
  noticeHidden s → noticeHidden (step s e).
Proof.
  intros (el & Hel & Hnone). unfold noticeHidden.
  destruct e; split_turn; eauto.
Qed.

(** X4. [updateConnectionStatus] never resets [style.display]: once a
    socket has opened (which hides the connection notice), the notice
    stays hidden through every later event; when an open channel then
    closes, the disconnected notice is written into the hidden element. *)
Theorem notice_stays_hidden (s : Chat.State) (handle : nat) (k : Api.Socket)
  (events : list Event) :
  Chat.sockets s !! handle = Some k →
  Api.readyState k = Api.CONNECTING →
  Chat.connectionStatus s ≠ None →
  let s' := run (step s (SocketOpen handle)) events in
  noticeHidden s'
  ∧ ∀ handle' k',
      Chat.sockets s' !! handle' = Some k' →
      Api.readyState k' = Api.OPEN →
      ∃ el, Chat.connectionStatus (step s' (SocketClose handle')) = Some el
            ∧ Chat.banner el = Some Chat.disconnected
            ∧ Chat.modifier el = Some Chat.disconnected
            ∧ Chat.display_none el = true.
Proof.
  intros Hk Hr Hel.
  assert (Hopen : noticeHidden (step s (SocketOpen handle))).
  { destruct (Chat.connectionStatus s) as [el|] eqn:Hel0; [|done].
    unfold noticeHidden, step, socketEvent. rewrite Hk, Hr.
    unfold Chat.updateConnectionStatus, Chat.onSocket. rewrite Hk. simpl.
    rewrite Hel0. simpl. eauto. }
  revert Hopen. generalize (step s (SocketOpen handle)). clear s Hk Hr Hel.
  intros s Hs s'.
  assert (Hrun : noticeHidden s').
  { subst s'. revert s Hs.
    induction events as [|e events IH]; intros s Hs; [done|].
    rewrite run_cons. apply IH. by apply noticeHidden_step. }
  split; [done|]. clearbody s'. clear s Hs.
  intros handle' k' Hk' Hr'. destruct Hrun as (el & Hel & Hnone).
  unfold step, socketEvent. rewrite Hk', Hr'.
  unfold Chat.updateConnectionStatus, Chat.onSocket. rewrite Hk'. simpl.
  rewrite Hel. simpl. eauto.
Qed.

(** An event that does not open a conversation keeps the messages, or
    appends one message when it is a frame of a socket. *)
Lemma messages_step (s : Chat.State) (e : Event) :
  opensConversation e = false →
  Chat.messages (step s e) = Chat.messages s
  ∨ (isSocketMessage e = true ∧ ∃ msg, Chat.messages (step s e) = Chat.messages s ++ [msg]).
Proof. intros He. destruct e; try discriminate; split_turn; eauto. Qed.

(** X3. Between two openings of a conversation the messages are only
    appended to: events other than a click on a friend and the arrival
    of a history never remove, change or reorder a message, and they add
    at most one message per frame received. *)
Theorem messages_only_grow (s : Chat.State) (events : list Event) :
  forallb (λ e, negb (opensConversation e)) events = true →
  ∃ appended,
    Chat.messages (run s events) = Chat.messages s ++ appended
    ∧ (length appended ≤ length (List.filter isSocketMessage events))%nat.
Proof.
  revert s. induction events as [|e events IH]; intros s Hevents.
  - exists []. by rewrite app_nil_r.
  - simpl in Hevents. apply andb_true_iff in Hevents as [He Hevents].
    apply negb_true_iff in He. rewrite run_cons.
    destruct (IH (step s e) Hevents) as (appended & Hrun & Hlen).
    destruct (messages_step s e He) as [Hsame | (Hframe & msg & Hone)].
    + exists appended. rewrite Hrun, Hsame. split; [done|].
      simpl. destruct (isSocketMessage e); simpl; lia.
    + exists (msg :: appended). rewrite Hrun, Hone, <- app_assoc. split; [done|].
      simpl. rewrite Hframe. simpl. lia.
Qed.

End Untouched.

Lemma notice_stays_hidden_witness :
  noticeHidden
    (run (step (run Example.page
                  [Click "f-alice" "Alice Liddell";
                   StartResolves 0 (Example.startOk "conv-alice");
                   HistoryResolves 0 (Example.historyOk [Example.hi])])
            (SocketOpen 0))
       [SocketClose 0]).
Proof.
  apply (notice_stays_hidden (H := RefBrowser) _ 0%nat
           (Api.mkSocket (Some "conv-alice") Api.CONNECTING []) [SocketClose 0]).
  - reflexivity.
  - reflexivity.
  - discriminate.
Defined.

Lemma messages_only_grow_witness :
  ∃ appended,
    Chat.messages (run Example.chatting
                     [SocketMessage 0 "oops"; Input "x"; Submit; SocketClose 0; Tick 5])
    = [Example.hi] ++ appended
    ∧ (length appended ≤ 1)%nat.
Proof.
  exact (messages_only_grow (H := RefBrowser) Example.chatting
           [SocketMessage 0 "oops"; Input "x"; Submit; SocketClose 0; Tick 5] eq_refl).
Defined.

(* ------------------------------------------------------------------ *)
(** ** The socket wrapper *)

(** X5. [close()] is idempotent and keeps what was transmitted; after
    [close()] the wrapper never transmits, [send] leaving the socket as
    it is, as it does on every socket that is not open; on an open
    socket [send] appends the content after the earlier ones. *)
Theorem wrapper_close_then_send (k : Api.Socket) (content : string) :
  Api.close (Api.close k) = Api.close k
  ∧ Api.sent (Api.close k) = Api.sent k
  ∧ Api.send content (Api.close k) = Api.close k
  ∧ (Api.readyState k ≠ Api.OPEN → Api.send content k = k)
  ∧ (Api.readyState k = Api.OPEN →
     Api.send content k
     = Api.mkSocket (Api.conversationId k) Api.OPEN (Api.sent k ++ [content])).
Proof.
  split; [|split; [|split; [|split]]].
  - unfold Api.close. destruct (Api.readyState k) eqn:E; simpl; by rewrite ?E.
  - apply sent_close.
  - unfold Api.send, Api.close. destruct (Api.readyState k) eqn:E; simpl;
      rewrite ?E; simpl; try case_bool_decide; done.
  - intros Hk. unfold Api.send. by case_bool_decide.
  - intros Hk. unfold Api.send. by rewrite Hk.
Qed.

Lemma wrapper_close_then_send_witness :
  Api.send "hello" (Api.mkSocket (Some "c") Api.CONNECTING [])
  = Api.mkSocket (Some "c") Api.CONNECTING []
  ∧ Api.send "hello" (Api.mkSocket (Some "c") Api.OPEN ["a"])
    = Api.mkSocket (Some "c") Api.OPEN ["a"; "hello"].
Proof.
  split.
  - apply (proj1 (proj2 (proj2 (proj2
             (wrapper_close_then_send (Api.mkSocket (Some "c") Api.CONNECTING []) "hello"))))).
    discriminate.
  - apply (proj2 (proj2 (proj2 (proj2
             (wrapper_close_then_send (Api.mkSocket (Some "c") Api.OPEN ["a"]) "hello"))))).
    reflexivity.
Defined.

(* ------------------------------------------------------------------ *)
(** ** The rendering of the messages *)

Lemma getFriendName_nonempty (friends : list FriendInfo.t) (senderId : option string) :
  getFriendName friends senderId ≠ "".
Proof.
  unfold getFriendName. destruct (List.find _ friends) as [friend|]; [|done].
  unfold Js.or_else.
  destruct (FriendInfo.display_name friend) as [d|];
    [destruct (Js.truthy d) eqn:Ed; [by apply truthy_true_iff|]|];
    (destruct (FriendInfo.username friend) as [u|];
     [destruct (Js.truthy u) eqn:Eu; [by apply truthy_true_iff | done] | done]).
Qed.

(** X7. The name shown for a sender is never empty: it is the display
    name of the first friend with that identifier, or that friend's
    username when the display name is missing or empty, and ["User"]
    when both are, or when no friend has the identifier (as for a
    message without sender). *)
Theorem friend_name_never_empty (friends : list FriendInfo.t) (senderId : option string) :
  getFriendName friends senderId ≠ ""
  ∧ ((∀ f, f ∈ friends → Some (FriendInfo.friend_id f) ≠ senderId) →
     getFriendName friends senderId = "User")
  ∧ (∀ before friend after,
       friends = before ++ friend :: after →
       Some (FriendInfo.friend_id friend) = senderId →
       (∀ f, f ∈ before → Some (FriendInfo.friend_id f) ≠ senderId) →
       getFriendName friends senderId
       = if Js.truthy_opt (FriendInfo.display_name friend)
         then Js.text (FriendInfo.display_name friend)
         else if Js.truthy_opt (FriendInfo.username friend)
              then Js.text (FriendInfo.username friend)
              else "User").
Proof.
  split; [apply getFriendName_nonempty|]. split.
  - intros Hnone. unfold getFriendName.
    destruct (List.find _ friends) as [friend|] eqn:Hfind; [|done].
    apply List.find_some in Hfind as [Hin Hid].
    apply bool_decide_eq_true in Hid. apply list_elem_of_In in Hin.
    by destruct (Hnone friend Hin).
  - intros before friend after -> Hid Hbefore. unfold getFriendName.
    assert (Hfind : List.find
                      (λ f, bool_decide (Some (FriendInfo.friend_id f) = senderId))
                      (before ++ friend :: after) = Some friend).
    { induction before as [|f before IH]; simpl.
      - by rewrite bool_decide_eq_true_2.
      - rewrite bool_decide_eq_false_2 by (apply Hbefore; by left).
        apply IH. intros g Hg. apply Hbefore. by right. }
    rewrite Hfind. unfold Js.or_else, Js.truthy_opt, Js.text.
    destruct (FriendInfo.display_name friend) as [d|];
      [destruct (Js.truthy d)|]; try done;
      (destruct (FriendInfo.username friend) as [u|]; [by destruct (Js.truthy u) | done]).
Qed.

Lemma friend_name_never_empty_witness :
  getFriendName [Example.alice; Example.bob] (Some "f-bob") = "bob"
  ∧ getFriendName [Example.alice; Example.bob] None = "User".
Proof.
  destruct (friend_name_never_empty [Example.alice; Example.bob] (Some "f-bob"))
    as (_ & _ & Hbob).
  destruct (friend_name_never_empty [Example.alice; Example.bob] None)
    as (_ & Hnone & _).
  split.
  - apply (Hbob [Example.alice] Example.bob [] eq_refl eq_refl).
    intros f Hf. apply list_elem_of_singleton in Hf as ->. discriminate.
  - apply Hnone. intros f _. discriminate.
Defined.

Section Rows.
Context `{Browser}.
Variable currentUser : User.
Variable friends : list FriendInfo.t.
Variable now : Z.

Lemma grouped_renderRow (messages : list Message.t) (index : nat) (msg : Message.t)
  (rest : list Item) :
  grouped (renderRow currentUser friends now messages index msg ++ rest) = grouped rest.
Proof. unfold renderRow. by destruct (_ || _). Qed.

Lemma messageRows_app (a b : list Item) :
  messageRows (a ++ b) = messageRows a ++ messageRows b.
Proof. apply omap_app. Qed.

Lemma senderNames_app (a b : list Item) :
  senderNames (a ++ b) = senderNames a ++ senderNames b.
Proof. apply omap_app. Qed.

Lemma messageRows_renderRow (messages : list Message.t) (index : nat) (msg : Message.t) :
  messageRows (renderRow currentUser friends now messages index msg)
  = [(if bool_decide (Message.sender_id msg = Some (user_id currentUser))
      then self else other, Message.content msg)].
Proof. unfold renderRow. by destruct (_ || _). Qed.

Lemma senderNames_renderRow (messages : list Message.t) (index : nat) (msg : Message.t) :
  senderNames (renderRow currentUser friends now messages index msg)
  = [if bool_decide (Message.sender_id msg = Some (user_id currentUser))
     then "You" else getFriendName friends (Message.sender_id msg)].
Proof. unfold renderRow. by destruct (_ || _). Qed.

(** The rows of a loop whose every step is a [renderRow]. *)
Lemma rows_of_loop (g : nat → Message.t → list Item) (messages : list Message.t) :
  (∀ i msg, ∃ all index, g i msg = renderRow currentUser friends now all index msg) →
  let html := concat (imap g messages) in
  messageRows html
  = (λ msg, (if bool_decide (Message.sender_id msg = Some (user_id currentUser))
             then self else other, Message.content msg)) <$> messages
  ∧ grouped html = true
  ∧ length html = (length messages + markers html)%nat
  ∧ Forall (λ name, name ≠ "") (senderNames html).
Proof.
  revert g. induction messages as [|msg rest IH]; intros g Hg; [done|].
  rewrite imap_cons. simpl concat. cbv zeta.
  destruct (IH (g ∘ S)) as (Hrows & Hgrouped & Hlength & Hnames).
  { intros i m. apply Hg. }
  destruct (Hg 0%nat msg) as (all & index & ->).
  rewrite messageRows_app, messageRows_renderRow, grouped_renderRow,
    senderNames_app, senderNames_renderRow, length_app, markers_app, Hlength.
  split; [by rewrite Hrows|]. split; [done|]. split.
  - unfold renderRow. destruct (_ || _); simpl; lia.
  - apply Forall_app. split; [|done]. constructor; [|constructor].
    case_bool_decide; [done | apply getFriendName_nonempty].
Qed.

(** X6. The rendering shows every message exactly once and in the
    stored order, with its content and on the side of its sender (self
    exactly when the sender is the authenticated user); the markup is a
    sequence of message rows, each with at most one date separator in
    front of it and none left dangling; it starts with a separator, and no
    message row carries an empty sender name. *)
Theorem rendering_keeps_messages (messages : list Message.t) :
  let html := renderHtml currentUser friends now messages in
  messageRows html
  = (λ msg, (if bool_decide (Message.sender_id msg = Some (user_id currentUser))
             then self else other, Message.content msg)) <$> messages
  ∧ grouped html = true
  ∧ length html = (length messages + markers html)%nat
  ∧ (messages ≠ [] → ∃ label rest, html = DateSeparator label :: rest)
  ∧ Forall (λ name, name ≠ "") (senderNames html).
Proof.
  destruct (rows_of_loop (renderRow currentUser friends now messages) messages)
    as (Hrows & Hgrouped & Hlength & Hnames); [by eauto|].
  cbv zeta. unfold renderHtml.
  repeat (split; [done|]). split; [|done].
  intros Hne. destruct messages as [|msg rest]; [done|].
  rewrite imap_cons. simpl. eauto.
Qed.

End Rows.

Lemma rendering_keeps_messages_witness :
  ∃ label rest,
    renderHtml Example.me [Example.alice] Example.noon [Example.hi; Example.later]
    = DateSeparator label :: rest.
Proof.
  apply (rendering_keeps_messages (H := RefBrowser) Example.me [Example.alice]
           Example.noon [Example.hi; Example.later]).
  discriminate.
Defined.

(* ------------------------------------------------------------------ *)
(** ** Trailing slashes *)

Lemma append_assoc (a b c : string) : (a +:+ b) +:+ c = a +:+ (b +:+ c).
Proof. induction a as [|x a IH]; [done|]. by rewrite !append_cons, IH. Qed.

Lemma append_empty_r (a : string) : a +:+ "" = a.
Proof. induction a as [|x a IH]; [done|]. by rewrite append_cons, IH. Qed.

Lemma append_length (a b : string) :
  String.length (a +:+ b) = (String.length a + String.length b)%nat.
Proof. induction a as [|x a IH]; [done|]. rewrite append_cons. simpl. by rewrite IH. Qed.

Lemma stripTrailingSlashes_cons (c : ascii) (r : string) :
  Str.stripTrailingSlashes (String c r)
  = match Str.stripTrailingSlashes r with
    | EmptyString => if Ascii.eqb c "/" then EmptyString else String c EmptyString
    | r' => String c r'
    end.
Proof. reflexivity. Qed.

Lemma endsWith_cons (c : ascii) (r p : string) :
  Str.endsWith (String c r) p = bool_decide (String c r = p) || Str.endsWith r p.
Proof. reflexivity. Qed.

(** Only slashes are removed. *)
Lemma stripTrailingSlashes_slashes (s : string) :
  ∃ n, s = Str.stripTrailingSlashes s +:+ Str.slashes n.
Proof.
  induction s as [|c r [n IH]]; [by exists 0%nat|].
  rewrite stripTrailingSlashes_cons.
  destruct (Str.stripTrailingSlashes r) as [|c' r'] eqn:E.
  - destruct (Ascii.eqb_spec c "/") as [-> | Hc].
    + exists (S n). rewrite append_nil in *. simpl. by rewrite <- IH.
    + exists n. rewrite append_cons. by rewrite <- IH.
  - exists n. rewrite append_cons. by rewrite <- IH.
Qed.

(** Nothing is left to remove. *)
Lemma stripTrailingSlashes_done (s : string) :
  Str.endsWith (Str.stripTrailingSlashes s) "/" = false.
Proof.
  induction s as [|c r IH]; [done|].
  rewrite stripTrailingSlashes_cons.
  destruct (Str.stripTrailingSlashes r) as [|c' r'] eqn:E.
  - destruct (Ascii.eqb_spec c "/") as [-> | Hc]; [done|].
    rewrite endsWith_cons. simpl. rewrite orb_false_r.
    apply bool_decide_eq_false. congruence.
  - rewrite endsWith_cons, IH, orb_false_r. by apply bool_decide_eq_false.
Qed.

Lemma stripTrailingSlashes_fixed (s : string) :
  Str.endsWith s "/" = false → Str.stripTrailingSlashes s = s.
Proof.
  induction s as [|c r IH]; [done|].
  rewrite endsWith_cons, stripTrailingSlashes_cons.
  intros Hs. apply orb_false_iff in Hs as [Hc Hr]. rewrite (IH Hr).
  destruct r as [|c' r']; [|done].
  destruct (Ascii.eqb_spec c "/") as [-> | Hne]; [|done].
  by apply bool_decide_eq_false in Hc.
Qed.

(** X8. [initAPI] leaves [API_BASE] as it is when the .env file cannot
    be fetched, is not served with an ok status, or gives no non-empty
    [BACKEND_URL]; otherwise [API_BASE] becomes that URL without the
    slashes at its end.  So an [API_BASE] that does not end with a slash
    never comes to end with one, and normalising is idempotent. *)
Theorem initAPI_no_trailing_slash (API_BASE : string) (fetched : Client.EnvFetch) :
  (Str.endsWith API_BASE "/" = false →
   Str.endsWith (Client.initAPI API_BASE fetched) "/" = false)
  ∧ (∀ url, Client.loadEnv fetched !! "BACKEND_URL" = Some url → url ≠ "" →
            ∃ n, url = Client.initAPI API_BASE fetched +:+ Str.slashes n)
  ∧ (Client.loadEnv fetched !! "BACKEND_URL" = None ∨
     Client.loadEnv fetched !! "BACKEND_URL" = Some "" →
     Client.initAPI API_BASE fetched = API_BASE)
  ∧ (∀ text, Client.loadEnv Client.EnvUnreachable = ∅
             ∧ Client.loadEnv (Client.EnvResponse false text) = ∅)
  ∧ Str.stripTrailingSlashes (Str.stripTrailingSlashes API_BASE)
    = Str.stripTrailingSlashes API_BASE.
Proof.
  unfold Client.initAPI. split; [|split; [|split; [|split]]].
  - intros Hbase. destruct (Client.loadEnv fetched !! "BACKEND_URL") as [url|]; [|done].
    destruct (Js.truthy url); [apply stripTrailingSlashes_done | done].
  - intros url -> Hurl. apply truthy_true_iff in Hurl as ->.
    apply stripTrailingSlashes_slashes.
  - by intros [-> | ->].
  - done.
  - apply stripTrailingSlashes_fixed, stripTrailingSlashes_done.
Qed.

Lemma initAPI_no_trailing_slash_witness :
  Client.initAPI "" (Client.EnvResponse true "BACKEND_URL=https://api.example.com//")
  = "https://api.example.com"
  ∧ Str.endsWith
      (Client.initAPI "" (Client.EnvResponse true "BACKEND_URL=https://api.example.com//"))
      "/" = false.
Proof.
  split; [reflexivity|].
  apply (initAPI_no_trailing_slash ""
           (Client.EnvResponse true "BACKEND_URL=https://api.example.com//")).
  reflexivity.
Defined.

(** X9. The configuration endpoint answers 405 with an [Allow: GET]
    header and no configuration to every method other than GET; to GET
    it answers 200 with the [BACKEND_URL] of the environment without the
    slashes at its end, the empty text when the variable is not set. *)
Theorem config_handler_responses (method : string) (BACKEND_URL : option string) :
  let res := Config.handler method BACKEND_URL in
  (method ≠ "GET" →
   Config.status res = 405%nat
   ∧ Config.headers res = [("Allow", "GET")]
   ∧ Config.body res = Config.ErrorBody "Method not allowed")
  ∧ (method = "GET" →
     Config.status res = 200%nat
     ∧ ∃ url n,
         Config.body res = Config.ConfigBody url
         ∧ Str.endsWith url "/" = false
         ∧ Js.text BACKEND_URL = url +:+ Str.slashes n).
Proof.
  unfold Config.handler. split.
  - intros Hm. by rewrite bool_decide_eq_false_2.
  - intros ->. simpl. split; [done|].
    destruct (stripTrailingSlashes_slashes (Js.or_else BACKEND_URL "")) as [n Hn].
    exists (Str.stripTrailingSlashes (Js.or_else BACKEND_URL "")), n.
    split; [done|]. split; [apply stripTrailingSlashes_done|].
    by rewrite <- or_else_empty.
Qed.

Lemma config_handler_responses_witness :
  Config.body (Config.handler "GET" (Some "https://api.example.com/"))
  = Config.ConfigBody "https://api.example.com"
  ∧ Config.status (Config.handler "DELETE" (Some "https://api.example.com/")) = 405%nat.
Proof.
  split.
  - reflexivity.
  - apply (proj1 (config_handler_responses "DELETE" (Some "https://api.example.com/"))).
    discriminate.
Defined.

(* ------------------------------------------------------------------ *)
(** ** The .env file *)

Lemma trimEnd_cons (c : ascii) (r : string) :
  Js.trimEnd (String c r)
  = match Js.trimEnd r with
    | EmptyString => if Js.isWhiteSpace c then EmptyString else String c EmptyString
    | r' => String c r'
    end.
Proof. reflexivity. Qed.

Lemma trimStart_length (s : string) :
  (String.length (Js.trimStart s) ≤ String.length s)%nat.
Proof.
  induction s as [|c r IH]; [done|]. simpl.
  destruct (Js.isWhiteSpace c); simpl; lia.
Qed.

(** A text without white space in front starts with another character. *)
Lemma bare_head (c : ascii) (r : string) :
  Js.trimStart (String c r) = String c r → Js.isWhiteSpace c = false.
Proof.
  simpl. destruct (Js.isWhiteSpace c); [|done]. intros E.
  pose proof (trimStart_length r) as Hlen. rewrite E in Hlen. simpl in Hlen. lia.
Qed.

Lemma trimStart_blank_app (a x : string) :
  blank a = true → Js.trimStart (a +:+ x) = Js.trimStart x.
Proof.
  induction a as [|c a IH]; [done|]. intros Ha. rewrite append_cons.
  simpl in *. apply andb_true_iff in Ha as [Hc Ha]. rewrite Hc. auto.
Qed.

Lemma trimStart_bare_app (k x : string) :
  k ≠ "" → Js.trimStart k = k → Js.trimStart (k +:+ x) = k +:+ x.
Proof.
  destruct k as [|c r]; [done|]. intros _ Hk. apply bare_head in Hk.
  rewrite append_cons. simpl. by rewrite Hk.
Qed.

Lemma trimEnd_blank (b : string) : blank b = true → Js.trimEnd b = "".
Proof.
  induction b as [|c b IH]; [done|]. simpl. intros Hb.
  apply andb_true_iff in Hb as [Hc Hb]. by rewrite (IH Hb), Hc.
Qed.

Lemma trimEnd_app_blank (s b : string) :
  blank b = true → Js.trimEnd (s +:+ b) = Js.trimEnd s.
Proof.
  intros Hb. induction s as [|c s IH]; [by apply trimEnd_blank|].
  by rewrite append_cons, !trimEnd_cons, IH.
Qed.

Lemma trimEnd_app_kept (x y : string) :
  Js.trimEnd y ≠ "" → Js.trimEnd (x +:+ y) = x +:+ Js.trimEnd y.
Proof.
  intros Hy. induction x as [|c x IH]; [done|].
  rewrite !append_cons, trimEnd_cons, IH.
  destruct (x +:+ Js.trimEnd y) as [|c' r'] eqn:E; [|done].
  destruct x; [by rewrite append_nil in E | by rewrite append_cons in E].
Qed.

Lemma trimEnd_kept_cons (c : ascii) (z : string) :
  Js.isWhiteSpace c = false → Js.trimEnd (String c z) = String c (Js.trimEnd z).
Proof. intros Hc. rewrite trimEnd_cons, Hc. by destruct (Js.trimEnd z). Qed.

Lemma indexOf_app_found (c : ascii) (a r : string) :
  Str.indexOf c a = None → Str.indexOf c (a +:+ String c r) = Some (String.length a).
Proof.
  induction a as [|x a IH]; intros Ha.
  - rewrite append_nil. simpl. by rewrite Ascii.eqb_refl.
  - rewrite append_cons. simpl in *. destruct (Ascii.eqb x c); [done|].
    destruct (Str.indexOf c a); [done|]. by rewrite IH.
Qed.

Lemma indexOf_app_none (c : ascii) (a b : string) :
  Str.indexOf c a = None → Str.indexOf c b = None → Str.indexOf c (a +:+ b) = None.
Proof.
  intros Ha Hb. induction a as [|x a IH]; [done|].
  rewrite append_cons. simpl in *. destruct (Ascii.eqb x c); [done|].
  destruct (Str.indexOf c a); [done|]. by rewrite IH.
Qed.

Lemma indexOf_blank (b : string) : blank b = true → Str.indexOf "=" b = None.
Proof.
  induction b as [|c b IH]; [done|]. simpl. intros Hb.
  apply andb_true_iff in Hb as [Hc Hb].
  destruct (Ascii.eqb_spec c "=") as [-> | _]; [done|]. by rewrite (IH Hb).
Qed.

Lemma substring_all (s : string) : substring 0 (String.length s) s = s.
Proof. induction s as [|c s IH]; [done|]. simpl. by rewrite IH. Qed.

Lemma substring_app_l (a b : string) : substring 0 (String.length a) (a +:+ b) = a.
Proof.
  induction a as [|c a IH]; [by destruct b|]. rewrite append_cons. simpl. by rewrite IH.
Qed.

Lemma substring_app_r (a b : string) (n m : nat) :
  substring (String.length a + n) m (a +:+ b) = substring n m b.
Proof. induction a as [|c a IH]; [done|]. rewrite append_cons. simpl. apply IH. Qed.

Lemma sliceTo_app (a b : string) : Str.sliceTo (String.length a) (a +:+ b) = a.
Proof. apply substring_app_l. Qed.

Lemma sliceFrom_app (a : string) (c : ascii) (r : string) :
  Str.sliceFrom (String.length a + 1) (a +:+ String c r) = r.
Proof.
  unfold Str.sliceFrom. rewrite substring_app_r, append_length. simpl.
  replace (String.length a + S (String.length r) - (String.length a + 1))%nat
    with (String.length r) by lia.
  apply substring_all.
Qed.

Lemma append_nonempty (a b : string) : a ≠ "" → a +:+ b ≠ "".
Proof. destruct a; [done|]. intros _. by rewrite append_cons. Qed.

Lemma startsWith_app (k x p : string) (c : ascii) :
  k ≠ "" → Str.startsWith (k +:+ x) (String c "") = Str.startsWith k (String c "").
Proof.
  destruct k as [|c' r]; [done|]. intros _. rewrite append_cons.
  unfold Str.startsWith. simpl. destruct (ascii_dec c c'); [|done].
  by destruct (r +:+ x), r.
Qed.

(** The text of a line around its equals sign once the white space
    around the key and the value is gone. *)
Lemma trim_assignment_line (a k b c v d : string) :
  blank a = true → blank b = true → blank c = true → blank d = true →
  k ≠ "" → bare k → bare v →
  Js.trim (a +:+ k +:+ b +:+ "=" +:+ c +:+ v +:+ d)
  = (k +:+ b) +:+ String "=" (if bool_decide (v = "") then "" else c +:+ v).
Proof.
  intros Ha Hb Hc Hd Hk [Hk1 Hk2] [Hv1 Hv2]. unfold Js.trim.
  rewrite trimStart_blank_app by done.
  rewrite trimStart_bare_app by done.
  assert (Hz : Js.trimEnd (c +:+ v +:+ d) = if bool_decide (v = "") then "" else c +:+ v).
  { rewrite <- append_assoc, trimEnd_app_blank by done.
    case_bool_decide as Hv.
    - subst v. rewrite append_empty_r. by apply trimEnd_blank.
    - rewrite trimEnd_app_kept; rewrite Hv2; done. }
  rewrite <- (append_assoc k b).
  change ("=" +:+ c +:+ v +:+ d) with (String "=" (c +:+ v +:+ d)).
  rewrite trimEnd_app_kept; rewrite (trimEnd_kept_cons "=") by done; [|done].
  by rewrite Hz.
Qed.

(** X10. A line of the .env file of the form [key = value], with any
    white space around the key, the equals sign and the value, assigns
    the value to the key, when the key is not empty, has no equals sign
    and does not start with [#]; a value wrapped in one kind of quotes
    is assigned without them, with the spaces inside kept; an empty
    value is assigned as the empty text. *)
Theorem env_line_assigns (a k b c v d : string) :
  blank a = true → blank b = true → blank c = true → blank d = true →
  k ≠ "" → bare k → Str.indexOf "=" k = None → Str.startsWith k "#" = false →
  bare v →
  Client.assignment (a +:+ k +:+ b +:+ "=" +:+ c +:+ v +:+ d)
  = Some (k, if quoted v then Str.sliceInner v else v).
Proof.
  intros Ha Hb Hc Hd Hk Hbare Heq Hhash Hv. unfold Client.assignment.
  rewrite (trim_assignment_line a k b c v d) by done.
  set (w := if bool_decide (v = "") then "" else c +:+ v).
  assert (Hw : Js.trim w = v).
  { subst w. unfold Js.trim. case_bool_decide as E; [by subst v|].
    rewrite trimStart_blank_app by done. destruct Hv as [-> ->]. done. }
  assert (Htruthy : Js.truthy ((k +:+ b) +:+ String "=" w) = true).
  { apply truthy_true_iff. rewrite append_assoc. by apply append_nonempty. }
  rewrite Htruthy. simpl negb.
  rewrite append_assoc, (startsWith_app k _ "" "#") by done. rewrite Hhash.
  rewrite <- append_assoc. simpl orb. cbv iota.
  rewrite indexOf_app_found by (apply indexOf_app_none; [done | by apply indexOf_blank]).
  cbv zeta. rewrite sliceTo_app, sliceFrom_app, Hw.
  f_equal. f_equal.
  destruct Hbare as [Hk1 Hk2]. unfold Js.trim.
  by rewrite trimStart_bare_app, trimEnd_app_blank.
Qed.

Lemma env_line_assigns_witness :
  Client.assignment "  BACKEND_URL = https://api.example.com/  "
  = Some ("BACKEND_URL", "https://api.example.com/")
  ∧ Client.assignment "TITLE='  Giga Chat  '" = Some ("TITLE", "  Giga Chat  ").
Proof.
  split.
  - apply (env_line_assigns "  " "BACKEND_URL" " " " " "https://api.example.com/" "  ");
      try reflexivity; try discriminate; by split.
  - apply (env_line_assigns "" "TITLE" "" "" "'  Giga Chat  '" "");
      try reflexivity; try discriminate; by split.
Defined.







(* ------------------------------------------------------------------ *)
(** ** Requests *)

Lemma or_else_nonempty (o : option string) (d : string) : d ≠ "" → Js.or_else o d ≠ "".
Proof.
  intros Hd. unfold Js.or_else. destruct o as [s|]; [|done].
  destruct (Js.truthy s) eqn:E; [by apply truthy_true_iff | done].
Qed.

(** X12. [request] returns exactly when [fetch] resolved with an ok
    response, and then gives the parsed body only when the content type
    names JSON and the body parses, [null] otherwise; in every other
    case it throws an error whose message is never empty (the error
    text of the body when it has one, else the status line, or the
    network notice), and that carries a status exactly when there was a
    response. *)
Theorem request_outcomes {A : Type} (fetched : Client.Fetched A) :
  ((∃ data, Client.request fetched = Client.Returns data)
   ↔ ∃ res, fetched = Client.Responds res ∧ Client.ok res = true)
  ∧ (∀ res data,
       fetched = Client.Responds res → Client.request fetched = Client.Returns data →
       data = (if Js.includes (Js.text (Client.contentType res)) "application/json"
               then Client.json res else None))
  ∧ (∀ message status data,
       Client.request fetched = Client.Throws message status data →
       message ≠ ""
       ∧ (status = None ↔ fetched = Client.NetworkError)
       ∧ (∀ res, fetched = Client.Responds res →
                 Client.ok res = false ∧ status = Some (Client.status res)
                 ∧ ((∀ text, data ≫= Client.error = Some text → text ≠ "" → message = text)
                    ∧ (data ≫= Client.error = None ∨ data ≫= Client.error = Some "" →
                       message = "Request failed with status " +:+ pretty (Client.status res))))).
Proof.
  destruct fetched as [|res]; simpl.
  - split; [|split].
    + split; [intros [data Hd]; discriminate | intros (res & Hres & _); discriminate].
    + intros res data Hres. discriminate.
    + intros message status data E. injection E as <- <- <-.
      split; [done|]. split; [done|]. intros res Hres. discriminate.
  - rewrite or_else_empty. destruct (Client.ok res) eqn:Hok; simpl.
    + split; [|split].
      * split; [intros _; by exists res | intros _; eauto].
      * intros res' data Hres E. injection Hres as <-. by injection E as <-.
      * intros message status data E. discriminate.
    + split; [|split].
      * split; [intros [data Hd]; discriminate|].
        intros (res' & Hres & Hok'). injection Hres as <-. congruence.
      * intros res' data _ E. discriminate.
      * intros message status data E. injection E as <- <- <-.
        split; [apply or_else_nonempty; by apply append_nonempty|].
        split; [split; discriminate|].
        intros res' Hres. injection Hres as <-. split; [done|]. split; [done|].
        split.
        -- intros text -> Htext. unfold Js.or_else.
           by apply truthy_true_iff in Htext as ->.
        -- by intros [-> | ->].
Qed.

Lemma request_outcomes_witness :
  Client.request (A := unit)
    (Client.Responds
       (Client.mkResponse false 404 (Some "application/json")
          (Some (Client.mkJsonBody (Some "Conversation not found") ()))))
  = Client.Throws "Conversation not found" (Some 404%nat)
      (Some (Client.mkJsonBody (Some "Conversation not found") ()))
  ∧ "Conversation not found" ≠ "".
Proof.
  split; [reflexivity|].
  apply (proj2 (proj2 (request_outcomes (A := unit)
                         (Client.Responds
                            (Client.mkResponse false 404 (Some "application/json")
                               (Some (Client.mkJsonBody (Some "Conversation not found") ()))))))
           "Conversation not found" (Some 404%nat)
           (Some (Client.mkJsonBody (Some "Conversation not found") ())) eq_refl).
Defined.

Section FailedRequests.
Context `{Browser}.

Lemma lookup_last_task (s : Chat.State) (friendId name : string) :
  Chat.tasks (step s (Click friendId name)) !! length (Chat.tasks s)
  = Some (Chat.AwaitStart friendId).
Proof.
  destruct (openConversation_suspended friendId name s) as (Ht & _).
  change (step s (Click friendId name)) with (Chat.openConversation friendId name s).
  by rewrite Ht, lookup_app_r, Nat.sub_diag.
Qed.

(** After its [catch] block the call has returned and the page has no
    further socket and no further request. *)
Lemma afterRejection_effect (task : nat) (message : string) (s : Chat.State) :
  (task < length (Chat.tasks s))%nat →
  let s' := Chat.afterRejection task message s in
  Chat.tasks s' !! task = Some Chat.Returned
  ∧ Chat.wsConnection s' = Chat.wsConnection s
  ∧ Chat.sockets s' = Chat.sockets s
  ∧ Chat.requests s' = Chat.requests s
  ∧ Chat.messages s' = Chat.messages s
  ∧ Chat.toasts s'
    = Chat.toasts s ++ [("Failed to open conversation: " +:+ message, "error")]
  ∧ (Chat.messagesArea s ≠ None → Chat.messagesArea s' = Some (LoadFailed message)).
Proof.
  intros Htask s'. subst s'.
  unfold Chat.afterRejection, Chat.openFailed, Chat.showToast, Chat.showInMessagesArea.
  simpl.
  destruct (Chat.messagesArea s); simpl;
    (split; [by apply list_lookup_insert_eq|]); repeat split; done.
Qed.

(** A lookup that gives an identifier suspends the call at the history
    request and changes nothing else a failure would show. *)
Lemma afterStart_requested (task : nat) (cid : string) (s : Chat.State) :
  cid ≠ "" →
  let s' := Chat.afterStart task (Some (Chat.Build_StartResponse (Some cid))) s in
  Chat.tasks s' = <[task := Chat.AwaitHistory cid]> (Chat.tasks s)
  ∧ Chat.wsConnection s' = Chat.wsConnection s
  ∧ Chat.sockets s' = Chat.sockets s
  ∧ Chat.requests s' = Chat.requests s ++ [Chat.GetMessages cid]
  ∧ Chat.messages s' = Chat.messages s
  ∧ Chat.toasts s' = Chat.toasts s
  ∧ Chat.messagesArea s' = Chat.messagesArea s.
Proof.
  intros Hcid s'. subst s'. unfold Chat.afterStart. simpl.
  apply truthy_true_iff in Hcid. by rewrite Hcid.
Qed.

(** X13. A failed request of [openConversation] ends the call in its
    error handler, whatever the failure.  If the lookup request throws
    (a network error or a response that is not ok), or if, after a
    lookup that gave an identifier, the history request throws or
    returns [null], then the call has returned, a toast and the failure
    notice show the message of the error, no socket was created, the
    page has no channel and its messages are empty; in the second case
    the message is the one [request] threw, or that of the type error
    raised by reading [messages] of [null]. *)
Theorem failed_request_opens_no_channel (s : Chat.State) (friendId name : string) :
  Chat.messagesArea s ≠ None →
  let task := length (Chat.tasks s) in
  let s1 := step s (Click friendId name) in
  (∀ lookup message status data,
     Client.request lookup = Client.Throws message status data →
     let s2 := step s1 (Client.startSettles task (Client.request lookup)) in
     Chat.tasks s2 !! task = Some Chat.Returned
     ∧ Chat.wsConnection s2 = None
     ∧ Chat.sockets s2 = Chat.sockets s1
     ∧ Chat.requests s2 = Chat.requests s ++ [Chat.PostConversations friendId]
     ∧ Chat.messages s2 = []
     ∧ Chat.toasts s2
       = Chat.toasts s ++ [("Failed to open conversation: " +:+ message, "error")]
     ∧ Chat.messagesArea s2 = Some (LoadFailed message))
  ∧ (∀ lookup body cid history,
       Client.request lookup = Client.Returns (Some body) →
       Chat.start_conversation_id (Client.payload body) = Some cid →
       cid ≠ "" →
       (∀ answer, Client.request history ≠ Client.Returns (Some answer)) →
       let s2 := step s1 (Client.startSettles task (Client.request lookup)) in
       let s3 := step s2 (Client.historySettles task (Client.request history)) in
       let message :=
         match Client.request history with
         | Client.Throws thrown _ _ => thrown
         | Client.Returns _ => typeErrorMessage
         end in
       Chat.tasks s3 !! task = Some Chat.Returned
       ∧ Chat.wsConnection s3 = None
       ∧ Chat.sockets s3 = Chat.sockets s1
       ∧ Chat.requests s3
         = Chat.requests s ++ [Chat.PostConversations friendId; Chat.GetMessages cid]
       ∧ Chat.messages s3 = []
       ∧ Chat.toasts s3
         = Chat.toasts s ++ [("Failed to open conversation: " +:+ message, "error")]
       ∧ Chat.messagesArea s3 = Some (LoadFailed message)).
Proof.
  intros Harea task s1.
  pose proof (lookup_last_task s friendId name) as Hlast.
  destruct (openConversation_suspended friendId name s)
    as (Ht & Er & Ew & _ & Em & Eo & _ & Ev).
  change (Chat.openConversation friendId name s) with s1 in Ht, Er, Ew, Em, Eo, Ev.
  fold task s1 in Hlast.
  assert (Hlen : (task < length (Chat.tasks s1))%nat)
    by (apply lookup_lt_is_Some; eauto).
  assert (Harea1 : Chat.messagesArea s1 ≠ None) by (by rewrite Ev).
  clearbody s1. split.
  - intros lookup message status data ->. simpl. rewrite Hlast.
    destruct (afterRejection_effect task message s1 Hlen)
      as (Ft & Fw & Fs & Fr & Fm & Fo & Fv).
    rewrite Fw, Fs, Fr, Fm, Fo, Ew, Er, Em, Eo. repeat split; auto.
  - intros lookup body cid history -> Hid Hcid Hnone.
    destruct body as [err [id]]. simpl in Hid. subst id.
    assert (Hs2 :
      step s1 (Client.startSettles task
                 (Client.Returns
                    (Some (Client.mkJsonBody err (Chat.Build_StartResponse (Some cid))))))
      = Chat.afterStart task (Some (Chat.Build_StartResponse (Some cid))) s1)
      by (simpl; by rewrite Hlast).
    cbv zeta. rewrite Hs2. clear Hs2.
    destruct (afterStart_requested task cid s1 Hcid)
      as (Gt & Gw & Gs & Gr & Gm & Go & Gv).
    set (s2 := Chat.afterStart task (Some (Chat.Build_StartResponse (Some cid))) s1)
      in *.
    assert (Hlen2 : (task < length (Chat.tasks s2))%nat)
      by (by rewrite Gt, length_insert).
    assert (Hlast2 : Chat.tasks s2 !! task = Some (Chat.AwaitHistory cid))
      by (rewrite Gt; by apply list_lookup_insert_eq).
    assert (Harea2 : Chat.messagesArea s2 ≠ None) by (by rewrite Gv).
    clearbody s2.
    assert (Hend : ∀ message,
      let s3 := Chat.afterRejection task message s2 in
      Chat.tasks s3 !! task = Some Chat.Returned
      ∧ Chat.wsConnection s3 = None
      ∧ Chat.sockets s3 = Chat.sockets s1
      ∧ Chat.requests s3
        = Chat.requests s ++ [Chat.PostConversations friendId; Chat.GetMessages cid]
      ∧ Chat.messages s3 = []
      ∧ Chat.toasts s3
        = Chat.toasts s ++ [("Failed to open conversation: " +:+ message, "error")]
      ∧ Chat.messagesArea s3 = Some (LoadFailed message)).
    { intros message s3. subst s3.
      destruct (afterRejection_effect task message s2 Hlen2)
        as (Ft & Fw & Fs & Fr & Fm & Fo & Fv).
      rewrite Fw, Fs, Fr, Fm, Fo, Gw, Gs, Gr, Gm, Go, Ew, Er, Em, Eo.
      rewrite <- app_assoc. simpl. repeat split; auto. }
    destruct (Client.request history) as [[answer|]|thrown status data]; simpl.
    + by destruct (Hnone answer).
    + rewrite Hlast2. apply (Hend typeErrorMessage).
    + rewrite Hlast2. apply (Hend thrown).
Qed.

End FailedRequests.

Lemma failed_request_opens_no_channel_witness :
  Chat.messagesArea Example.page ≠ None
  ∧ Chat.toasts
      (step (step Example.page (Click "f-alice" "Alice Liddell"))
         (Client.startSettles 0 (Client.request Client.NetworkError)))
    = [("Failed to open conversation: Network error – is the backend running?", "error")].
Proof.
  assert (Harea : Chat.messagesArea Example.page ≠ None) by (vm_compute; discriminate).
  split; [exact Harea|].
  apply (proj1 (failed_request_opens_no_channel (H := RefBrowser) Example.page
                  "f-alice" "Alice Liddell" Harea)
           Client.NetworkError _ None None eq_refl).
Defined.

(* ------------------------------------------------------------------ *)
(** ** Avatar colours *)

Lemma toInt32_range (x : Z) : (- 2 ^ 31 <= toInt32 x < 2 ^ 31)%Z.
Proof.
  unfold toInt32.
  pose proof (Z.mod_pos_bound (x + 2 ^ 31) (2 ^ 32) ltac:(lia)). lia.
Qed.

Lemma nat_of_ascii_bound (c : ascii) : (nat_of_ascii c < 256)%nat.
Proof. apply nat_ascii_bounded. Qed.

Lemma hashStep_bound (hash : Z) (c : ascii) :
  (Z.abs (hashStep hash c) <= Z.abs hash + (2 ^ 31 + 255))%Z.
Proof.
  unfold hashStep, shiftLeft.
  pose proof (toInt32_range (Z.shiftl (toInt32 hash) (5 mod 32))).
  pose proof (nat_of_ascii_bound c). lia.
Qed.

Lemma hashFrom_bound (str : string) (hash : Z) :
  (Z.abs (hashFrom hash str)
   <= Z.abs hash + Z.of_nat (String.length str) * (2 ^ 31 + 255))%Z.
Proof.
  revert hash. induction str as [|c r IH]; intros hash; simpl hashFrom.
  - simpl. lia.
  - pose proof (IH (hashStep hash c)). pose proof (hashStep_bound hash c).
    change (String.length (String c r)) with (S (String.length r)). lia.
Qed.

(** X14. [getAvatarColor] always returns one of the six colours of the
    palette, also when the hash is negative, and the first colour for a
    missing or empty id.  For an id of at most 2^21 characters every
    value the hash takes during the loop stays within the integers that
    numbers represent exactly, so that the colour is the one of the
    integer computation. *)
Theorem avatar_color_in_palette (id : option string) :
  (∃ color, getAvatarColor id = Some color ∧ color ∈ AVATAR_COLORS)
  ∧ (Js.truthy_opt id = false → getAvatarColor id = Some "#2A8A8A")
  ∧ (∀ str seen rest,
       id = Some str → str = seen +:+ rest →
       (Z.of_nat (String.length str) <= 2 ^ 21)%Z →
       (Z.abs (hashFrom 0 seen) <= MAX_SAFE_INTEGER)%Z).
Proof.
  split; [|split].
  - unfold getAvatarColor. destruct (Js.truthy_opt id); simpl.
    + set (hash := hashFrom 0 (Js.text id)).
      pose proof (Z.mod_pos_bound (Z.abs hash) 6 ltac:(lia)) as Hm.
      destruct (AVATAR_COLORS !! Z.to_nat (Z.abs hash mod 6)) as [color|] eqn:E.
      * exists color. split; [done|]. by apply list_elem_of_lookup_2 in E.
      * apply lookup_ge_None in E. simpl in E. lia.
    + exists "#2A8A8A". split; [done|]. apply list_elem_of_here.
  - intros Hid. unfold getAvatarColor. by rewrite Hid.
  - intros str seen rest _ -> Hlen.
    pose proof (hashFrom_bound seen 0) as Hb.
    rewrite append_length, Nat2Z.inj_add in Hlen.
    unfold MAX_SAFE_INTEGER. nia.
Qed.

Lemma avatar_color_in_palette_witness :
  (Z.of_nat (String.length "f-alice") <= 2 ^ 21)%Z
  ∧ (Z.abs (hashFrom 0 "f-al") <= MAX_SAFE_INTEGER)%Z.
Proof.
  assert (Hlen : (Z.of_nat (String.length "f-alice") <= 2 ^ 21)%Z)
    by (vm_compute; discriminate).
  split; [exact Hlen|].
  apply (proj2 (proj2 (avatar_color_in_palette (Some "f-alice")))
           "f-alice" "f-al" "ice" eq_refl eq_refl Hlen).
Defined.

(* ------------------------------------------------------------------ *)
(** ** Adding a friend *)

Lemma times_Some (class : ascii → bool) (n : nat) (s r : string) :
  Re.times class n s = Some r
  ↔ ∃ a, s = a +:+ r ∧ String.length a = n ∧ Re.every class a = true.
Proof.
  revert s. induction n as [|n IH]; intros s; simpl.
  - split.
    + intros [= ->]. by exists "".
    + intros (a & -> & Ha & _). by destruct a.
  - destruct s as [|c s].
    + split; [done|]. intros (a & Hs & Ha & _). by destruct a.
    + destruct (class c) eqn:Hc.
      * rewrite IH. split.
        -- intros (a & -> & Ha & He). exists (String c a).
           rewrite append_cons. simpl. by rewrite Hc, Ha, He.
        -- intros (a & Hs & Ha & He). destruct a as [|c' a]; [done|].
           rewrite append_cons in Hs. injection Hs as <- ->. simpl in Ha, He.
           rewrite Hc in He. exists a. split; [done|]. split; [lia|done].
      * split; [done|]. intros (a & Hs & Ha & He). destruct a as [|c' a]; [done|].
        rewrite append_cons in Hs. injection Hs as <- ->. simpl in He.
        by rewrite Hc in He.
Qed.

Lemma literal_Some (c : ascii) (s r : string) :
  Re.literal c s = Some r ↔ s = String c r.
Proof.
  destruct s as [|c' s]; simpl; [done|].
  case_bool_decide; subst; split; congruence.
Qed.

Lemma atEnd_true (o : option string) : Re.atEnd o = true ↔ o = Some "".
Proof. destruct o as [[|c s]|]; simpl; split; congruence. Qed.

Lemma uuidRegex_uuid (s : string) : AddFriend.uuidRegex s = true ↔ uuid s.
Proof.
  unfold AddFriend.uuidRegex, Re.sequence, uuid, hexadecimal. cbn [foldl].
  rewrite atEnd_true. split.
  - intros Hs.
    apply bind_Some in Hs as (r8 & Hs & He).
    apply bind_Some in Hs as (r7 & Hs & H4).
    apply bind_Some in Hs as (r6 & Hs & Hd).
    apply bind_Some in Hs as (r5 & Hs & H3).
    apply bind_Some in Hs as (r4 & Hs & Hc).
    apply bind_Some in Hs as (r3 & Hs & H2).
    apply bind_Some in Hs as (r2 & Hs & Hb).
    apply bind_Some in Hs as (r1 & Hs & H1).
    apply bind_Some in Hs as (r0 & [= <-] & Ha).
    apply times_Some in He as (e & -> & He & He').
    apply literal_Some in H4 as ->.
    apply times_Some in Hd as (d & -> & Hd & Hd').
    apply literal_Some in H3 as ->.
    apply times_Some in Hc as (c & -> & Hc & Hc').
    apply literal_Some in H2 as ->.
    apply times_Some in Hb as (b & -> & Hb & Hb').
    apply literal_Some in H1 as ->.
    apply times_Some in Ha as (a & -> & Ha & Ha').
    exists a, b, c, d, e. rewrite append_empty_r. done.
  - intros (a & b & c & d & e & -> & [Ha Ha'] & [Hb Hb'] & [Hc Hc'] & [Hd Hd'] & [He He']).
    cbn [mbind option_bind].
    repeat match goal with
           | |- context [Re.times ?class ?n (?x +:+ ?y)] =>
               replace (Re.times class n (x +:+ y)) with (Some y)
                 by (symmetry; apply times_Some; by exists x);
               cbn [mbind option_bind]
           | |- context [Re.literal ?c' (String ?c' EmptyString +:+ ?y)] =>
               replace (Re.literal c' (String c' EmptyString +:+ y)) with (Some y)
                 by (symmetry; by apply literal_Some);
               cbn [mbind option_bind]
           end.
    apply times_Some. exists e. by rewrite append_empty_r.
Qed.

Lemma uuid_length (s : string) : uuid s → String.length s = 36%nat.
Proof.
  intros (a & b & c & d & e & -> & [Ha _] & [Hb _] & [Hc _] & [Hd _] & [He _]).
  rewrite !append_length, Ha, Hb, Hc, Hd, He. reflexivity.
Qed.

(** X15. [handleAddFriend] requests a friendship only with the trimmed
    text of the input, and only when that text has the form of a UUID
    (groups of 8, 4, 4, 4 and 12 hexadecimal digits in either case,
    joined by hyphens: 36 characters) and is not, character for
    character, the id of the user; any other text shows an error in the
    dialog and requests nothing. *)
Theorem add_friend_validated (value user_id : string) :
  let friendId := Js.trim value in
  let submitted := AddFriend.handleAddFriend (Some value) user_id in
  (∀ id, submitted = AddFriend.Add id
         ↔ id = friendId ∧ uuid friendId ∧ friendId ≠ user_id)
  ∧ (∀ id, submitted = AddFriend.Add id → String.length id = 36%nat)
  ∧ ((∀ id, submitted ≠ AddFriend.Add id)
     → ∃ text, submitted = AddFriend.ModalMessage text "error").
Proof.
  intros friendId submitted.
  assert (Hadd : ∀ id, submitted = AddFriend.Add id
                       ↔ id = friendId ∧ uuid friendId ∧ friendId ≠ user_id).
  { intros id. subst submitted. unfold AddFriend.handleAddFriend. fold friendId.
    destruct (Js.truthy friendId) eqn:Ht; simpl.
    - destruct (AddFriend.uuidRegex friendId) eqn:Hu; simpl.
      + apply uuidRegex_uuid in Hu. case_bool_decide.
        * split; [done|]. by intros (_ & _ & Hne).
        * split; [by intros [= <-]|]. by intros (-> & _ & _).
      + split; [done|]. intros (_ & Hu' & _). apply uuidRegex_uuid in Hu'. congruence.
    - split; [done|]. intros (_ & Hu' & _). apply uuid_length in Hu'.
      apply truthy_false_iff in Ht. by rewrite Ht in Hu'. }
  split; [exact Hadd|]. split.
  - intros id Hid. apply Hadd in Hid as (-> & Hu & _). by apply uuid_length.
  - intros Hnone. subst submitted. unfold AddFriend.handleAddFriend in *.
    fold friendId in Hnone |- *.
    destruct (Js.truthy friendId); simpl in *; [|eauto].
    destruct (AddFriend.uuidRegex friendId); simpl in *; [|eauto].
    case_bool_decide; [eauto|]. by destruct (Hnone friendId).
Qed.

Lemma add_friend_validated_witness :
  AddFriend.handleAddFriend (Some "  0123abcd-89AB-cdef-0000-0123456789ab ") "u-me"
  = AddFriend.Add "0123abcd-89AB-cdef-0000-0123456789ab"
  ∧ String.length "0123abcd-89AB-cdef-0000-0123456789ab" = 36%nat.
Proof.
  assert (E : AddFriend.handleAddFriend
                (Some "  0123abcd-89AB-cdef-0000-0123456789ab ") "u-me"
              = AddFriend.Add "0123abcd-89AB-cdef-0000-0123456789ab")
    by (vm_compute; reflexivity).
  split; [exact E|].
  exact (proj1 (proj2 (add_friend_validated
                         "  0123abcd-89AB-cdef-0000-0123456789ab " "u-me")) _ E).
Defined.

(* ------------------------------------------------------------------ *)
(** ** Editing the profile *)

Lemma whenFilled_Some (input : option string) (text : string) :
  EditProfile.whenFilled input = Some text
  ↔ ∃ value, input = Some value ∧ text = Js.trim value ∧ text ≠ "".
Proof.
  unfold EditProfile.whenFilled. destruct input as [value|].
  - destruct (Js.truthy (Js.trim value)) eqn:E.
    + apply truthy_true_iff in E. split.
      * intros [= <-]. by exists value.
      * by intros (v & [= <-] & -> & _).
    + apply truthy_false_iff in E. split; [done|].
      intros (v & [= <-] & -> & Hne). by destruct Hne.
  - split; [done|]. by intros (v & Hv & _).
Qed.

Lemma whenFilled_None (input : option string) :
  EditProfile.whenFilled input = None ↔ ∀ value, input = Some value → Js.trim value = "".
Proof.
  unfold EditProfile.whenFilled. destruct input as [value|].
  - destruct (Js.truthy (Js.trim value)) eqn:E.
    + apply truthy_true_iff in E. split; [done|]. intros Hv. by destruct E; apply Hv.
    + apply truthy_false_iff in E. split; [by intros _ v [= <-]|done].
  - split; [by intros _ v|done].
Qed.

(** X16. [handleEditProfile] sends the biography whenever the dialog
    has its input, trimmed and also when it is empty, so that with this
    input present the profile is always updated and "No changes to
    save." is never shown; a display name and an avatar address are
    sent only when something other than white space was entered, and
    then trimmed.  Nothing is sent exactly when there is no biography
    input and the two other inputs are blank or missing. *)
Theorem edit_profile_fields (displayNameInput bioInput avatarInput : option string) :
  let submitted :=
    EditProfile.handleEditProfile displayNameInput bioInput avatarInput in
  (∀ value, bioInput = Some value →
     ∃ fields, submitted = EditProfile.Update fields
               ∧ EditProfile.bio fields = Some (Js.trim value))
  ∧ (∀ fields, submitted = EditProfile.Update fields →
       (∀ name, EditProfile.display_name fields = Some name →
          name ≠ "" ∧ Js.trim name = name
          ∧ ∃ value, displayNameInput = Some value ∧ name = Js.trim value)
       ∧ (∀ url, EditProfile.avatar_url fields = Some url →
            url ≠ "" ∧ Js.trim url = url
            ∧ ∃ value, avatarInput = Some value ∧ url = Js.trim value))
  ∧ (submitted = EditProfile.Toast "No changes to save." "info"
     ↔ bioInput = None
       ∧ (∀ value, displayNameInput = Some value → Js.trim value = "")
       ∧ (∀ value, avatarInput = Some value → Js.trim value = "")).
Proof.
  intros submitted. subst submitted. unfold EditProfile.handleEditProfile.
  split; [|split].
  - intros value ->. unfold EditProfile.keys. simpl.
    destruct (EditProfile.whenFilled displayNameInput),
      (EditProfile.whenFilled avatarInput); simpl; eauto.
  - intros fields Hf.
    assert (fields = EditProfile.mkFields (EditProfile.whenFilled displayNameInput)
                       (Js.trim <$> bioInput) (EditProfile.whenFilled avatarInput))
      as -> by (destruct (_ =? _)%nat; congruence).
    simpl. split.
    + intros name Hn. apply whenFilled_Some in Hn as (value & -> & -> & Hne).
      split; [done|]. split; [apply trim_idempotent | eauto].
    + intros url Hn. apply whenFilled_Some in Hn as (value & -> & -> & Hne).
      split; [done|]. split; [apply trim_idempotent | eauto].
  - rewrite <- !whenFilled_None. unfold EditProfile.keys. simpl.
    destruct (EditProfile.whenFilled displayNameInput), bioInput,
      (EditProfile.whenFilled avatarInput); simpl; split; try done;
      intros (? & ? & ?); done.
Qed.

Lemma edit_profile_fields_witness :
  ∃ fields,
    EditProfile.handleEditProfile (Some "  ") (Some "") (Some "")
    = EditProfile.Update fields
    ∧ EditProfile.bio fields = Some (Js.trim "").
Proof.
  exact (proj1 (edit_profile_fields (Some "  ") (Some "") (Some "")) "" eq_refl).
Defined.

(* ------------------------------------------------------------------ *)
(** ** Password strength *)

Lemma some_app (class : ascii → bool) (a b : string) :
  Re.some class (a +:+ b) = Re.some class a || Re.some class b.
Proof.
  induction a as [|c a IH]; [done|].
  rewrite append_cons. simpl. by rewrite IH, orb_assoc.
Qed.

Lemma point_le (b b' : bool) : (b = true → b' = true) → (Auth.point b <= Auth.point b')%nat.
Proof. destruct b, b'; simpl; intros Hb; try lia; by specialize (Hb eq_refl). Qed.

Lemma score_app (before typed after : string) :
  (Auth.score typed <= Auth.score (before +:+ typed +:+ after))%nat.
Proof.
  unfold Auth.score. rewrite !some_app, !append_length.
  repeat apply Nat.add_le_mono; apply point_le.
  - rewrite !Nat.leb_le. lia.
  - rewrite !Nat.leb_le. lia.
  - rewrite !andb_true_iff, !orb_true_iff. tauto.
  - rewrite !orb_true_iff. tauto.
  - rewrite !orb_true_iff. tauto.
Qed.

Lemma fillCount_level_mono (n m : nat) :
  (n <= m)%nat →
  (Auth.fillCount (Auth.level n) <= Auth.fillCount (Auth.level m))%nat.
Proof.
  intros Hnm. unfold Auth.level.
  destruct (n <=? 1)%nat eqn:E1, (m <=? 1)%nat eqn:E2,
    (n <=? 3)%nat eqn:E3, (m <=? 3)%nat eqn:E4; simpl; try lia;
    rewrite ?Nat.leb_le, ?Nat.leb_gt in *; lia.
Qed.

(** X17. The strength meter never goes down when characters are added
    to the password, before or after what was typed: the score and the
    number of filled bars can only grow.  A password of fewer than six
    characters is never rated strong, and one of fewer than ten only
    when it mixes upper and lower case and has a digit and a special
    character.  For a non-empty password the label shows the level and
    exactly the first bars, as many as the level has (or all, if there
    are fewer), carry its class. *)
Theorem password_strength_grows (before typed after : string) (m : Auth.Meter) :
  let longer := before +:+ typed +:+ after in
  let l := Auth.level (Auth.score typed) in
  (Auth.score typed <= Auth.score longer)%nat
  ∧ (Auth.fillCount l <= Auth.fillCount (Auth.level (Auth.score longer)))%nat
  ∧ ((String.length typed < 6)%nat → l ≠ Auth.strong)
  ∧ ((String.length typed < 10)%nat → l = Auth.strong →
     Re.some Re.upper typed = true ∧ Re.some Re.lower typed = true
     ∧ Re.some Re.digit typed = true
     ∧ Re.some (λ c, negb (Re.alnum c)) typed = true)
  ∧ (typed ≠ "" → Auth.strengthLabel m ≠ None →
     let m' := Auth.updatePasswordStrength typed m in
     Auth.strengthLabel m' = Some (Auth.label l)
     ∧ length (Auth.strengthBars m') = length (Auth.strengthBars m)
     ∧ ∀ i, (i < length (Auth.strengthBars m))%nat →
            Auth.strengthBars m' !! i
            = Some (if (i <? Auth.fillCount l)%nat then Some l else None)).
Proof.
  intros longer l. split; [apply score_app|].
  split; [apply fillCount_level_mono, score_app|].
  split; [|split].
  - intros Hlen. subst l. unfold Auth.level, Auth.score.
    apply Nat.leb_gt in Hlen as H6. rewrite H6.
    assert (H10 : (10 <=? String.length typed)%nat = false) by (apply Nat.leb_gt; lia).
    rewrite H10.
    destruct (Re.some Re.upper typed), (Re.some Re.lower typed),
      (Re.some Re.digit typed), (Re.some (λ c, negb (Re.alnum c)) typed); simpl; done.
  - intros Hlen. subst l. unfold Auth.level, Auth.score.
    assert (H10 : (10 <=? String.length typed)%nat = false) by (apply Nat.leb_gt; lia).
    rewrite H10.
    destruct (6 <=? String.length typed)%nat, (Re.some Re.upper typed),
      (Re.some Re.lower typed), (Re.some Re.digit typed),
      (Re.some (λ c, negb (Re.alnum c)) typed); simpl; done.
  - intros Htyped Hlabel m'. subst m'. unfold Auth.updatePasswordStrength.
    destruct (Auth.strengthLabel m) as [text|]; [|done].
    assert (Hlen : (String.length typed =? 0)%nat = false)
      by (by destruct typed).
    rewrite Hlen. fold l. simpl. unfold Auth.fill.
    rewrite length_imap, length_fmap. split; [done|]. split; [done|].
    intros i Hi. rewrite list_lookup_imap, list_lookup_fmap.
    apply lookup_lt_is_Some in Hi as [bar ->]. done.
Qed.

Lemma password_strength_grows_witness :
  (String.length "Ab1!" < 6)%nat
  ∧ Auth.level (Auth.score "Ab1!") ≠ Auth.strong.
Proof.
  assert (Hlen : (String.length "Ab1!" < 6)%nat) by (simpl; lia).
  split; [exact Hlen|].
  exact (proj1 (proj2 (proj2 (password_strength_grows "" "Ab1!" ""
                                (Auth.mkMeter [None; None; None] (Some "")))))
           Hlen).
Defined.

(* ------------------------------------------------------------------ *)
(** ** The forms of the sign-in page *)

Lemma some_negb_every (class : ascii → bool) (s : string) :
  Re.some (λ c, negb (class c)) s = negb (Re.every class s).
Proof.
  induction s as [|c s IH]; [done|]. simpl. rewrite IH. by destruct (class c).
Qed.

Lemma nameChar_not_space (c : ascii) : Re.nameChar c = true → Js.isWhiteSpace c = false.
Proof. by destruct c as [[] [] [] [] [] [] [] []]; vm_compute. Qed.

Lemma every_nameChar_no_space (s : string) :
  Re.every Re.nameChar s = true → Re.some Js.isWhiteSpace s = false.
Proof.
  induction s as [|c s IH]; [done|]. simpl.
  intros [Hc Hs]%andb_true_iff. by rewrite (nameChar_not_space c Hc), IH.
Qed.

(** X18. The register form requests an account only when the trimmed
    username has at least three characters, all of them letters, digits,
    dots, hyphens or underscores, the password has at least six
    characters and is repeated exactly in the confirmation.  The request
    then carries the trimmed username, which holds no white space, the
    password as typed, and the trimmed display name, or none when that
    is empty or the form has no such input. *)
Theorem register_validated (regUsername regPassword regConfirm : string)
  (regDisplayName : option string) :
  let submitted := Auth.register regUsername regDisplayName regPassword regConfirm in
  let username := Js.trim regUsername in
  (∀ request, submitted = Auth.Requested request
     ↔ ((3 <= String.length username)%nat
        ∧ Re.every Re.nameChar username = true
        ∧ (6 <= String.length regPassword)%nat
        ∧ regPassword = regConfirm)
       ∧ request
         = Auth.mkRegister username regPassword
             (EditProfile.whenFilled regDisplayName))
  ∧ (∀ request, submitted = Auth.Requested request →
       Re.some Js.isWhiteSpace (Auth.reg_username request) = false
       ∧ Auth.reg_display_name request ≠ Some "")
  ∧ ((∀ request, submitted ≠ Auth.Requested request) →
     ∃ message focus, submitted = Auth.Rejected message focus ∧ message ≠ "").
Proof.
  intros submitted username.
  assert (Hdisplay :
    (if Js.truthy (Js.text (Js.trim <$> regDisplayName))
     then Some (Js.text (Js.trim <$> regDisplayName)) else None)
    = EditProfile.whenFilled regDisplayName).
  { destruct regDisplayName as [value|]; [done|]. reflexivity. }
  assert (Hreq : ∀ request, submitted = Auth.Requested request
     ↔ ((3 <= String.length username)%nat
        ∧ Re.every Re.nameChar username = true
        ∧ (6 <= String.length regPassword)%nat
        ∧ regPassword = regConfirm)
       ∧ request
         = Auth.mkRegister username regPassword
             (EditProfile.whenFilled regDisplayName)).
  { intros request. subst submitted. unfold Auth.register. fold username.
    rewrite Hdisplay, some_negb_every.
    destruct (Js.truthy username) eqn:Ht; simpl.
    2:{ apply truthy_false_iff in Ht. split; [done|].
        intros [(Hlen & _) _]. rewrite Ht in Hlen. simpl in Hlen. lia. }
    destruct (String.length username <? 3)%nat eqn:H3.
    { apply Nat.ltb_lt in H3. split; [done|]. intros [(Hlen & _) _]. lia. }
    apply Nat.ltb_ge in H3.
    destruct (Re.every Re.nameChar username) eqn:Hn; simpl.
    2:{ split; [done|]. by intros [(_ & ? & _) _]. }
    destruct (Js.truthy regPassword) eqn:Hp; simpl.
    2:{ apply truthy_false_iff in Hp. split; [done|].
        intros [(_ & _ & Hlen & _) _]. rewrite Hp in Hlen. simpl in Hlen. lia. }
    destruct (String.length regPassword <? 6)%nat eqn:H6.
    { apply Nat.ltb_lt in H6. split; [done|]. intros [(_ & _ & Hlen & _) _]. lia. }
    apply Nat.ltb_ge in H6.
    case_bool_decide as Hc; simpl.
    - split; [by intros [= <-]|]. by intros [_ ->].
    - split; [done|]. by intros [(_ & _ & _ & ?) _]. }
  split; [exact Hreq|]. split.
  - intros request Hr. apply Hreq in Hr as [(_ & Hn & _) ->]. simpl.
    split; [by apply every_nameChar_no_space|].
    intros Hd. by apply whenFilled_Some in Hd as (_ & _ & _ & ?).
  - intros Hnone. subst submitted. unfold Auth.register in *.
    repeat match goal with
           | |- context [if ?b then _ else _] =>
               destruct b; [by eexists _, _|]
           end.
    destruct (Hnone _ eq_refl).
Qed.

Lemma register_validated_witness :
  Auth.register " ada.l " (Some "  ") "secret" "secret"
  = Auth.Requested (Auth.mkRegister "ada.l" "secret" None)
  ∧ Re.some Js.isWhiteSpace "ada.l" = false.
Proof.
  assert (E : Auth.register " ada.l " (Some "  ") "secret" "secret"
              = Auth.Requested (Auth.mkRegister "ada.l" "secret" None))
    by (vm_compute; reflexivity).
  split; [exact E|].
  exact (proj1 (proj1 (proj2 (register_validated " ada.l " "secret" "secret" (Some "  ")))
                  _ E)).
Defined.

(** X19. The login form requests a session only with a username that
    is not blank, trimmed, and a password that is not empty, sent as
    typed.  When the request fails, the message shown is never empty:
    it is "Invalid username or password." when a response with status
    401 arrived, whatever its body says, and otherwise the message of
    the error, which for a failed request is the error text of the
    body, the status line or the network notice. *)
Theorem login_validated (loginUsername loginPassword : string)
  (fetched : Client.Fetched unit) :
  let submitted := Auth.login loginUsername loginPassword in
  (∀ request, submitted = Auth.Requested request
     ↔ (Js.trim loginUsername ≠ "" ∧ loginPassword ≠ "")
       ∧ request = Auth.mkLogin (Js.trim loginUsername) loginPassword)
  ∧ (∀ message status data,
       Client.request fetched = Client.Throws message status data →
       let shown := Auth.loginError status message in
       shown ≠ ""
       ∧ (shown = "Invalid username or password."
          ↔ (∃ res, fetched = Client.Responds res ∧ Client.status res = 401%nat)
            ∨ message = "Invalid username or password.")
       ∧ (status ≠ Some 401%nat → shown = message)).
Proof.
  intros submitted. split.
  - intros request. subst submitted. unfold Auth.login.
    destruct (Js.truthy (Js.trim loginUsername)) eqn:Hu; simpl.
    + destruct (Js.truthy loginPassword) eqn:Hp; simpl.
      * apply truthy_true_iff in Hu, Hp. split; [by intros [= <-]|]. by intros [_ ->].
      * apply truthy_false_iff in Hp. split; [done|]. by intros [[_ ?] _].
    + apply truthy_false_iff in Hu. split; [done|]. by intros [[? _] _].
  - intros message status data Hthrows shown. subst shown.
    assert (Hmessage : message ≠ "").
    { destruct fetched as [|res]; simpl in Hthrows.
      - by injection Hthrows as <- _ _.
      - destruct (Client.ok res); simpl in Hthrows; [done|].
        injection Hthrows as <- _ _. apply or_else_nonempty. by apply append_nonempty. }
    assert (Hstatus : status = Some 401%nat
                      ↔ ∃ res, fetched = Client.Responds res ∧ Client.status res = 401%nat).
    { destruct fetched as [|res]; simpl in Hthrows.
      - injection Hthrows as _ <- _. split; [done|]. by intros (res & ? & _).
      - destruct (Client.ok res); simpl in Hthrows; [done|].
        injection Hthrows as _ <- _. split.
        + intros [= E]. eauto.
        + intros (res' & [= <-] & ->). done. }
    assert (Hor : Js.or_else (Some message) "Login failed. Please try again." = message).
    { unfold Js.or_else. by apply truthy_true_iff in Hmessage as ->. }
    unfold Auth.loginError. rewrite Hor. case_bool_decide as H401.
    + split; [done|]. split; [|done]. split; [|done]. intros _. left. by apply Hstatus.
    + split; [done|]. split; [|done]. split; [by right|].
      intros [Hres | ->]; [|done]. by apply Hstatus in Hres.
Qed.

Lemma login_validated_witness :
  Client.request (A := unit)
    (Client.Responds
       (Client.mkResponse false 401 (Some "application/json")
          (Some (Client.mkJsonBody (Some "bad credentials") ()))))
  = Client.Throws "bad credentials" (Some 401%nat)
      (Some (Client.mkJsonBody (Some "bad credentials") ()))
  ∧ Auth.loginError (Some 401%nat) "bad credentials" ≠ "".
Proof.
  split; [reflexivity|].
  exact (proj1 (proj2 (login_validated "ada" "secret"
                         (Client.Responds
                            (Client.mkResponse false 401 (Some "application/json")
                               (Some (Client.mkJsonBody (Some "bad credentials") ())))))
                  _ _ _ eq_refl)).
Defined.

(* ------------------------------------------------------------------ *)
(** ** The submit buttons *)

(** X20. [setLoading] disables the button and shows the spinner while
    a request is under way, and afterwards enables it and restores its
    content, provided the button had content.  The content is kept for
    one level only: when the button is set loading again before it was
    restored, the content that comes back is the spinner. *)
Theorem setLoading_restores (btn : Auth.Button) :
  Auth.innerHTML btn ≠ "" →
  let busy := Auth.setLoading true btn in
  let back := Auth.setLoading false busy in
  (Auth.disabled busy = true ∧ Auth.innerHTML busy = Auth.pleaseWait)
  ∧ (Auth.disabled back = false ∧ Auth.innerHTML back = Auth.innerHTML btn)
  ∧ Auth.innerHTML (Auth.setLoading false (Auth.setLoading true back)) = Auth.innerHTML btn
  ∧ Auth.innerHTML
      (Auth.setLoading false (Auth.setLoading false (Auth.setLoading true busy)))
    = Auth.pleaseWait.
Proof.
  intros Hne. apply truthy_true_iff in Hne. simpl. rewrite Hne. simpl.
  rewrite Hne. done.
Qed.

Lemma setLoading_restores_witness :
  Auth.innerHTML (Auth.mkButton false "Sign in" None) ≠ ""
  ∧ Auth.innerHTML
      (Auth.setLoading false (Auth.setLoading true (Auth.mkButton false "Sign in" None)))
    = "Sign in".
Proof.
  assert (Hne : Auth.innerHTML (Auth.mkButton false "Sign in" None) ≠ "") by done.
  split; [exact Hne|].
  exact (proj2 (proj1 (proj2 (setLoading_restores _ Hne)))).
Defined.

(* ------------------------------------------------------------------ *)
(** ** Start of the chat page *)





(** X22. The two pages never send the browser back and forth: whatever
    the session check gives, the sign-in page goes to the chat page only
    when the check returned a user id, and then the chat page stays; and
    when the chat page goes to the sign-in page, that page stays. *)
Theorem no_redirect_loop (me : Client.Outcome Init.MeData)
  (stored : option Init.CurrentUser) (profile : Client.Outcome Init.Profile)
  (friendList : Client.Outcome Init.FriendsData) :
  let chat := Init.location (Init.init stored me profile friendList) in
  let auth := Init.checkExistingSession me in
  (auth = Some "chat.html" → chat = None)
  ∧ (chat = Some "index.html" → auth = None)
  ∧ (auth = Some "chat.html"
     ↔ ∃ body id, me = Client.Returns (Some body)
                  ∧ Init.me_user_id (Client.payload body) = Init.Text id ∧ id ≠ "").
Proof.
  simpl. destruct me as [[body|]|message status data]; simpl.
  - assert (Hchat : Init.location (Init.init stored (Client.Returns (Some body))
                                     profile friendList) = None)
      by (simpl; by destruct profile as [[p|]|]).
    simpl in Hchat. rewrite Hchat. clear Hchat. split; [done|]. split; [done|].
    destruct (Init.me_user_id (Client.payload body)) as [| |id] eqn:Eid.
    + split; [done|]. intros (b & i & [= <-] & ? & _). congruence.
    + split; [done|]. intros (b & i & [= <-] & ? & _). congruence.
    + destruct (Js.truthy id) eqn:Et.
      * apply truthy_true_iff in Et. split; [|done]. intros _. by exists body, id.
      * apply truthy_false_iff in Et. split; [done|].
        intros (b & i & [= <-] & Hi & Hne). congruence.
  - split; [done|]. split; [done|]. split; [done|]. by intros (b & i & ? & _).
  - split; [done|]. split; [done|]. split; [done|]. by intros (b & i & ? & _).
Qed.

Lemma no_redirect_loop_witness :
  Init.checkExistingSession
    (Client.Returns (Some (Client.mkJsonBody None (Init.Build_MeData (Init.Text "u-me")))))
  = Some "chat.html"
  ∧ Init.location
      (Init.init None
         (Client.Returns
            (Some (Client.mkJsonBody None (Init.Build_MeData (Init.Text "u-me")))))
         (Client.Returns None) (Client.Returns None))
    = None.
Proof.
  split; [reflexivity|].
  exact (proj1 (no_redirect_loop
                  (Client.Returns
                     (Some (Client.mkJsonBody None (Init.Build_MeData (Init.Text "u-me")))))
                  None (Client.Returns None) (Client.Returns None))
           eq_refl).
Defined.
